(** * The looper stepper: nested loops that can be stopped and resumed

    A shallow embedding of [looper/step.go] (Stepper.Init, Stepper.Run,
    Stepper.runLevel, Stepper.phaseLogic) and of the counter type [Ctr] that
    the stepper increments.  Callbacks are opaque in the Go code; here they are functions
    on a host state [W].  Every call of a callback is recorded in a ghost
    trace [fired], which no modelled code reads. *)

From Stdlib Require Import ZArith Lia List Bool String.
From stdpp Require Import base option list gmap strings.

Local Open Scope Z_scope.

(** ** Machine integers *)

(** Go's [int] on the 64-bit targets: arithmetic wraps around. *)
Definition wrap64 (z : Z) : Z := (z + 2 ^ 63) mod 2 ^ 64 - 2 ^ 63.

Definition int_ok (z : Z) : Prop := - 2 ^ 63 <= z < 2 ^ 63.

(** [etime.Times] and [etime.Modes] are integer enumerations. *)
Definition Times := nat.
Definition Modes := nat.

(** ** Outcome of a run *)

(** [Panic] is a nil dereference (a mode without a stack, a time scale without
    a loop); [OutOfFuel] is how the model cuts a loop that has not ended. *)
Inductive outcome (A : Type) : Type :=
| Done (a : A)
| Panic
| OutOfFuel.
Arguments Done {A} a.
Arguments Panic {A}.
Arguments OutOfFuel {A}.

(** ** Ghost trace *)

(** The hook lists of a loop; a phase list is named by the index of its phase. *)
Inductive HookList : Type :=
| OnStartL
| MainL
| OnEndL
| PhaseStartL (p : nat)
| OnMillisecondEndL (p : nat)
| PhaseEndL (p : nat).

(** [Called t l i]: the [i]-th function of list [l] of the loop of time scale
    [t] ran.  [Tested t name r]: the termination function [name] of that loop
    ran and returned [r]. *)
Inductive Event : Type :=
| Called (t : Times) (l : HookList) (i : nat)
| Tested (t : Times) (name : string) (r : bool).

Global Instance HookList_eq_dec : EqDecision HookList.
Proof. solve_decision. Defined.

Global Instance Event_eq_dec : EqDecision Event.
Proof. solve_decision. Defined.

(** ** The counter (type Ctr) *)

Record Ctr : Type := mkCtr {
  Cur : Z;   (* current counter value *)
  Max : Z    (* maximum counter value -- only used if > 0 *)
}.

(** Ctr.Incr: increments the counter by 1, does not interact with Max. *)
Definition Incr (ct : Ctr) : Ctr := mkCtr (wrap64 (Cur ct + 1)) (Max ct).

(** Ctr.IsOverMax *)
Definition IsOverMax (ct : Ctr) : bool := (0 <? Max ct) && (Max ct <=? Cur ct).

(** Ctr.Set: the new counter and whether it changed. *)
Definition Set_ (ct : Ctr) (cur : Z) : Ctr * bool :=
  if Cur ct =? cur then (ct, false) else (mkCtr cur (Max ct), true).

Section Looper.

(** The state of the host program that the callbacks read and write. *)
Variable W : Type.

(** A hook: [fun.Func()]. *)
Record NamedFunc : Type := mkNamedFunc {
  Name : string;
  Func : W -> W
}.

(** A termination function, [func() bool]. *)
Definition Pred : Type := W -> bool * W.

Record Phase : Type := mkPhase {
  Duration : Z;
  PhaseStart : list NamedFunc;
  OnMillisecondEnd : list NamedFunc;
  PhaseEnd : list NamedFunc
}.

Record LoopStructure : Type := mkLoop {
  OnStart : list NamedFunc;
  Main : list NamedFunc;
  OnEnd : list NamedFunc;
  IsDone : gmap string Pred;
  Phases : list Phase;
  Counter : Ctr
}.

Record Stack : Type := mkStack {
  Order : list Times;
  Loops : gmap Times LoopStructure
}.

Record LoopManager : Type := mkLoopManager {
  Stacks : gmap Modes Stack
}.

Record Stepper : Type := mkStepper {
  StopFlag : bool;          (* If true, stop model ASAP. *)
  StopNext : bool;          (* If true, stop model after next stop level. *)
  StopLevel : Times;        (* Time level to stop at the end of. *)
  StepIterations : Z;       (* How many steps to do. *)
  LoopsOf : LoopManager;    (* The information about loops (field Loops). *)
  Mode : Modes;             (* The current evaluation mode. *)
  lastStoppedLevel : Z;     (* The level at which a stop interrupted flow. *)
  internalStop : bool
}.

(** The stepper together with the host state and the ghost trace. *)
Record Machine : Type := mkMachine {
  stp : Stepper;
  world : W;
  fired : list Event
}.

(** Go does not fix the order in which [range] visits a map.  [rangeOrder]
    is the order the runtime picks; all that is known is that it visits
    every entry once. *)
Variable rangeOrder : gmap string Pred -> list (string * Pred).
Hypothesis rangeOrder_perm : forall m, rangeOrder m ≡ₚ map_to_list m.

(** *** Field updates *)

Definition set_StopFlag (b : bool) (s : Stepper) : Stepper :=
  mkStepper b (StopNext s) (StopLevel s) (StepIterations s) (LoopsOf s)
            (Mode s) (lastStoppedLevel s) (internalStop s).

Definition set_StopNext (b : bool) (s : Stepper) : Stepper :=
  mkStepper (StopFlag s) b (StopLevel s) (StepIterations s) (LoopsOf s)
            (Mode s) (lastStoppedLevel s) (internalStop s).

Definition set_StopLevel (t : Times) (s : Stepper) : Stepper :=
  mkStepper (StopFlag s) (StopNext s) t (StepIterations s) (LoopsOf s)
            (Mode s) (lastStoppedLevel s) (internalStop s).

Definition set_StepIterations (n : Z) (s : Stepper) : Stepper :=
  mkStepper (StopFlag s) (StopNext s) (StopLevel s) n (LoopsOf s)
            (Mode s) (lastStoppedLevel s) (internalStop s).

Definition set_LoopsOf (lm : LoopManager) (s : Stepper) : Stepper :=
  mkStepper (StopFlag s) (StopNext s) (StopLevel s) (StepIterations s) lm
            (Mode s) (lastStoppedLevel s) (internalStop s).

Definition set_lastStoppedLevel (d : Z) (s : Stepper) : Stepper :=
  mkStepper (StopFlag s) (StopNext s) (StopLevel s) (StepIterations s)
            (LoopsOf s) (Mode s) d (internalStop s).

Definition set_internalStop (b : bool) (s : Stepper) : Stepper :=
  mkStepper (StopFlag s) (StopNext s) (StopLevel s) (StepIterations s)
            (LoopsOf s) (Mode s) (lastStoppedLevel s) b.

(** [Stepper.Init]: sets the manager, the stop level, the mode and
    [lastStoppedLevel], and leaves the other fields as they are.  [etimeRun]
    and [etimeTrain] stand for [etime.Run] and [etime.Train], constants of a
    package that is not among the sources at hand. *)
Definition Init (etimeRun : Times) (etimeTrain : Modes)
    (loopman : LoopManager) (s : Stepper) : Stepper :=
  mkStepper (StopFlag s) (StopNext s) etimeRun (StepIterations s) loopman
    etimeTrain (-1) (internalStop s).

Definition on_stp (f : Stepper -> Stepper) (m : Machine) : Machine :=
  mkMachine (f (stp m)) (world m) (fired m).

(** [ctr.Cur = v] through the pointer [loop.Counter] of the loop of time
    scale [t] in the stack of the current mode. *)
Definition setCurLoop (v : Z) (lp : LoopStructure) : LoopStructure :=
  mkLoop (OnStart lp) (Main lp) (OnEnd lp) (IsDone lp) (Phases lp)
         (mkCtr v (Max (Counter lp))).

Definition setCurStack (t : Times) (v : Z) (st : Stack) : Stack :=
  mkStack (Order st) (alter (setCurLoop v) t (Loops st)).

Definition setCurStepper (t : Times) (v : Z) (s : Stepper) : Stepper :=
  set_LoopsOf
    (mkLoopManager (alter (setCurStack t v) (Mode s) (Stacks (LoopsOf s)))) s.

Definition setCur (t : Times) (v : Z) (m : Machine) : Machine :=
  on_stp (setCurStepper t v) m.

(** [stepper.Loops.Stacks[stepper.Mode]] *)
Definition curStack (m : Machine) : option Stack :=
  Stacks (LoopsOf (stp m)) !! Mode (stp m).

(** [st.Loops[time]] in the stack of the current mode. *)
Definition getLoop (t : Times) (m : Machine) : option LoopStructure :=
  st ← curStack m; Loops st !! t.

(** *** Calling the hooks *)

(** [for _, fun := range fs { fun.Func() }] for list [l] of the loop of [t]. *)
Definition callAll (t : Times) (l : HookList) (fs : list NamedFunc)
    (m : Machine) : Machine :=
  mkMachine (stp m)
            (fold_left (fun w f => Func f w) fs (world m))
            (fired m ++ imap (fun i _ => Called t l i) fs).

(** The range over [loop.IsDone], in the order [ps]: stops at the first
    function that returns true. *)
Fixpoint testDone (t : Times) (ps : list (string * Pred)) (m : Machine)
    : bool * Machine :=
  match ps with
  | [] => (false, m)
  | (name, p) :: rest =>
      let '(r, w') := p (world m) in
      let m' := mkMachine (stp m) w' (fired m ++ [Tested t name r]) in
      if r then (true, m') else testDone t rest m'
  end.

(** *** phaseLogic *)

(** One pass of the loop over [loop.Phases]: [amount] on entry is the sum of
    the durations before phase [p]; [cur] is [ctr.Cur]. *)
Definition phaseStep (t : Times) (cur : Z) (p : nat) (amount : Z)
    (phase : Phase) (m : Machine) : Z * Machine :=
  let amount := wrap64 (amount + Duration phase) in
  let m := if cur =? wrap64 (amount - Duration phase)
           then callAll t (PhaseStartL p) (PhaseStart phase) m else m in
  let m := if cur <? amount
           then callAll t (OnMillisecondEndL p) (OnMillisecondEnd phase) m
           else m in
  let m := if cur =? wrap64 (amount - 1)
           then callAll t (PhaseEndL p) (PhaseEnd phase) m else m in
  (amount, m).

Fixpoint phaseLoop (t : Times) (cur : Z) (p : nat) (amount : Z)
    (phases : list Phase) (m : Machine) : Machine :=
  match phases with
  | [] => m
  | phase :: rest =>
      let '(amount', m') := phaseStep t cur p amount phase m in
      phaseLoop t cur (S p) amount' rest m'
  end.

Definition phaseLogic (t : Times) (loop : LoopStructure) (m : Machine)
    : Machine :=
  phaseLoop t (Cur (Counter loop)) 0 0 (Phases loop) m.

(** *** runLevel *)

(** The loop body up to the call of the hooks (lines 55 to 83): [Halt] is the
    [return false] of the interruption, [Proceed] goes on to the recursion. *)
Inductive headResult : Type :=
| Halt (m : Machine)
| Proceed (m : Machine).

Definition loopHead (currentLevel : nat) (time : Times)
    (loop : LoopStructure) (m : Machine) : headResult :=
  let stopAtLevel := bool_decide (time = StopLevel (stp m)) in
  let m := if StopFlag (stp m) && stopAtLevel
           then on_stp (fun s => set_lastStoppedLevel (Z.of_nat currentLevel)
                                   (set_internalStop true s)) m
           else m in
  if internalStop (stp m) then Halt (on_stp (set_StopFlag false) m)
  else
    let m := if StopNext (stp m) && stopAtLevel
             then
               let m := on_stp (fun s => set_StepIterations
                                  (wrap64 (StepIterations s - 1)) s) m in
               if StepIterations (stp m) <=? 0
               then on_stp (fun s => set_lastStoppedLevel (-1)
                              (set_StopFlag true (set_StopNext false s))) m
               else m
             else m in
    let m := if lastStoppedLevel (stp m) <=? Z.of_nat currentLevel
             then callAll time OnStartL (OnStart loop)
                    (on_stp (set_lastStoppedLevel (-1)) m)
             else m in
    Proceed m.

(** The body after a completed inner run (lines 90 to 106): the flag is true
    when the body left through [goto exitLoop]. *)
Definition loopTail (time : Times) (loop : LoopStructure) (m : Machine)
    : bool * Machine :=
  let m := callAll time MainL (Main loop) m in
  let m := callAll time OnEndL (OnEnd loop) m in
  let '(done, m) := testDone time (rangeOrder (IsDone loop)) m in
  if done then (true, setCur time 0 m)
  else (false, setCur time (wrap64 (Cur (Counter loop) + 1)) m).

(** The code after the label [exitLoop]. *)
Definition exitLoop (time : Times) (m : Machine) : bool * Machine :=
  (true, if internalStop (stp m) then m else setCur time 0 m).

Fixpoint runLevel (fuel : nat) (currentLevel : nat) (m : Machine)
    {struct fuel} : outcome (bool * Machine) :=
  match fuel with
  | O => OutOfFuel
  | S fuel' =>
      match curStack m with
      | None => Panic
      | Some st =>
          if (length (Order st) <=? currentLevel)%nat then Done (true, m)
          else
            match Order st !! currentLevel with
            | None => Panic
            | Some time => forLoop fuel' currentLevel time m
            end
      end
  end
with forLoop (fuel : nat) (currentLevel : nat) (time : Times) (m : Machine)
    {struct fuel} : outcome (bool * Machine) :=
  match fuel with
  | O => OutOfFuel
  | S fuel' =>
      match getLoop time m with
      | None => Panic
      | Some loop =>
          let ctr := Counter loop in
          if (Cur ctr <? Max ctr) || (Max ctr <? 0) then
            match loopHead currentLevel time loop m with
            | Halt m1 => Done (false, m1)
            | Proceed m1 =>
                let m2 := phaseLogic time loop m1 in
                match runLevel fuel' (S currentLevel) m2 with
                | Done (runComplete, m3) =>
                    if runComplete then
                      match getLoop time m3 with
                      | None => Panic
                      | Some loop3 =>
                          let '(out, m4) := loopTail time loop3 m3 in
                          if out then Done (exitLoop time m4)
                          else forLoop fuel' currentLevel time m4
                      end
                    else forLoop fuel' currentLevel time m3
                | Panic => Panic
                | OutOfFuel => OutOfFuel
                end
            end
          else Done (exitLoop time m)
      end
  end.

(** Stepper.Run: the result of [runLevel] is dropped. *)
Definition Run (fuel : nat) (m : Machine) : outcome Machine :=
  match runLevel fuel 0 (on_stp (set_internalStop false) m) with
  | Done (_, m') => Done m'
  | Panic => Panic
  | OutOfFuel => OutOfFuel
  end.

End Looper.

Arguments mkNamedFunc {W} Name Func.
Arguments Name {W} n.
Arguments Func {W} n.
Arguments mkPhase {W} Duration PhaseStart OnMillisecondEnd PhaseEnd.
Arguments Duration {W} p.
Arguments PhaseStart {W} p.
Arguments OnMillisecondEnd {W} p.
Arguments PhaseEnd {W} p.
Arguments mkLoop {W} OnStart Main OnEnd IsDone Phases Counter.
Arguments OnStart {W} l.
Arguments Main {W} l.
Arguments OnEnd {W} l.
Arguments IsDone {W} l.
Arguments Phases {W} l.
Arguments Counter {W} l.
Arguments mkStack {W} Order Loops.
Arguments Order {W} s.
Arguments Loops {W} s.
Arguments mkLoopManager {W} Stacks.
Arguments Stacks {W} l.
Arguments mkStepper {W} StopFlag StopNext StopLevel StepIterations LoopsOf Mode
  lastStoppedLevel internalStop.
Arguments StopFlag {W} s.
Arguments StopNext {W} s.
Arguments StopLevel {W} s.
Arguments StepIterations {W} s.
Arguments LoopsOf {W} s.
Arguments Mode {W} s.
Arguments lastStoppedLevel {W} s.
Arguments internalStop {W} s.
Arguments mkMachine {W} stp world fired.
Arguments stp {W} m.
Arguments world {W} m.
Arguments fired {W} m.
Arguments Halt {W} m.
Arguments Proceed {W} m.
Arguments set_StopFlag {W} b s.
Arguments set_StopNext {W} b s.
Arguments set_StopLevel {W} t s.
Arguments set_StepIterations {W} n s.
Arguments set_LoopsOf {W} lm s.
Arguments set_lastStoppedLevel {W} d s.
Arguments set_internalStop {W} b s.
Arguments Init {W} etimeRun etimeTrain loopman s.
Arguments on_stp {W} f m.
Arguments setCurLoop {W} v lp.
Arguments setCurStack {W} t v st.
Arguments setCurStepper {W} t v s.
Arguments setCur {W} t v m.
Arguments curStack {W} m.
Arguments getLoop {W} t m.
Arguments callAll {W} t l fs m.
Arguments testDone {W} t ps m.
Arguments phaseStep {W} t cur p amount phase m.
Arguments phaseLoop {W} t cur p amount phases m.
Arguments phaseLogic {W} t loop m.
Arguments loopHead {W} currentLevel time loop m.
Arguments loopTail {W} rangeOrder time loop m.
Arguments exitLoop {W} time m.
Arguments runLevel {W} rangeOrder fuel currentLevel m.
Arguments forLoop {W} rangeOrder fuel currentLevel time m.
Arguments Run {W} rangeOrder fuel m.

(** The events of one pass over a hook list. *)
Definition calls {W} (t : Times) (l : HookList) (fs : list (NamedFunc W))
    : list Event :=
  imap (fun i _ => Called t l i) fs.

(** The loop condition of [runLevel]. *)
Definition loopCond (ct : Ctr) : bool := (Cur ct <? Max ct) || (Max ct <? 0).

(** ** Basic facts *)

Lemma wrap64_id (z : Z) : int_ok z -> wrap64 z = z.
Proof.
  unfold int_ok, wrap64. intros H.
  rewrite Z.mod_small by lia. lia.
Qed.

Section Facts.

Context {W : Type}.
Implicit Types (m : Machine W) (lp : LoopStructure W) (t : Times).

Lemma getLoop_on_stp_flags m t f :
  LoopsOf (f (stp m)) = LoopsOf (stp m) ->
  Mode (f (stp m)) = Mode (stp m) ->
  getLoop t (on_stp f m) = getLoop t m.
Proof.
  intros HL HM. unfold getLoop, curStack. simpl. by rewrite HL, HM.
Qed.

Lemma getLoop_callAll m t t' l fs :
  getLoop t (callAll t' l fs m) = getLoop t m.
Proof. reflexivity. Qed.

Lemma curStack_setCur m t v :
  curStack (setCur t v m) = setCurStack t v <$> curStack m.
Proof.
  unfold curStack, setCur, setCurStepper. simpl.
  by rewrite lookup_alter_eq.
Qed.

Lemma getLoop_setCur_eq m t v :
  getLoop t (setCur t v m) = setCurLoop v <$> getLoop t m.
Proof.
  unfold getLoop. rewrite curStack_setCur.
  destruct (curStack m) as [st|]; simpl; [|done].
  by rewrite lookup_alter_eq.
Qed.

Lemma getLoop_setCur_ne m t t' v :
  t <> t' -> getLoop t' (setCur t v m) = getLoop t' m.
Proof.
  intros Hne. unfold getLoop. rewrite curStack_setCur.
  destruct (curStack m) as [st|]; simpl; [|done].
  by rewrite lookup_alter_ne.
Qed.

Lemma fired_callAll m t l fs :
  fired (callAll t l fs m) = fired m ++ calls t l fs.
Proof. reflexivity. Qed.

Lemma stp_callAll m t l fs : stp (callAll t l fs m) = stp m.
Proof. reflexivity. Qed.

End Facts.

(** ** The phase schedule *)

Section PhaseSchedule.

Context {W : Type}.
Implicit Types (m : Machine W) (t : Times).

(** The level of the phase example: two phases of durations 2 and 3, with any
    hooks. *)
Definition twoPhases (s0 k0 e0 s1 k1 e1 : list (NamedFunc W))
    : list (Phase W) :=
  [mkPhase 2 s0 k0 e0; mkPhase 3 s1 k1 e1].

(** What [phaseLogic] fires on the two-phase level at each of its five ticks,
    read off the code: the condition on the tick hooks is [ctr.Cur < amount]
    alone, so the ticks 0 and 1 also call the tick hooks of phase 1. *)
Definition twoPhasesFired t (s0 k0 e0 s1 k1 e1 : list (NamedFunc W)) (c : Z)
    : list Event :=
  if c =? 0 then
    calls t (PhaseStartL 0) s0 ++ calls t (OnMillisecondEndL 0) k0
      ++ calls t (OnMillisecondEndL 1) k1
  else if c =? 1 then
    calls t (OnMillisecondEndL 0) k0 ++ calls t (PhaseEndL 0) e0
      ++ calls t (OnMillisecondEndL 1) k1
  else if c =? 2 then
    calls t (PhaseStartL 1) s1 ++ calls t (OnMillisecondEndL 1) k1
  else if c =? 3 then
    calls t (OnMillisecondEndL 1) k1
  else if c =? 4 then
    calls t (OnMillisecondEndL 1) k1 ++ calls t (PhaseEndL 1) e1
  else if c <? 0 then
    calls t (OnMillisecondEndL 0) k0 ++ calls t (OnMillisecondEndL 1) k1
  else [].

(** C3: on a level with phases of durations 2 and 3, [phaseLogic] fires, at
    every counter value, exactly the events of [twoPhasesFired]: the start and
    end hooks fall on the ticks the claim names, and the tick hooks of phase 1
    are also called at the ticks 0 and 1, outside the range of phase 1. *)
Theorem phaseLogic_two_phases t on mn oe dn mx s0 k0 e0 s1 k1 e1 c m :
  fired (phaseLogic t
           (mkLoop on mn oe dn (twoPhases s0 k0 e0 s1 k1 e1) (mkCtr c mx)) m)
  = fired m ++ twoPhasesFired t s0 k0 e0 s1 k1 e1 c.
Proof.
  unfold phaseLogic, twoPhases, twoPhasesFired. simpl.
  unfold phaseStep. simpl.
  change (wrap64 (0 + 2)) with 2.
  change (wrap64 (2 - 2)) with 0.
  change (wrap64 (2 - 1)) with 1.
  change (wrap64 (2 + 3)) with 5.
  change (wrap64 (5 - 3)) with 2.
  change (wrap64 (5 - 1)) with 4.
  destruct (Z.eqb_spec c 0) as [->|H0];
    [simpl; unfold callAll, calls; simpl; by rewrite <- ?app_assoc|].
  destruct (Z.eqb_spec c 1) as [->|H1];
    [simpl; unfold callAll, calls; simpl; by rewrite <- ?app_assoc|].
  destruct (Z.eqb_spec c 2) as [->|H2];
    [simpl; unfold callAll, calls; simpl; by rewrite <- ?app_assoc|].
  destruct (Z.eqb_spec c 3) as [->|H3];
    [simpl; unfold callAll, calls; simpl; by rewrite <- ?app_assoc|].
  destruct (Z.eqb_spec c 4) as [->|H4];
    [simpl; unfold callAll, calls; simpl; by rewrite <- ?app_assoc|].
  destruct (Z.ltb_spec c 2), (Z.ltb_spec c 5), (Z.ltb_spec c 0);
    simpl; unfold callAll, calls; simpl;
    rewrite <- ?app_assoc, ?app_nil_r; try reflexivity; lia.
Qed.

End PhaseSchedule.

(** ** The suspension point and the empty level *)

Section Suspension.

Context {W : Type}.
Variable rangeOrder : gmap string (Pred W) -> list (string * Pred W).
Implicit Types (m : Machine W) (lp : LoopStructure W) (t : Times).

(** The level [d] of the current stack is the loop [lp] of time scale [t]. *)
Definition levelIs m (d : nat) t lp : Prop :=
  exists st, curStack m = Some st /\ Order st !! d = Some t
             /\ Loops st !! t = Some lp.

Lemma levelIs_getLoop m d t lp : levelIs m d t lp -> getLoop t m = Some lp.
Proof.
  intros (st & Hst & _ & Hlp). unfold getLoop. by rewrite Hst.
Qed.

Lemma forLoop_unfold fuel d t m :
  forLoop rangeOrder (S fuel) d t m
  = match getLoop t m with
    | None => Panic
    | Some loop =>
        if loopCond (Counter loop) then
          match loopHead d t loop m with
          | Halt m1 => Done (false, m1)
          | Proceed m1 =>
              match runLevel rangeOrder fuel (S d) (phaseLogic t loop m1) with
              | Done (runComplete, m3) =>
                  if runComplete then
                    match getLoop t m3 with
                    | None => Panic
                    | Some loop3 =>
                        let '(out, m4) := loopTail rangeOrder t loop3 m3 in
                        if out then Done (exitLoop t m4)
                        else forLoop rangeOrder fuel d t m4
                    end
                  else forLoop rangeOrder fuel d t m3
              | Panic => Panic
              | OutOfFuel => OutOfFuel
              end
          end
        else Done (exitLoop t m)
    end.
Proof. reflexivity. Qed.

Lemma runLevel_enter fuel m d t lp :
  levelIs m d t lp ->
  runLevel rangeOrder (S fuel) d m = forLoop rangeOrder fuel d t m.
Proof.
  intros (st & Hst & Hord & Hlp). simpl. rewrite Hst.
  apply lookup_lt_Some in Hord as Hlt.
  destruct (Nat.leb_spec (length (Order st)) d) as [Hle|_]; [lia|].
  by rewrite Hord.
Qed.

(** An interruption is marked when the check of line 60 is reached: either
    [internalStop] is already set, or the stop armed for this level sets it. *)
Definition interruptionMarked m t : bool :=
  internalStop (stp m)
  || (StopFlag (stp m) && bool_decide (t = StopLevel (stp m))).

(** C9: when the loop of a level is entered with an interruption marked,
    [runLevel] returns false at once: no callback runs (trace and host state
    are unchanged), no counter changes (the loop manager is unchanged), and
    [lastStoppedLevel] keeps the depth recorded for the stop: the depth of
    this level if the stop was armed here, its former value otherwise. *)
Theorem runLevel_suspends fuel m d t lp :
  levelIs m d t lp ->
  loopCond (Counter lp) = true ->
  interruptionMarked m t = true ->
  exists m',
    runLevel rangeOrder (S (S fuel)) d m = Done (false, m')
    /\ fired m' = fired m
    /\ world m' = world m
    /\ LoopsOf (stp m') = LoopsOf (stp m)
    /\ internalStop (stp m') = true
    /\ lastStoppedLevel (stp m')
       = (if StopFlag (stp m) && bool_decide (t = StopLevel (stp m))
          then Z.of_nat d else lastStoppedLevel (stp m)).
Proof.
  intros Hlev Hcond Hmark.
  rewrite (runLevel_enter _ _ _ _ _ Hlev).
  apply levelIs_getLoop in Hlev.
  cbn [forLoop]. rewrite Hlev.
  unfold loopCond in Hcond. rewrite Hcond.
  unfold loopHead, interruptionMarked in *.
  destruct (StopFlag (stp m) && bool_decide (t = StopLevel (stp m))) eqn:Harm;
    simpl.
  - eexists. split; [reflexivity|]. simpl. auto.
  - rewrite orb_false_r in Hmark. rewrite Hmark.
    eexists. split; [reflexivity|]. simpl. auto.
Qed.

(** C10: a level whose maximum is 0 and whose counter is at 0 runs no
    iteration: [runLevel] returns true without calling anything (trace and
    host state unchanged), without descending, and every loop of the stack,
    this one with its counter at 0 included, is as before. *)
Theorem runLevel_max_zero fuel m d t lp :
  levelIs m d t lp ->
  Max (Counter lp) = 0 ->
  Cur (Counter lp) = 0 ->
  exists m',
    runLevel rangeOrder (S (S fuel)) d m = Done (true, m')
    /\ fired m' = fired m
    /\ world m' = world m
    /\ (forall t', getLoop t' m' = getLoop t' m)
    /\ getLoop t m' = Some lp.
Proof.
  intros Hlev Hmax Hcur.
  rewrite (runLevel_enter _ _ _ _ _ Hlev).
  apply levelIs_getLoop in Hlev.
  cbn [forLoop]. rewrite Hlev, Hmax, Hcur. simpl.
  unfold exitLoop.
  assert (Hsame : forall t', getLoop t' (setCur t 0 m) = getLoop t' m).
  { intros t'. destruct (decide (t = t')) as [<-|Hne].
    - rewrite getLoop_setCur_eq, Hlev. simpl. f_equal.
      destruct lp as [a b c e f [cu mx]]. simpl in *. by subst.
    - by apply getLoop_setCur_ne. }
  destruct (internalStop (stp m)).
  - eexists. split; [reflexivity|]. auto.
  - eexists. split; [reflexivity|]. simpl.
    repeat split; auto. by rewrite Hsame.
Qed.

End Suspension.

(** ** Stepper-independent facts about the callbacks *)

Section Callbacks.

Context {W : Type}.
Implicit Types (m : Machine W) (lp : LoopStructure W) (t : Times).

Lemma stp_phaseLoop t cur phases : forall p amount m,
  stp (phaseLoop t cur p amount phases m) = stp m.
Proof.
  induction phases as [|ph rest IH]; intros p amount m; simpl; [done|].
  rewrite IH. unfold callAll.
  repeat match goal with |- context [if ?b then _ else _] => destruct b end;
    reflexivity.
Qed.

Lemma stp_phaseLogic t lp m : stp (phaseLogic t lp m) = stp m.
Proof. apply stp_phaseLoop. Qed.

Lemma stp_testDone t ps : forall m, stp (testDone t ps m).2 = stp m.
Proof.
  induction ps as [|[name p] rest IH]; intros m; simpl; [done|].
  destruct (p (world m)) as [r w'] eqn:Hp. destruct r; simpl; [done|].
  by rewrite IH.
Qed.

Lemma getLoop_stp_eq t m m' : stp m' = stp m -> getLoop t m' = getLoop t m.
Proof. intros H. unfold getLoop, curStack. by rewrite H. Qed.

Lemma curStack_stp_eq m m' : stp m' = stp m -> curStack m' = curStack m.
Proof. intros H. unfold curStack. by rewrite H. Qed.

(** No stop or step is armed and no interruption is pending. *)
Definition idle m : Prop :=
  StopFlag (stp m) = false /\ StopNext (stp m) = false
  /\ internalStop (stp m) = false /\ lastStoppedLevel (stp m) = -1.

Lemma idle_stp_eq m m' : stp m' = stp m -> idle m -> idle m'.
Proof. intros H. unfold idle. by rewrite H. Qed.

Lemma idle_setCur t v m : idle m -> idle (setCur t v m).
Proof. unfold idle. simpl. tauto. Qed.

Lemma mark_idle m :
  lastStoppedLevel (stp m) = -1 -> on_stp (set_lastStoppedLevel (-1)) m = m.
Proof.
  destruct m as [[a b c e f g h i] w tr]. simpl. intros ->. reflexivity.
Qed.

Lemma loopHead_idle d t lp m :
  idle m -> loopHead d t lp m = Proceed (callAll t OnStartL (OnStart lp) m).
Proof.
  intros (Hf & Hn & Hi & Hl). unfold loopHead.
  rewrite Hf. simpl. rewrite Hi, Hn. simpl. rewrite Hl.
  destruct (Z.leb_spec (-1) (Z.of_nat d)) as [_|Hlt]; [|lia].
  by rewrite mark_idle.
Qed.

(** No interruption is pending, and whatever stop or step is armed is
    armed for none of the time scales [ts]. *)
Definition unarmed m (ts : list Times) : Prop :=
  internalStop (stp m) = false /\ lastStoppedLevel (stp m) = -1
  /\ ((StopFlag (stp m) = false /\ StopNext (stp m) = false)
      \/ StopLevel (stp m) ∉ ts).

Lemma idle_unarmed m ts : idle m -> unarmed m ts.
Proof. intros (? & ? & ? & ?). unfold unarmed. auto. Qed.

Lemma unarmed_stp_eq m m' ts : stp m' = stp m -> unarmed m ts -> unarmed m' ts.
Proof. intros H. unfold unarmed. by rewrite H. Qed.

Lemma unarmed_setCur t v m ts : unarmed m ts -> unarmed (setCur t v m) ts.
Proof. unfold unarmed. simpl. tauto. Qed.

Lemma unarmed_tail m t ts : unarmed m (t :: ts) -> unarmed m ts.
Proof.
  intros (? & ? & [?|Hni]); unfold unarmed; split; [done|split; [done|]|done|].
  - by left.
  - split; [done|]. right. intros Hin. apply Hni. by right.
Qed.

Lemma loopHead_unarmed d t lp m ts :
  unarmed m ts -> t ∈ ts ->
  loopHead d t lp m = Proceed (callAll t OnStartL (OnStart lp) m).
Proof.
  intros (Hi & Hl & Harm) Hin. unfold loopHead.
  assert (Hf : StopFlag (stp m) && bool_decide (t = StopLevel (stp m)) = false).
  { destruct Harm as [[-> _]|Hni]; [done|].
    rewrite bool_decide_eq_false_2; [apply andb_false_r|].
    intros ->. by apply Hni. }
  assert (Hn : StopNext (stp m) && bool_decide (t = StopLevel (stp m)) = false).
  { destruct Harm as [[_ ->]|Hni]; [done|].
    rewrite bool_decide_eq_false_2; [apply andb_false_r|].
    intros ->. by apply Hni. }
  rewrite Hf, Hi, Hn, Hl.
  destruct (Z.leb_spec (-1) (Z.of_nat d)) as [_|Hlt]; [|lia].
  by rewrite mark_idle.
Qed.

End Callbacks.


(** ** Counting the calls in a trace *)

(** How often the event [e] occurs in the trace [tr]. *)
Definition timesFired (e : Event) (tr : list Event) : nat :=
  count_occ Event_eq_dec tr e.

(** The three hook lists of a loop itself, as opposed to those of its phases. *)
Definition plain (l : HookList) : bool :=
  match l with
  | OnStartL | MainL | OnEndL => true
  | _ => false
  end.

Definition hooksOf {W} (lp : LoopStructure W) (l : HookList)
    : list (NamedFunc W) :=
  match l with
  | OnStartL => OnStart lp
  | MainL => Main lp
  | OnEndL => OnEnd lp
  | _ => []
  end.

(** An event of a phase hook. *)
Definition phaseEvent (e : Event) : Prop :=
  match e with
  | Called _ l _ => plain l = false
  | Tested _ _ _ => False
  end.

Section Counting.

Context {W : Type}.
Implicit Types (m : Machine W) (lp : LoopStructure W) (t : Times).

Lemma timesFired_app e tr1 tr2 :
  timesFired e (tr1 ++ tr2) = (timesFired e tr1 + timesFired e tr2)%nat.
Proof. apply count_occ_app. Qed.

Lemma timesFired_nil e : timesFired e [] = 0%nat.
Proof. reflexivity. Qed.

Lemma timesFired_not_in e tr : ~ In e tr -> timesFired e tr = 0%nat.
Proof. intros H. by apply count_occ_not_In. Qed.

Lemma in_calls_shift e t l (fs : list (NamedFunc W)) : forall k,
  In e (imap (fun i _ => Called t l (k + i)) fs) ->
  exists i, (i < length fs)%nat /\ e = Called t l (k + i).
Proof.
  induction fs as [|f fs IH]; intros k; simpl; [tauto|].
  intros [<-|Hin].
  - exists 0%nat. split; [lia|done].
  - assert (Hin' : In e (imap (fun i _ => Called t l (S k + i)) fs)).
    { erewrite imap_ext; [exact Hin|]. intros i x _. simpl. f_equal. lia. }
    destruct (IH _ Hin') as (i & Hi & ->).
    exists (S i). split; [lia|]. f_equal. lia.
Qed.

Lemma in_calls e t l (fs : list (NamedFunc W)) :
  In e (calls t l fs) -> exists i, (i < length fs)%nat /\ e = Called t l i.
Proof. apply (in_calls_shift e t l fs 0). Qed.

Lemma timesFired_calls_shift t l (fs : list (NamedFunc W)) : forall k i,
  timesFired (Called t l (k + i))
    (imap (fun j _ => Called t l (k + j)) fs)
  = if decide (i < length fs)%nat then 1%nat else 0%nat.
Proof.
  unfold timesFired.
  induction fs as [|f fs IH]; intros k i.
  - cbn [imap length count_occ]. destruct (decide (i < 0)%nat); [lia|done].
  - rewrite imap_cons. cbn [length].
    assert (Hshift : imap ((fun j (_ : NamedFunc W) => Called t l (k + j)) ∘ S) fs
                     = imap (fun j _ => Called t l (S k + j)) fs).
    { apply imap_ext. intros j x _. simpl. f_equal. lia. }
    rewrite Hshift.
    destruct i as [|i].
    + rewrite count_occ_cons_eq by reflexivity.
      assert (Hz : count_occ Event_eq_dec
                     (imap (fun j _ => Called t l (S k + j)) fs)
                     (Called t l (k + 0)) = 0%nat).
      { apply count_occ_not_In. intros Hin.
        apply in_calls_shift in Hin as (j & _ & Hj). injection Hj. lia. }
      rewrite Hz. destruct (decide (0 < S (length fs))%nat); [done|lia].
    + rewrite count_occ_cons_neq by (intros H; injection H; lia).
      replace (k + S i)%nat with (S k + i)%nat by lia.
      rewrite (IH (S k) i).
      destruct (decide (i < length fs)%nat),
        (decide (S i < S (length fs))%nat); try done; lia.
Qed.

Lemma timesFired_calls t l (fs : list (NamedFunc W)) i :
  timesFired (Called t l i) (calls t l fs)
  = if decide (i < length fs)%nat then 1%nat else 0%nat.
Proof. apply (timesFired_calls_shift t l fs 0 i). Qed.

Lemma timesFired_calls_other t l t' l' (fs : list (NamedFunc W)) i :
  (t, l) <> (t', l') -> timesFired (Called t l i) (calls t' l' fs) = 0%nat.
Proof.
  intros Hne. apply timesFired_not_in. intros Hin.
  apply in_calls in Hin as (j & _ & Hj). injection Hj. congruence.
Qed.

Lemma timesFired_tested_calls t name r t' l (fs : list (NamedFunc W)) :
  timesFired (Tested t name r) (calls t' l fs) = 0%nat.
Proof.
  apply timesFired_not_in. intros Hin.
  apply in_calls in Hin as (j & _ & Hj). discriminate.
Qed.

Lemma phaseEvent_calls t l (fs : list (NamedFunc W)) :
  plain l = false -> Forall phaseEvent (calls t l fs).
Proof.
  intros Hl. apply Forall_forall. intros e Hin.
  apply list_elem_of_In, in_calls in Hin as (j & _ & ->). exact Hl.
Qed.

(** [phaseLogic] only appends events of phase hooks. *)
Lemma fired_phaseStep t cur p amount ph m :
  exists ev, fired (phaseStep t cur p amount ph m).2 = fired m ++ ev
             /\ Forall phaseEvent ev.
Proof.
  unfold phaseStep. cbn [snd].
  set (a := wrap64 (amount + Duration ph)).
  exists ((if cur =? wrap64 (a - Duration ph)
           then calls t (PhaseStartL p) (PhaseStart ph) else [])
          ++ (if cur <? a
              then calls t (OnMillisecondEndL p) (OnMillisecondEnd ph) else [])
          ++ (if cur =? wrap64 (a - 1)
              then calls t (PhaseEndL p) (PhaseEnd ph) else [])).
  split.
  - destruct (cur =? wrap64 (a - Duration ph)), (cur <? a),
      (cur =? wrap64 (a - 1)); cbn [fired callAll]; fold (@calls W);
      rewrite <- ?app_assoc, ?app_nil_r; reflexivity.
  - rewrite !Forall_app.
    destruct (cur =? wrap64 (a - Duration ph)), (cur <? a),
      (cur =? wrap64 (a - 1));
      repeat split; try (by apply phaseEvent_calls); apply Forall_nil_2.
Qed.

Lemma fired_phaseLoop t cur phases : forall p amount m,
  exists ev, fired (phaseLoop t cur p amount phases m) = fired m ++ ev
             /\ Forall phaseEvent ev.
Proof.
  induction phases as [|ph rest IH]; intros p amount m; cbn [phaseLoop].
  - exists []. by rewrite app_nil_r.
  - destruct (fired_phaseStep t cur p amount ph m) as (ev1 & H1 & Hev1).
    destruct (phaseStep t cur p amount ph m) as [amount' m'] eqn:Hstep.
    cbn [snd] in H1.
    destruct (IH (S p) amount' m') as (ev2 & -> & Hev2).
    exists (ev1 ++ ev2). rewrite H1, app_assoc. split; [done|].
    by apply Forall_app.
Qed.

Lemma fired_phaseLogic t lp m :
  exists ev, fired (phaseLogic t lp m) = fired m ++ ev /\ Forall phaseEvent ev.
Proof. apply fired_phaseLoop. Qed.

Lemma timesFired_phase e ev :
  Forall phaseEvent ev -> ~ phaseEvent e -> timesFired e ev = 0%nat.
Proof.
  intros Hev He. apply timesFired_not_in. intros Hin.
  rewrite Forall_forall in Hev. apply He, Hev, list_elem_of_In, Hin.
Qed.

End Counting.


(** ** Runs of bounded levels *)

(** The time scale an event belongs to. *)
Definition eventTime (e : Event) : Times :=
  match e with
  | Called t _ _ => t
  | Tested t _ _ => t
  end.

Section Bounded.

Context {W : Type}.
Implicit Types (m : Machine W) (lp : LoopStructure W) (t : Times)
  (s : Stepper W) (lvls : list (Times * LoopStructure W)).

(** The order of the current stack is [ts]. *)
Definition stackIs m (ts : list Times) : Prop :=
  exists st, curStack m = Some st /\ Order st = ts.

(** The levels [lvls] (time scale and loop, outermost first) are in the
    machine as given, each with its counter at 0. *)
Definition atRest m lvls : Prop :=
  Forall (fun tl => getLoop tl.1 m = Some tl.2 /\ Cur (Counter tl.2) = 0) lvls.

(** A bounded level: a positive maximum (that fits the machine integer). *)
Definition bounded (tl : Times * LoopStructure W) : Prop :=
  0 < Max (Counter tl.2) < 2 ^ 63.

(** A level none of whose termination functions ever returns true. *)
Definition quiet (tl : Times * LoopStructure W) : Prop :=
  forall name p w, IsDone tl.2 !! name = Some p -> (p w).1 = false.

(** Fuel that is enough to run the levels [lvls] to their end. *)
Fixpoint fuelFor lvls : nat :=
  match lvls with
  | [] => 1
  | tl :: rest => fuelFor rest + Z.to_nat (Max (Counter tl.2)) + 2
  end.

(** How often the [i]-th hook of the plain list [l] of time scale [t] is
    called in a full run of the nested levels [lvls], when no termination
    function fires: once per iteration of its own level, for every iteration
    of the levels around it. *)
Fixpoint expected lvls (t : Times) (l : HookList) (i : nat) : nat :=
  match lvls with
  | [] => 0
  | tl :: rest =>
      Z.to_nat (Max (Counter tl.2))
      * ((if decide (tl.1 = t /\ (i < length (hooksOf tl.2 l))%nat)
          then 1 else 0)
         + expected rest t l i)
  end.

Lemma stackIs_stp_eq m m' ts : stp m' = stp m -> stackIs m ts -> stackIs m' ts.
Proof.
  intros H (st & ? & ?). exists st. by rewrite (curStack_stp_eq _ _ H).
Qed.

Lemma stackIs_setCur m ts t v : stackIs m ts -> stackIs (setCur t v m) ts.
Proof.
  intros (st & Hst & Ho). exists (setCurStack t v st).
  rewrite curStack_setCur, Hst. done.
Qed.

Lemma setCurLoop_setCurLoop v v' lp :
  setCurLoop v (setCurLoop v' lp) = setCurLoop v lp.
Proof. reflexivity. Qed.

Lemma setCurLoop_same lp : setCurLoop (Cur (Counter lp)) lp = lp.
Proof. by destruct lp as [a b c e f [cu mx]]. Qed.

Lemma setCurStack_setCurStack t v v' (st : Stack W) :
  setCurStack t v (setCurStack t v' st) = setCurStack t v st.
Proof.
  unfold setCurStack. simpl. f_equal.
  rewrite alter_alter_eq. apply alter_ext. intros x _. reflexivity.
Qed.

Lemma setCurStepper_setCurStepper t v v' s :
  setCurStepper t v (setCurStepper t v' s) = setCurStepper t v s.
Proof.
  unfold setCurStepper, set_LoopsOf. simpl. f_equal. f_equal.
  rewrite alter_alter_eq. apply alter_ext. intros x _. simpl.
  apply setCurStack_setCurStack.
Qed.

Lemma setCurStack_same t (st : Stack W) lp :
  Loops st !! t = Some lp -> setCurStack t (Cur (Counter lp)) st = st.
Proof.
  intros H. destruct st as [o ls]. unfold setCurStack. simpl in *. f_equal.
  apply alter_id. intros x Hx. rewrite H in Hx. injection Hx as <-.
  apply setCurLoop_same.
Qed.

Lemma setCur_same t m lp :
  getLoop t m = Some lp -> stp (setCur t (Cur (Counter lp)) m) = stp m.
Proof.
  unfold getLoop, curStack. intros H.
  destruct m as [[a b c e [sts] g h i] w tr]. simpl in *.
  unfold setCurStepper, set_LoopsOf. simpl. f_equal. f_equal.
  apply alter_id. intros st Hst. rewrite Hst in H. simpl in H.
  by apply (setCurStack_same t st lp).
Qed.

Lemma stp_setCur_setCur t v v' m :
  stp (setCur t v (setCur t v' m)) = stp (setCur t v m).
Proof. simpl. apply setCurStepper_setCurStepper. Qed.

Lemma stp_setCur_congr t v m m' :
  stp m' = stp m -> stp (setCur t v m') = stp (setCur t v m).
Proof. simpl. by intros ->. Qed.

End Bounded.

(** ** The calls to one hook list, in the order they happen *)

(** Is [e] a call to a function of the list [l] of time scale [t]? *)
Definition fromList (t : Times) (l : HookList) (e : Event) : bool :=
  match e with
  | Called t' l' _ => bool_decide (t' = t /\ l' = l)
  | Tested _ _ _ => false
  end.

(** The part of the trace [tr] made of the calls to list [l] of [t]. *)
Definition subTrace (t : Times) (l : HookList) (tr : list Event)
    : list Event :=
  List.filter (fromList t l) tr.

Section Expected.

Context {W : Type}.
Implicit Types (lp : LoopStructure W) (lvls : list (Times * LoopStructure W)).

(** The calls of one iteration of the level [(t0, lp)] to list [l] of [t],
    before and after the run of the inner levels. *)
Definition ownBefore (t0 : Times) lp (t : Times) (l : HookList)
    : list Event :=
  if decide (t0 = t) then
    match l with
    | OnStartL => calls t OnStartL (OnStart lp)
    | _ => []
    end
  else [].

Definition ownAfter (t0 : Times) lp (t : Times) (l : HookList)
    : list Event :=
  if decide (t0 = t) then
    match l with
    | MainL => calls t MainL (Main lp)
    | OnEndL => calls t OnEndL (OnEnd lp)
    | _ => []
    end
  else [].

(** The calls to the plain list [l] of [t] in a full run of the nested levels
    [lvls], when no termination function fires. *)
Fixpoint expectedTrace lvls (t : Times) (l : HookList) : list Event :=
  match lvls with
  | [] => []
  | tl :: rest =>
      concat (replicate (Z.to_nat (Max (Counter tl.2)))
                (ownBefore tl.1 tl.2 t l ++ expectedTrace rest t l
                 ++ ownAfter tl.1 tl.2 t l))
  end.

Lemma subTrace_app t l tr1 tr2 :
  subTrace t l (tr1 ++ tr2) = subTrace t l tr1 ++ subTrace t l tr2.
Proof. apply List.filter_app. Qed.

Lemma subTrace_none t l tr :
  (forall e, In e tr -> fromList t l e = false) -> subTrace t l tr = [].
Proof.
  induction tr as [|e tr IH]; intros H; [done|]. unfold subTrace in *.
  cbn [List.filter]. rewrite (H e (or_introl eq_refl)).
  apply IH. intros e' He'. apply H. by right.
Qed.

Lemma subTrace_all t l tr :
  (forall e, In e tr -> fromList t l e = true) -> subTrace t l tr = tr.
Proof.
  induction tr as [|e tr IH]; intros H; [done|]. unfold subTrace in *.
  cbn [List.filter]. rewrite (H e (or_introl eq_refl)). f_equal.
  apply IH. intros e' He'. apply H. by right.
Qed.

Lemma subTrace_calls t l t' l' (fs : list (NamedFunc W)) :
  subTrace t l (calls t' l' fs)
  = if decide (t' = t /\ l' = l) then calls t' l' fs else [].
Proof.
  destruct (decide (t' = t /\ l' = l)) as [Heq|Hne].
  - apply subTrace_all. intros e Hin.
    apply in_calls in Hin as (j & _ & ->). cbn. by apply bool_decide_eq_true.
  - apply subTrace_none. intros e Hin.
    apply in_calls in Hin as (j & _ & ->). cbn. by apply bool_decide_eq_false.
Qed.

Lemma subTrace_phase t l ev :
  plain l = true -> Forall phaseEvent ev -> subTrace t l ev = [].
Proof.
  intros Hl Hev. apply subTrace_none. intros e Hin.
  rewrite Forall_forall in Hev.
  pose proof (Hev e (proj2 (list_elem_of_In _ _) Hin)) as He.
  destruct e as [t' l' i|]; [|done]. cbn in *.
  apply bool_decide_eq_false. intros [_ ->]. congruence.
Qed.

Lemma subTrace_tested t l t0 ev :
  Forall (fun e => exists name r, e = Tested t0 name r) ev ->
  subTrace t l ev = [].
Proof.
  intros Hev. apply subTrace_none. intros e Hin.
  rewrite Forall_forall in Hev.
  destruct (Hev e (proj2 (list_elem_of_In _ _) Hin)) as (n & r & ->). done.
Qed.

(** The calls of one iteration to its own lists, around the inner calls. *)
Lemma subTrace_pass t0 lp t l pe evi te :
  plain l = true -> Forall phaseEvent pe ->
  Forall (fun e => exists name r, e = Tested t0 name r) te ->
  subTrace t l (calls t0 OnStartL (OnStart lp) ++ pe ++ evi
                ++ calls t0 MainL (Main lp) ++ calls t0 OnEndL (OnEnd lp)
                ++ te)
  = ownBefore t0 lp t l ++ subTrace t l evi ++ ownAfter t0 lp t l.
Proof.
  intros Hl Hpe Hte. rewrite !subTrace_app, !subTrace_calls.
  rewrite (subTrace_phase t l pe Hl Hpe), (subTrace_tested t l t0 te Hte).
  unfold ownBefore, ownAfter.
  destruct (decide (t0 = t)) as [->|Hne].
  - destruct l; try discriminate;
      repeat (destruct (decide _) as [[? ?]|?]; try congruence; try tauto);
      rewrite ?app_nil_r; reflexivity.
  - repeat (destruct (decide _) as [[? ?]|?]; try congruence).
    by rewrite !app_nil_r.
Qed.

End Expected.

Section BoundedRun.

Context {W : Type}.
Variable rangeOrder : gmap string (Pred W) -> list (string * Pred W).
Hypothesis rangeOrder_perm : forall ps, rangeOrder ps ≡ₚ map_to_list ps.
Implicit Types (m : Machine W) (lp : LoopStructure W) (t : Times)
  (lvls : list (Times * LoopStructure W)).

(** An event of a termination function of time scale [t]. *)
Definition testedAt t (e : Event) : Prop := exists name r, e = Tested t name r.

Lemma fired_testDone t ps : forall m,
  exists ev, fired (testDone t ps m).2 = fired m ++ ev
             /\ Forall (testedAt t) ev.
Proof.
  induction ps as [|[name p] rest IH]; intros m; cbn [testDone].
  - exists []. by rewrite app_nil_r.
  - destruct (p (world m)) as [r w'] eqn:Hp.
    set (m' := mkMachine (stp m) w' (fired m ++ [Tested t name r])).
    assert (Ht : testedAt t (Tested t name r)) by (by exists name, r).
    destruct r; cbn [snd].
    + exists [Tested t name true]. split; [done|]. by apply Forall_singleton.
    + destruct (IH m') as (ev & -> & Hev).
      exists (Tested t name false :: ev). unfold m'. cbn [fired].
      rewrite <- app_assoc. split; [done|]. by apply Forall_cons.
Qed.

Lemma testDone_quiet t ps : forall m,
  (forall name p w, In (name, p) ps -> (p w).1 = false) ->
  (testDone t ps m).1 = false.
Proof.
  induction ps as [|[name p] rest IH]; intros m Hq; cbn [testDone]; [done|].
  pose proof (Hq name p (world m) (or_introl eq_refl)) as Hp.
  destruct (p (world m)) as [r w'] eqn:Hpw. cbn [fst] in Hp. subst r.
  apply IH. intros n q w Hin. apply (Hq n q w). by right.
Qed.

Lemma loopTail_quiet t lp m :
  quiet (t, lp) -> (testDone t (rangeOrder (IsDone lp)) m).1 = false.
Proof.
  intros Hq. apply testDone_quiet. intros name p w Hin.
  apply (Hq name p w). cbn [snd].
  apply list_elem_of_In in Hin. rewrite rangeOrder_perm in Hin.
  by apply elem_of_map_to_list in Hin.
Qed.

(** The calls of one iteration of a level to its own three hook lists. *)
Lemma timesFired_own t lp t' l i :
  plain l = true ->
  (timesFired (Called t' l i) (calls t OnStartL (OnStart lp))
   + timesFired (Called t' l i) (calls t MainL (Main lp))
   + timesFired (Called t' l i) (calls t OnEndL (OnEnd lp)))%nat
  = if decide (t = t' /\ (i < length (hooksOf lp l))%nat) then 1%nat
    else 0%nat.
Proof.
  intros Hl. destruct (decide (t = t')) as [<-|Hne].
  - destruct l; try discriminate; cbn [hooksOf];
      rewrite timesFired_calls;
      rewrite !timesFired_calls_other by congruence;
      repeat destruct (decide _); try lia; tauto.
  - rewrite !timesFired_calls_other by congruence.
    destruct (decide _); [tauto|done].
Qed.

Lemma timesFired_called_tested t' l i t ev :
  Forall (testedAt t) ev -> timesFired (Called t' l i) ev = 0%nat.
Proof.
  intros Hev. apply timesFired_not_in. intros Hin.
  rewrite Forall_forall in Hev.
  destruct (Hev _ (proj2 (list_elem_of_In _ _) Hin)) as (n & r & H).
  discriminate.
Qed.

(** What a full run of the levels [lvls], entered at depth [d], does. *)
Definition runsToEnd lvls (d : nat) : Prop :=
  forall m ts,
    stackIs m ts -> NoDup ts -> drop d ts = lvls.*1 ->
    atRest m lvls -> Forall bounded lvls -> unarmed m lvls.*1 ->
    forall fuel, (fuelFor lvls <= fuel)%nat ->
    exists m' ev,
      runLevel rangeOrder fuel d m = Done (true, m')
      /\ stp m' = stp m
      /\ fired m' = fired m ++ ev
      /\ Forall (fun e => eventTime e ∈ lvls.*1) ev
      /\ (Forall quiet lvls -> forall t l i, plain l = true ->
            timesFired (Called t l i) ev = expected lvls t l i)
      /\ (Forall quiet lvls -> forall t l, plain l = true ->
            subTrace t l ev = expectedTrace lvls t l).

Lemma atRest_stp_eq m m' lvls :
  stp m' = stp m -> atRest m lvls -> atRest m' lvls.
Proof.
  intros H Hr. unfold atRest in *. eapply Forall_impl; [exact Hr|].
  intros [t lp] [? ?]. by rewrite (getLoop_stp_eq _ _ _ H).
Qed.

Lemma atRest_setCur m lvls t v :
  t ∉ lvls.*1 -> atRest m lvls -> atRest (setCur t v m) lvls.
Proof.
  intros Hni Hr. unfold atRest in *. rewrite Forall_forall in *.
  intros [t' lp] Hin. destruct (Hr _ Hin) as [Hg Hc]. cbn [fst snd] in *.
  split; [|done]. rewrite getLoop_setCur_ne; [done|].
  intros ->. apply Hni. apply list_elem_of_fmap. by exists (t', lp).
Qed.

Lemma eventTime_calls t l (fs : list (NamedFunc W)) (ts : list Times) :
  t ∈ ts -> Forall (fun e => eventTime e ∈ ts) (calls t l fs).
Proof.
  intros Ht. apply Forall_forall. intros e Hin.
  apply list_elem_of_In, in_calls in Hin as (j & _ & ->). exact Ht.
Qed.

Lemma eventTime_tested t ev (ts : list Times) :
  t ∈ ts -> Forall (testedAt t) ev -> Forall (fun e => eventTime e ∈ ts) ev.
Proof.
  intros Ht Hev. eapply Forall_impl; [exact Hev|].
  intros e (n & r & ->). exact Ht.
Qed.

Lemma eventTime_phaseLoop t cur phases (ts : list Times) : forall p amount m,
  t ∈ ts ->
  exists ev, fired (phaseLoop t cur p amount phases m) = fired m ++ ev
             /\ Forall phaseEvent ev
             /\ Forall (fun e => eventTime e ∈ ts) ev.
Proof.
  induction phases as [|ph rest IH]; intros p amount m Ht; cbn [phaseLoop].
  - exists []. by rewrite app_nil_r.
  - unfold phaseStep.
    set (a := wrap64 (amount + Duration ph)).
    match goal with |- context [phaseLoop t cur (S p) a rest ?mm] =>
      destruct (IH (S p) a mm Ht) as (ev2 & -> & Hp2 & Ht2) end.
    exists ((if cur =? wrap64 (a - Duration ph)
             then calls t (PhaseStartL p) (PhaseStart ph) else [])
            ++ (if cur <? a
                then calls t (OnMillisecondEndL p) (OnMillisecondEnd ph)
                else [])
            ++ (if cur =? wrap64 (a - 1)
                then calls t (PhaseEndL p) (PhaseEnd ph) else [])
            ++ ev2).
    split; [|split].
    + destruct (cur =? wrap64 (a - Duration ph)), (cur <? a),
        (cur =? wrap64 (a - 1)); cbn [fired callAll]; fold (@calls W);
        rewrite <- ?app_assoc, ?app_nil_r; reflexivity.
    + rewrite !Forall_app.
      destruct (cur =? wrap64 (a - Duration ph)), (cur <? a),
        (cur =? wrap64 (a - 1));
        repeat split; try (by apply phaseEvent_calls);
        try apply Forall_nil_2; done.
    + rewrite !Forall_app.
      destruct (cur =? wrap64 (a - Duration ph)), (cur <? a),
        (cur =? wrap64 (a - 1));
        repeat split; try (by apply eventTime_calls);
        try apply Forall_nil_2; done.
Qed.

(** The loop of one bounded level over levels that run to their end: from
    counter value [c], with [j] iterations left. *)
Lemma loop_bounded t lp rest d ts :
  runsToEnd rest (S d) ->
  NoDup ts -> drop (S d) ts = rest.*1 -> t ∉ rest.*1 ->
  bounded (t, lp) -> Forall bounded rest ->
  forall (j : nat) m c,
    stackIs m ts -> getLoop t m = Some (setCurLoop c lp) ->
    0 <= c -> c + Z.of_nat j = Max (Counter lp) ->
    atRest m rest -> unarmed m (t :: rest.*1) ->
    forall fuel, (fuelFor rest + j + 1 <= fuel)%nat ->
    exists m' ev,
      forLoop rangeOrder fuel d t m = Done (true, m')
      /\ stp m' = stp (setCur t 0 m)
      /\ fired m' = fired m ++ ev
      /\ Forall (fun e => eventTime e ∈ t :: rest.*1) ev
      /\ (quiet (t, lp) -> Forall quiet rest ->
          forall t' l i, plain l = true ->
            timesFired (Called t' l i) ev
            = (j * ((if decide (t = t' /\ (i < length (hooksOf lp l))%nat)
                     then 1 else 0)
                    + expected rest t' l i))%nat)
      /\ (quiet (t, lp) -> Forall quiet rest ->
          forall t' l, plain l = true ->
            subTrace t' l ev
            = concat (replicate j (ownBefore t lp t' l
                                   ++ expectedTrace rest t' l
                                   ++ ownAfter t lp t' l))).
Proof.
  intros Hinner Hnd Hdrop Hni Hb Hbrest.
  unfold bounded in Hb. cbn [snd] in Hb.
  induction j as [|j IH]; intros m c Hst Hget Hc Hcj Hrest Hid fuel Hfuel.
  - destruct fuel as [|fuel]; [lia|].
    rewrite forLoop_unfold, Hget. unfold loopCond. cbn [Counter setCurLoop Cur Max].
    destruct (Z.ltb_spec c (Max (Counter lp))) as [?|_]; [lia|].
    destruct (Z.ltb_spec (Max (Counter lp)) 0) as [?|_]; [lia|].
    cbn [orb]. unfold exitLoop.
    destruct Hid as (Hi & _). rewrite Hi.
    eexists. exists []. split; [reflexivity|]. rewrite app_nil_r.
    repeat split; done.
  - destruct fuel as [|fuel]; [lia|].
    rewrite forLoop_unfold, Hget. unfold loopCond. cbn [Counter setCurLoop Cur Max].
    destruct (Z.ltb_spec c (Max (Counter lp))) as [_|?]; [|lia].
    cbn [orb]. rewrite (loopHead_unarmed d t _ m _ Hid) by (by left).
    cbn [OnStart setCurLoop].
    set (m1 := callAll t OnStartL (OnStart lp) m).
    unfold phaseLogic. cbn [Counter setCurLoop Cur Phases].
    destruct (eventTime_phaseLoop t c (Phases lp) (t :: rest.*1) 0%nat 0 m1)
      as (pe & Hpe & Hphase & Hpet); [by left|].
    set (m2 := phaseLoop t c 0 0 (Phases lp) m1) in *.
    assert (Hs2 : stp m2 = stp m) by (unfold m2; by rewrite stp_phaseLoop).
    destruct (Hinner m2 ts (stackIs_stp_eq _ _ _ Hs2 Hst) Hnd Hdrop
                (atRest_stp_eq _ _ _ Hs2 Hrest) Hbrest
                (unarmed_tail _ t _ (unarmed_stp_eq _ _ _ Hs2 Hid))
                fuel ltac:(lia))
      as (m3 & evi & Hrun & Hs3 & Hf3 & Ht3 & Hc3 & Hp3).
    rewrite Hrun.
    assert (Hs3' : stp m3 = stp m) by (by rewrite Hs3).
    rewrite (getLoop_stp_eq t m m3 Hs3'), Hget.
    unfold loopTail. cbn [Main OnEnd IsDone Counter Cur setCurLoop].
    set (m4 := callAll t OnEndL (OnEnd lp) (callAll t MainL (Main lp) m3)).
    destruct (fired_testDone t (rangeOrder (IsDone lp)) m4) as (te & Hte & Htt).
    destruct (testDone t (rangeOrder (IsDone lp)) m4) as [r m5] eqn:Htd.
    cbn [snd] in Hte.
    assert (Hs5 : stp m5 = stp m).
    { change m5 with (r, m5).2. rewrite <- Htd, stp_testDone. done. }
    assert (Hf5 : fired m5 = fired m ++ calls t OnStartL (OnStart lp) ++ pe
                    ++ evi ++ calls t MainL (Main lp)
                    ++ calls t OnEndL (OnEnd lp) ++ te).
    { rewrite Hte. unfold m4. rewrite !fired_callAll, Hf3, Hpe. unfold m1.
      rewrite fired_callAll, <- !app_assoc. reflexivity. }
    assert (Htimes : Forall (fun e => eventTime e ∈ t :: rest.*1)
              (calls t OnStartL (OnStart lp) ++ pe ++ evi
               ++ calls t MainL (Main lp) ++ calls t OnEndL (OnEnd lp) ++ te)).
    { rewrite !Forall_app. repeat split;
        try (apply eventTime_calls; by left); try done.
      - eapply Forall_impl; [exact Ht3|]. intros e He. by right.
      - eapply eventTime_tested; [|exact Htt]. by left. }
    assert (Hcount : Forall quiet rest -> forall t' l i, plain l = true ->
              timesFired (Called t' l i)
                (calls t OnStartL (OnStart lp) ++ pe ++ evi
                 ++ calls t MainL (Main lp) ++ calls t OnEndL (OnEnd lp) ++ te)
              = ((if decide (t = t' /\ (i < length (hooksOf lp l))%nat)
                  then 1 else 0) + expected rest t' l i)%nat).
    { intros Hq t' l i Hl. rewrite !timesFired_app.
      rewrite (timesFired_phase _ pe Hphase) by (simpl; congruence).
      rewrite (timesFired_called_tested t' l i t te Htt).
      rewrite (Hc3 Hq t' l i Hl).
      rewrite <- (timesFired_own t lp t' l i Hl). lia. }
    assert (Hproj : Forall quiet rest -> forall t' l, plain l = true ->
              subTrace t' l
                (calls t OnStartL (OnStart lp) ++ pe ++ evi
                 ++ calls t MainL (Main lp) ++ calls t OnEndL (OnEnd lp) ++ te)
              = ownBefore t lp t' l ++ expectedTrace rest t' l
                ++ ownAfter t lp t' l).
    { intros Hq t' l Hl.
      rewrite (subTrace_pass t lp t' l pe evi te Hl Hphase Htt).
      by rewrite (Hp3 Hq t' l Hl). }
    destruct r.
    + unfold exitLoop.
      assert (Hi : internalStop (stp (setCur t 0 m5)) = false).
      { cbn. rewrite Hs5. by destruct Hid as (Hi & _). }
      rewrite Hi.
      eexists. eexists. split; [reflexivity|].
      split; [|split; [|split; [|split]]].
      * rewrite stp_setCur_setCur. by apply stp_setCur_congr.
      * cbn [fired setCur on_stp]. exact Hf5.
      * exact Htimes.
      * intros Hq _. exfalso.
        pose proof (loopTail_quiet t lp m4 Hq) as Hfalse.
        rewrite Htd in Hfalse. discriminate.
      * intros Hq _. exfalso.
        pose proof (loopTail_quiet t lp m4 Hq) as Hfalse.
        rewrite Htd in Hfalse. discriminate.
    + rewrite wrap64_id by (unfold int_ok; lia).
      set (m6 := setCur t (c + 1) m5).
      destruct (IH m6 (c + 1)) with (fuel := fuel)
        as (m' & ev & Hfor & Hs' & Hf' & Ht' & Hc' & Hp').
      * apply stackIs_setCur. by apply (stackIs_stp_eq m).
      * unfold m6. rewrite getLoop_setCur_eq.
        rewrite (getLoop_stp_eq t m m5 Hs5), Hget. reflexivity.
      * lia.
      * lia.
      * apply atRest_setCur; [done|]. by apply (atRest_stp_eq m).
      * apply unarmed_setCur. by apply (unarmed_stp_eq m).
      * lia.
      * exists m'.
        exists ((calls t OnStartL (OnStart lp) ++ pe ++ evi
                 ++ calls t MainL (Main lp) ++ calls t OnEndL (OnEnd lp) ++ te)
                ++ ev).
        split; [exact Hfor|]. split; [|split; [|split; [|split]]].
        -- rewrite Hs'. unfold m6. rewrite stp_setCur_setCur.
           by apply stp_setCur_congr.
        -- rewrite Hf'. unfold m6. cbn [fired setCur on_stp].
           rewrite Hf5. by rewrite <- (app_assoc (fired m)).
        -- apply Forall_app. split; [exact Htimes|exact Ht'].
        -- intros Hq Hqr t' l i Hl. rewrite timesFired_app.
           rewrite (Hcount Hqr t' l i Hl), (Hc' Hq Hqr t' l i Hl). lia.
        -- intros Hq Hqr t' l Hl. rewrite subTrace_app.
           rewrite (Hproj Hqr t' l Hl), (Hp' Hq Hqr t' l Hl).
           cbn [replicate concat]. reflexivity.
Qed.

Lemma stackIs_levelIs m ts d t lp :
  stackIs m ts -> ts !! d = Some t -> getLoop t m = Some lp ->
  levelIs m d t lp.
Proof.
  intros (st & Hst & <-) Hd Hget. exists st.
  unfold getLoop in Hget. rewrite Hst in Hget. auto.
Qed.

(** Bounded levels at rest, run by a stepper with nothing armed for them,
    run to their end and leave the stepper as it was. *)
Lemma run_bounded : forall lvls d, runsToEnd lvls d.
Proof.
  induction lvls as [|[t lp] rest IH]; intros d m ts Hst Hnd Hdrop Hrest Hb Hid
    fuel Hfuel.
  - destruct fuel as [|fuel]; [simpl in Hfuel; lia|].
    destruct Hst as (st & Hst & <-).
    apply drop_nil_inv in Hdrop.
    cbn [runLevel]. rewrite Hst.
    destruct (Nat.leb_spec (length (Order st)) d) as [_|?]; [|lia].
    exists m, []. rewrite app_nil_r. repeat split; done.
  - cbn [fmap list_fmap fst] in Hdrop.
    assert (Hd : ts !! d = Some t).
    { rewrite <- (Nat.add_0_r d), <- lookup_drop, Hdrop. done. }
    assert (Hdrop' : drop (S d) ts = rest.*1).
    { rewrite (drop_S ts t d Hd) in Hdrop. by injection Hdrop. }
    assert (Hni : t ∉ rest.*1).
    { assert (Hnd' : NoDup (drop d ts))
        by (eapply sublist_NoDup; [exact Hnd|apply sublist_drop]).
      rewrite Hdrop in Hnd'. by apply NoDup_cons in Hnd' as [? _]. }
    apply Forall_cons in Hrest as [[Hget Hcur] Hrest].
    apply Forall_cons in Hb as [Hbt Hb]. cbn [fst snd] in *.
    cbn [fuelFor snd] in Hfuel.
    destruct fuel as [|fuel]; [lia|].
    rewrite (runLevel_enter rangeOrder fuel m d t lp
               (stackIs_levelIs m ts d t lp Hst Hd Hget)).
    assert (Hget0 : getLoop t m = Some (setCurLoop 0 lp)).
    { rewrite Hget. f_equal. rewrite <- Hcur. symmetry. apply setCurLoop_same. }
    unfold bounded in Hbt. cbn [snd] in Hbt.
    destruct (loop_bounded t lp rest d ts (IH (S d)) Hnd Hdrop' Hni Hbt Hb
                (Z.to_nat (Max (Counter lp))) m 0 Hst Hget0 ltac:(lia)
                ltac:(lia) Hrest Hid fuel ltac:(lia))
      as (m' & ev & Hfor & Hs' & Hf' & Ht' & Hc' & Hp').
    exists m', ev. split; [exact Hfor|]. split; [|split; [|split; [|split]]].
    + rewrite Hs'. rewrite <- Hcur. by apply setCur_same.
    + exact Hf'.
    + exact Ht'.
    + intros Hq t' l i Hl. apply Forall_cons in Hq as [Hqt Hq].
      rewrite (Hc' Hqt Hq t' l i Hl). cbn [expected fst snd]. reflexivity.
    + intros Hq t' l Hl. apply Forall_cons in Hq as [Hqt Hq].
      rewrite (Hp' Hqt Hq t' l Hl). cbn [expectedTrace fst snd]. reflexivity.
Qed.

End BoundedRun.

(** ** Iteration counts as products *)

Section Products.

Context {W : Type}.
Implicit Types (lp : LoopStructure W) (lvls : list (Times * LoopStructure W))
  (t : Times).

(** The product of the maxima of the levels [lvls]: the number of iterations
    of the innermost of them in a full run in which no termination function
    fires. *)
Fixpoint iterations lvls : nat :=
  match lvls with
  | [] => 1
  | tl :: rest => Z.to_nat (Max (Counter tl.2)) * iterations rest
  end.

Lemma concat_replicate_nil (A : Type) (n : nat) :
  concat (replicate n (@nil A)) = [].
Proof. induction n as [|n IH]; [done|]. cbn [replicate concat]. by rewrite IH. Qed.

Lemma concat_replicate_add (A : Type) (a b : nat) (x : list A) :
  concat (replicate (a + b) x) = concat (replicate a x) ++ concat (replicate b x).
Proof.
  induction a as [|a IH]; [done|]. cbn [Nat.add replicate concat].
  by rewrite IH, app_assoc.
Qed.

Lemma concat_replicate_mul (A : Type) (a b : nat) (x : list A) :
  concat (replicate a (concat (replicate b x))) = concat (replicate (a * b) x).
Proof.
  induction a as [|a IH]; [done|]. cbn [Nat.mul replicate concat].
  by rewrite IH, concat_replicate_add.
Qed.

Lemma expected_absent lvls t l i : t ∉ lvls.*1 -> expected lvls t l i = 0%nat.
Proof.
  induction lvls as [|[t0 lp0] rest IH]; intros Hni; [done|].
  cbn [expected fst snd]. cbn [fmap list_fmap fst] in Hni.
  apply not_elem_of_cons in Hni as [Hne Hni].
  rewrite (IH Hni). destruct (decide _) as [[? _]|_]; [congruence|lia].
Qed.

Lemma expectedTrace_absent lvls t l : t ∉ lvls.*1 -> expectedTrace lvls t l = [].
Proof.
  induction lvls as [|[t0 lp0] rest IH]; intros Hni; [done|].
  cbn [expectedTrace fst snd]. cbn [fmap list_fmap fst] in Hni.
  apply not_elem_of_cons in Hni as [Hne Hni].
  rewrite (IH Hni). unfold ownBefore, ownAfter.
  destruct (decide (t0 = t)); [congruence|]. apply concat_replicate_nil.
Qed.

Lemma own_calls t lp l :
  plain l = true ->
  ownBefore t lp t l ++ ownAfter t lp t l = calls t l (hooksOf lp l).
Proof.
  intros Hl. unfold ownBefore, ownAfter.
  destruct (decide (t = t)); [|done].
  destruct l; try discriminate; cbn [hooksOf]; by rewrite ?app_nil_r.
Qed.

(** In a run without a firing termination function, the hook of index [i] of
    a plain list of the level at depth [j] is called once for every iteration
    of that level: the product of the maxima of the levels down to it. *)
Lemma expected_product : forall lvls (j : nat) t lp l i,
  NoDup lvls.*1 -> lvls !! j = Some (t, lp) ->
  (i < length (hooksOf lp l))%nat ->
  expected lvls t l i = iterations (take (S j) lvls).
Proof.
  induction lvls as [|[t0 lp0] rest IH]; intros j t lp l i Hnd Hj Hi; [done|].
  cbn [fmap list_fmap fst] in Hnd. apply NoDup_cons in Hnd as [Hni Hnd].
  cbn [expected take iterations fst snd].
  destruct j as [|j]; cbn in Hj.
  - injection Hj as -> ->. rewrite (expected_absent rest t l i Hni).
    destruct (decide _) as [_|Hn]; [|tauto].
    replace (take 0 rest) with (@nil (Times * LoopStructure W))
      by (by destruct rest).
    cbn [iterations]. lia.
  - rewrite (IH j t lp l i Hnd Hj Hi).
    destruct (decide _) as [[-> _]|_]; [|lia].
    exfalso. apply Hni. apply list_elem_of_fmap. exists (t, lp).
    split; [done|]. by apply list_elem_of_lookup_2 in Hj.
Qed.

Lemma expectedTrace_product : forall lvls (j : nat) t lp l,
  NoDup lvls.*1 -> lvls !! j = Some (t, lp) -> plain l = true ->
  expectedTrace lvls t l
  = concat (replicate (iterations (take (S j) lvls)) (calls t l (hooksOf lp l))).
Proof.
  induction lvls as [|[t0 lp0] rest IH]; intros j t lp l Hnd Hj Hl; [done|].
  cbn [fmap list_fmap fst] in Hnd. apply NoDup_cons in Hnd as [Hni Hnd].
  cbn [expectedTrace take iterations fst snd].
  destruct j as [|j]; cbn in Hj.
  - injection Hj as -> ->. rewrite (expectedTrace_absent rest t l Hni).
    cbn [app]. rewrite (own_calls t lp l Hl).
    replace (take 0 rest) with (@nil (Times * LoopStructure W))
      by (by destruct rest).
    cbn [iterations]. by rewrite Nat.mul_1_r.
  - rewrite (IH j t lp l Hnd Hj Hl).
    assert (Hne : t0 <> t).
    { intros ->. apply Hni. apply list_elem_of_fmap. exists (t, lp).
      split; [done|]. by apply list_elem_of_lookup_2 in Hj. }
    unfold ownBefore, ownAfter. destruct (decide (t0 = t)); [done|].
    cbn [app]. rewrite app_nil_r. apply concat_replicate_mul.
Qed.

End Products.

(** ** Full runs of bounded stacks *)

Section FullRun.

Context {W : Type}.
Variable rangeOrder : gmap string (Pred W) -> list (string * Pred W).
Hypothesis rangeOrder_perm : forall ps, rangeOrder ps ≡ₚ map_to_list ps.
Implicit Types (m : Machine W) (lp : LoopStructure W) (t : Times)
  (lvls : list (Times * LoopStructure W)).

(** C2, as the code has it: on a stack whose levels are all bounded, with the
    counters at 0, distinct time scales and no stop or step armed, [Run]
    ends, its call of [runLevel] returns true, and every counter is at 0
    again.  If moreover no termination function ever returns true, the calls
    to each plain hook list (OnStart, Main, OnEnd) of the level at depth [j]
    are as many copies of the list, in registration order, as the product of
    the maxima of the levels 0 to [j], so that each of its hooks is called
    that many times. *)
Theorem bounded_run_completes lvls m (fuel : nat) :
  stackIs m lvls.*1 -> NoDup lvls.*1 -> atRest m lvls ->
  Forall bounded lvls ->
  StopFlag (stp m) = false -> StopNext (stp m) = false ->
  lastStoppedLevel (stp m) = -1 ->
  (fuelFor lvls <= fuel)%nat ->
  exists m' ev,
    Run rangeOrder fuel m = Done m'
    /\ runLevel rangeOrder fuel 0 (on_stp (set_internalStop false) m)
       = Done (true, m')
    /\ atRest m' lvls
    /\ fired m' = fired m ++ ev
    /\ (Forall quiet lvls ->
        forall (j : nat) t lp l, lvls !! j = Some (t, lp) -> plain l = true ->
          subTrace t l ev
          = concat (replicate (iterations (take (S j) lvls))
                      (calls t l (hooksOf lp l)))
          /\ forall i, (i < length (hooksOf lp l))%nat ->
               timesFired (Called t l i) ev = iterations (take (S j) lvls)).
Proof.
  intros Hst Hnd Hrest Hb Hf Hn Hl Hfuel.
  set (m0 := on_stp (set_internalStop false) m).
  assert (Hg : forall t, getLoop t m0 = getLoop t m) by reflexivity.
  assert (Hst0 : stackIs m0 lvls.*1).
  { destruct Hst as (st & ? & ?). by exists st. }
  assert (Hrest0 : atRest m0 lvls).
  { unfold atRest in *. eapply Forall_impl; [exact Hrest|].
    intros [t lp] [? ?]. by rewrite Hg. }
  assert (Hid : idle m0) by (unfold idle, m0; cbn; auto).
  destruct (run_bounded rangeOrder rangeOrder_perm lvls 0%nat m0 lvls.*1
              Hst0 Hnd eq_refl Hrest0 Hb (idle_unarmed _ _ Hid) fuel Hfuel)
    as (m' & ev & Hrun & Hs' & Hf' & _ & Hc & Hp).
  exists m', ev. unfold Run. fold m0. rewrite Hrun.
  split; [done|]. split; [done|]. split; [|split].
  - by apply (atRest_stp_eq m0).
  - exact Hf'.
  - intros Hq j t lp l Hj Hpl. split.
    + rewrite (Hp Hq t l Hpl). by apply (expectedTrace_product lvls j t lp l).
    + intros i Hi. rewrite (Hc Hq t l i Hpl).
      by apply (expected_product lvls j t lp l i).
Qed.

End FullRun.

(** ** Fuel *)

Section Fuel.

Context {W : Type}.
Variable rangeOrder : gmap string (Pred W) -> list (string * Pred W).
Implicit Types (m : Machine W) (t : Times).

Lemma runLevel_unfold fuel d m :
  runLevel rangeOrder (S fuel) d m
  = match curStack m with
    | None => Panic
    | Some st =>
        if (length (Order st) <=? d)%nat then Done (true, m)
        else match Order st !! d with
             | None => Panic
             | Some time => forLoop rangeOrder fuel d time m
             end
    end.
Proof. reflexivity. Qed.

(** A run that ends with some fuel ends in the same way with more. *)
Lemma fuel_mono_both : forall fuel : nat,
  (forall d m r, runLevel rangeOrder fuel d m = Done r ->
     forall fuel' : nat, (fuel <= fuel')%nat ->
       runLevel rangeOrder fuel' d m = Done r)
  /\ (forall d t m r, forLoop rangeOrder fuel d t m = Done r ->
        forall fuel' : nat, (fuel <= fuel')%nat ->
          forLoop rangeOrder fuel' d t m = Done r).
Proof.
  induction fuel as [|fuel [IHr IHf]]; [split; intros; discriminate|].
  split.
  - intros d m r Hrun fuel' Hle.
    destruct fuel' as [|fuel']; [lia|].
    rewrite runLevel_unfold in *.
    destruct (curStack m) as [st|]; [|discriminate].
    destruct (length (Order st) <=? d)%nat; [done|].
    destruct (Order st !! d) as [time|]; [|discriminate].
    apply (IHf _ _ _ _ Hrun). lia.
  - intros d t m r Hrun fuel' Hle.
    destruct fuel' as [|fuel']; [lia|].
    rewrite forLoop_unfold in *.
    destruct (getLoop t m) as [loop|]; [|discriminate].
    destruct (loopCond (Counter loop)); [|done].
    destruct (loopHead d t loop m) as [m1|m1]; [done|].
    destruct (runLevel rangeOrder fuel (S d) (phaseLogic t loop m1))
      as [[rc m3]| |] eqn:Hin; try discriminate.
    rewrite (IHr _ _ _ Hin fuel') by lia.
    destruct rc.
    + destruct (getLoop t m3) as [loop3|]; [|discriminate].
      destruct (loopTail rangeOrder t loop3 m3) as [out m4].
      destruct out; [done|]. apply (IHf _ _ _ _ Hrun). lia.
    + apply (IHf _ _ _ _ Hrun). lia.
Qed.

Lemma runLevel_fuel_mono (fuel fuel' : nat) d m r :
  runLevel rangeOrder fuel d m = Done r -> (fuel <= fuel')%nat ->
  runLevel rangeOrder fuel' d m = Done r.
Proof. intros H Hle. by apply (proj1 (fuel_mono_both fuel) d m r H). Qed.

Lemma Run_fuel_mono (fuel fuel' : nat) m m' :
  Run rangeOrder fuel m = Done m' -> (fuel <= fuel')%nat ->
  Run rangeOrder fuel' m = Done m'.
Proof.
  unfold Run. intros H Hle.
  destruct (runLevel rangeOrder fuel 0 (on_stp (set_internalStop false) m))
    as [[b m1]| |] eqn:Hrun; try discriminate.
  by rewrite (runLevel_fuel_mono fuel fuel' _ _ _ Hrun Hle).
Qed.

End Fuel.

(** ** A termination function that cuts a level short *)

Section LevelCut.

Context {W : Type}.
Variable rangeOrder : gmap string (Pred W) -> list (string * Pred W).
Hypothesis rangeOrder_perm : forall ps, rangeOrder ps ≡ₚ map_to_list ps.

(** The level of time scale [t], at depth [d] of the order [ts], over the
    bounded inner levels [rest]; its loop is [lp], with the single
    termination function [p], registered as [name]. *)
Variables (d : nat) (t : Times) (name : string) (p : Pred W).
Variables (rest : list (Times * LoopStructure W)) (ts : list Times).
Variable lp : LoopStructure W.
Hypothesis ts_distinct : NoDup ts.
Hypothesis ts_level : ts !! d = Some t.
Hypothesis ts_inner : drop (S d) ts = rest.*1.
Hypothesis rest_bounded : Forall bounded rest.
Hypothesis one_predicate : IsDone lp = {[name := p]}.
Implicit Types (m : Machine W).

(** One iteration of the level: its start hooks and phases, the run of the
    inner levels, its end hooks, then [p]; the counter is not yet changed. *)
Definition passAt m : bool * Machine W :=
  match getLoop t m with
  | None => (false, m)
  | Some lpc =>
      match runLevel rangeOrder (fuelFor rest) (S d)
              (phaseLogic t lpc (callAll t OnStartL (OnStart lpc) m)) with
      | Done (_, m3) =>
          testDone t [(name, p)]
            (callAll t OnEndL (OnEnd lpc) (callAll t MainL (Main lpc) m3))
      | _ => (false, m)
      end
  end.

(** The machine at the start of the next iteration, when [p] said no. *)
Definition nextAt m : Machine W :=
  match getLoop t m with
  | None => m
  | Some lpc => setCur t (wrap64 (Cur (Counter lpc) + 1)) (passAt m).2
  end.

Fixpoint iterAt (k : nat) m : Machine W :=
  match k with
  | O => m
  | S k' => iterAt k' (nextAt m)
  end.

(** The level is about to start the iteration of counter value [c], on an
    idle stepper, with the inner levels at rest. *)
Definition ready m (c : Z) : Prop :=
  stackIs m ts /\ getLoop t m = Some (setCurLoop c lp)
  /\ atRest m rest /\ idle m.

Lemma rangeOrder_one : rangeOrder {[name := p]} = [(name, p)].
Proof.
  pose proof (rangeOrder_perm {[name := p]}) as H.
  rewrite map_to_list_singleton in H.
  by apply Permutation_singleton_r in H.
Qed.

Lemma level_not_inner : t ∉ rest.*1.
Proof.
  assert (Hnd' : NoDup (drop d ts))
    by (eapply sublist_NoDup; [exact ts_distinct|apply sublist_drop]).
  rewrite (drop_S ts t d ts_level), ts_inner in Hnd'.
  by apply NoDup_cons in Hnd' as [? _].
Qed.

Lemma timesFired_other_time e ev (A : list Times) :
  Forall (fun e => eventTime e ∈ A) ev -> eventTime e ∉ A ->
  timesFired e ev = 0%nat.
Proof.
  intros Hev He. apply timesFired_not_in. intros Hin.
  rewrite Forall_forall in Hev.
  apply He, Hev, list_elem_of_In, Hin.
Qed.

(** The run of the inner levels inside one iteration. *)
Lemma inner_run m c :
  ready m c ->
  exists m3 evi,
    (forall fuel : nat, (fuelFor rest <= fuel)%nat ->
       runLevel rangeOrder fuel (S d)
         (phaseLogic t (setCurLoop c lp) (callAll t OnStartL (OnStart lp) m))
       = Done (true, m3))
    /\ stp m3 = stp m
    /\ fired m3
       = fired (phaseLogic t (setCurLoop c lp)
                  (callAll t OnStartL (OnStart lp) m)) ++ evi
    /\ Forall (fun e => eventTime e ∈ rest.*1) evi.
Proof.
  intros (Hst & Hget & Hrest & Hid).
  set (m2 := phaseLogic t (setCurLoop c lp) (callAll t OnStartL (OnStart lp) m)).
  assert (Hs2 : stp m2 = stp m) by (unfold m2; by rewrite stp_phaseLogic).
  destruct (run_bounded rangeOrder rangeOrder_perm rest (S d) m2 ts
              (stackIs_stp_eq _ _ _ Hs2 Hst) ts_distinct ts_inner
              (atRest_stp_eq _ _ _ Hs2 Hrest) rest_bounded
              (idle_unarmed _ _ (idle_stp_eq _ _ Hs2 Hid))
              (fuelFor rest) ltac:(lia))
    as (m3 & evi & Hrun & Hs3 & Hf3 & Ht3 & _).
  exists m3, evi. split; [|split; [|split]]; try done.
  - intros fuel Hfuel. by apply (runLevel_fuel_mono rangeOrder (fuelFor rest)).
  - by rewrite Hs3.
Qed.

Lemma passAt_spec m c :
  ready m c ->
  stp (passAt m).2 = stp m
  /\ exists ev,
       fired (passAt m).2 = fired m ++ ev
       /\ (forall l i, plain l = true ->
             timesFired (Called t l i) ev
             = if decide (i < length (hooksOf lp l))%nat then 1%nat else 0%nat)
       /\ (forall b, timesFired (Tested t name b) ev
                     = if decide (b = (passAt m).1) then 1%nat else 0%nat).
Proof.
  intros Hready. destruct (inner_run m c Hready) as (m3 & evi & Hrun & Hs3 & Hf3 & Ht3).
  destruct Hready as (Hst & Hget & Hrest & Hid).
  unfold passAt. rewrite Hget. cbn [OnStart Main OnEnd setCurLoop].
  rewrite (Hrun (fuelFor rest)) by lia.
  set (m1 := callAll t OnStartL (OnStart lp) m) in *.
  destruct (fired_phaseLogic t (setCurLoop c lp) m1) as (pe & Hpe & Hphase).
  rewrite Hpe in Hf3.
  set (m4 := callAll t OnEndL (OnEnd lp) (callAll t MainL (Main lp) m3)).
  assert (H4 : fired m4 = fired m ++ calls t OnStartL (OnStart lp) ++ pe ++ evi
                 ++ calls t MainL (Main lp) ++ calls t OnEndL (OnEnd lp)).
  { unfold m4. rewrite !fired_callAll, Hf3. unfold m1.
    rewrite fired_callAll, <- !app_assoc. reflexivity. }
  cbn [testDone]. destruct (p (world m4)) as [r w'] eqn:Hp.
  assert (Hres : forall (X : bool * Machine W),
            X = (r, mkMachine (stp m4) w' (fired m4 ++ [Tested t name r])) ->
            stp X.2 = stp m4
            /\ fired X.2 = fired m4 ++ [Tested t name r] /\ X.1 = r).
  { intros X ->. done. }
  match goal with |- context [stp (?X).2] =>
    destruct (Hres X) as (Hs & Hf & Hr); [by destruct r|] end.
  split; [by rewrite Hs|].
  exists (calls t OnStartL (OnStart lp) ++ pe ++ evi ++ calls t MainL (Main lp)
          ++ calls t OnEndL (OnEnd lp) ++ [Tested t name r]).
  split; [|split].
  - rewrite Hf, H4, <- !app_assoc. reflexivity.
  - intros l i Hl. rewrite !timesFired_app.
    rewrite (timesFired_phase _ pe Hphase) by (simpl; congruence).
    rewrite (timesFired_other_time _ evi _ Ht3) by (cbn; apply level_not_inner).
    assert (Ht : timesFired (Called t l i) [Tested t name r] = 0%nat).
    { apply timesFired_not_in. intros [H|[]]. discriminate. }
    rewrite Ht.
    destruct l; try discriminate; cbn [hooksOf];
      rewrite ?timesFired_calls;
      rewrite ?timesFired_calls_other by congruence; lia.
  - intros b. rewrite Hr, !timesFired_app, !timesFired_tested_calls.
    rewrite (timesFired_phase _ pe Hphase) by (simpl; tauto).
    rewrite (timesFired_other_time _ evi _ Ht3) by (cbn; apply level_not_inner).
    assert (Hc : timesFired (Tested t name b) [Tested t name r]
                 = if decide (b = r) then 1%nat else 0%nat).
    { unfold timesFired. destruct (decide (b = r)) as [->|Hne].
      - by rewrite count_occ_cons_eq.
      - by rewrite count_occ_cons_neq by congruence. }
    rewrite Hc. destruct (decide (b = r)); lia.
Qed.

Lemma stp_passAt m c : ready m c -> stp (passAt m).2 = stp m.
Proof. intros H. apply (passAt_spec m c H). Qed.

Lemma ready_next m c :
  ready m c -> - 2 ^ 63 <= c -> c + 1 < 2 ^ 63 -> ready (nextAt m) (c + 1).
Proof.
  intros Hready Hlo Hhi. pose proof (stp_passAt m c Hready) as Hs.
  destruct Hready as (Hst & Hget & Hrest & Hid).
  unfold nextAt. rewrite Hget. cbn [Counter Cur setCurLoop].
  rewrite wrap64_id by (unfold int_ok; lia).
  split; [|split; [|split]].
  - apply stackIs_setCur. by apply (stackIs_stp_eq m).
  - rewrite getLoop_setCur_eq, (getLoop_stp_eq t m _ Hs), Hget. reflexivity.
  - apply atRest_setCur; [apply level_not_inner|]. by apply (atRest_stp_eq m).
  - apply idle_setCur. by apply (idle_stp_eq m).
Qed.

Lemma ready_iterAt : forall (n : nat) m c,
  ready m c -> - 2 ^ 63 <= c -> c + Z.of_nat n < 2 ^ 63 ->
  ready (iterAt n m) (c + Z.of_nat n).
Proof.
  induction n as [|n IH]; intros m c Hready Hlo Hhi; cbn [iterAt].
  - by rewrite Z.add_0_r.
  - replace (c + Z.of_nat (S n)) with (c + 1 + Z.of_nat n) by lia.
    apply IH; [apply ready_next; [done|lia..]|lia..].
Qed.

Lemma fired_nextAt m c : ready m c -> fired (nextAt m) = fired (passAt m).2.
Proof. intros (_ & Hget & _). unfold nextAt. by rewrite Hget. Qed.

(** One turn of [forLoop] at the level. *)
Lemma forLoop_passAt (fuel : nat) m c :
  ready m c ->
  loopCond (mkCtr c (Max (Counter lp))) = true ->
  (fuelFor rest <= fuel)%nat ->
  forLoop rangeOrder (S fuel) d t m
  = if (passAt m).1
    then Done (true, setCur t 0 (setCur t 0 (passAt m).2))
    else forLoop rangeOrder fuel d t (nextAt m).
Proof.
  intros Hready Hcond Hfuel.
  destruct (inner_run m c Hready) as (m3 & evi & Hrun & Hs3 & _).
  destruct Hready as (Hst & Hget & Hrest & Hid).
  rewrite forLoop_unfold, Hget. cbn [Counter setCurLoop OnStart].
  cbn [Counter setCurLoop] in Hcond. rewrite Hcond.
  rewrite (loopHead_idle d t _ m Hid). cbn [OnStart setCurLoop].
  rewrite (Hrun fuel Hfuel).
  rewrite (getLoop_stp_eq t m m3 Hs3), Hget.
  unfold loopTail. cbn [IsDone Main OnEnd Counter Cur setCurLoop].
  rewrite one_predicate, rangeOrder_one.
  unfold nextAt, passAt. rewrite Hget. cbn [OnStart Main OnEnd Counter Cur setCurLoop].
  rewrite (Hrun (fuelFor rest)) by lia.
  destruct (testDone t [(name, p)]
              (callAll t OnEndL (OnEnd lp) (callAll t MainL (Main lp) m3)))
    as [r m5] eqn:Htd.
  assert (Hs5 : stp m5 = stp m).
  { change m5 with (r, m5).2. rewrite <- Htd, stp_testDone. simpl. done. }
  destruct r; simpl; [|done].
  unfold exitLoop. simpl.
  destruct Hid as (_ & _ & Hi & _). rewrite Hs5, Hi. done.
Qed.

Lemma loopCond_open c mx (n : nat) :
  mx < 0 \/ c + Z.of_nat n < mx -> loopCond (mkCtr c mx) = true.
Proof.
  intros H. unfold loopCond. cbn [Cur Max].
  destruct (Z.ltb_spec c mx), (Z.ltb_spec mx 0); simpl; auto; lia.
Qed.

(** [n] turns in which [p] says no, then one in which it says yes. *)
Lemma forLoop_passes : forall (n fuel : nat) m c,
  ready m c ->
  Max (Counter lp) < 0 \/ c + Z.of_nat n < Max (Counter lp) ->
  - 2 ^ 63 <= c -> c + Z.of_nat n < 2 ^ 63 ->
  (forall k, (k < n)%nat -> (passAt (iterAt k m)).1 = false) ->
  (passAt (iterAt n m)).1 = true ->
  (fuelFor rest + n <= fuel)%nat ->
  forLoop rangeOrder (S fuel) d t m
  = Done (true, setCur t 0 (setCur t 0 (passAt (iterAt n m)).2)).
Proof.
  induction n as [|n IH]; intros fuel m c Hready Hmax Hlo Hhi Hno Hyes Hf.
  - rewrite (forLoop_passAt fuel m c Hready (loopCond_open _ _ _ Hmax))
      by lia.
    simpl in Hyes. by rewrite Hyes.
  - rewrite (forLoop_passAt fuel m c Hready (loopCond_open _ _ _ Hmax))
      by lia.
    pose proof (Hno 0%nat ltac:(lia)) as H0. simpl in H0. rewrite H0.
    destruct fuel as [|fuel]; [lia|].
    apply (IH fuel (nextAt m) (c + 1)).
    + apply ready_next; [done|lia..].
    + lia.
    + lia.
    + lia.
    + intros k Hk. apply (Hno (S k)). lia.
    + exact Hyes.
    + lia.
Qed.

Lemma iterAt_events : forall (n : nat) m c,
  ready m c -> - 2 ^ 63 <= c -> c + Z.of_nat n < 2 ^ 63 ->
  (forall k, (k < n)%nat -> (passAt (iterAt k m)).1 = false) ->
  exists ev,
    fired (iterAt n m) = fired m ++ ev
    /\ (forall l i, plain l = true ->
          timesFired (Called t l i) ev
          = if decide (i < length (hooksOf lp l))%nat then n else 0%nat)
    /\ timesFired (Tested t name false) ev = n
    /\ timesFired (Tested t name true) ev = 0%nat.
Proof.
  induction n as [|n IH]; intros m c Hready Hlo Hhi Hno; cbn [iterAt].
  - exists []. rewrite app_nil_r. repeat split; try done.
    intros l i _. by destruct (decide _).
  - destruct (passAt_spec m c Hready) as (_ & ev1 & Hf1 & Hc1 & Ht1).
    pose proof (Hno 0%nat ltac:(lia)) as H0. cbn [iterAt] in H0.
    destruct (IH (nextAt m) (c + 1)) as (ev2 & Hf2 & Hc2 & Hfalse2 & Htrue2).
    { apply ready_next; [done|lia..]. }
    { lia. }
    { lia. }
    { intros k Hk. apply (Hno (S k)). lia. }
    exists (ev1 ++ ev2).
    rewrite Hf2, (fired_nextAt m c Hready), Hf1, <- app_assoc.
    split; [done|]. split; [|split].
    + intros l i Hl. rewrite timesFired_app, (Hc1 l i Hl), (Hc2 l i Hl).
      by destruct (decide _).
    + rewrite timesFired_app, Ht1, Hfalse2, H0.
      destruct (decide (false = false)); [lia|done].
    + rewrite timesFired_app, Ht1, Htrue2, H0.
      destruct (decide (true = false)); [done|lia].
Qed.

(** When [p] says no after each of the first [n] iterations and yes after
    the next one, [runLevel] returns true after these [n + 1] iterations,
    with the counter back at 0 and the inner levels at rest. *)
Lemma level_cut (n fuel : nat) m c :
  ready m c ->
  Max (Counter lp) < 0 \/ c + Z.of_nat n < Max (Counter lp) ->
  - 2 ^ 63 <= c -> c + Z.of_nat n < 2 ^ 63 ->
  (forall k, (k < n)%nat -> (passAt (iterAt k m)).1 = false) ->
  (passAt (iterAt n m)).1 = true ->
  (fuelFor rest + n + 2 <= fuel)%nat ->
  exists m' ev,
    runLevel rangeOrder fuel d m = Done (true, m')
    /\ getLoop t m' = Some (setCurLoop 0 lp)
    /\ atRest m' rest
    /\ fired m' = fired m ++ ev
    /\ (forall l i, plain l = true ->
          timesFired (Called t l i) ev
          = if decide (i < length (hooksOf lp l))%nat then S n else 0%nat)
    /\ timesFired (Tested t name false) ev = n
    /\ timesFired (Tested t name true) ev = 1%nat.
Proof.
  intros Hready Hmax Hlo Hhi Hno Hyes Hfuel.
  destruct fuel as [|[|fuel]]; try lia.
  pose proof Hready as (Hst & Hget & _).
  rewrite (runLevel_enter rangeOrder _ m d t _
             (stackIs_levelIs _ _ _ _ _ Hst ts_level Hget)).
  rewrite (forLoop_passes n fuel m c) by (auto; lia).
  pose proof (ready_iterAt n m c Hready Hlo Hhi) as Hn.
  destruct (iterAt_events n m c Hready Hlo Hhi Hno)
    as (ev1 & Hf1 & Hc1 & Hfalse1 & Htrue1).
  destruct (passAt_spec _ _ Hn) as (Hs2 & ev2 & Hf2 & Hc2 & Ht2).
  destruct Hn as (_ & Hget' & Hrest' & _).
  eexists. exists (ev1 ++ ev2). split; [reflexivity|]. split; [|split; [|split]].
  - rewrite !getLoop_setCur_eq, (getLoop_stp_eq t _ _ Hs2), Hget'. done.
  - do 2 (apply atRest_setCur; [apply level_not_inner|]).
    by apply (atRest_stp_eq _ _ _ Hs2).
  - cbn [fired setCur on_stp]. rewrite Hf2, Hf1, <- app_assoc. done.
  - split; [|split].
    + intros l i Hl. rewrite timesFired_app, (Hc1 l i Hl), (Hc2 l i Hl).
      destruct (decide _); lia.
    + rewrite timesFired_app, Ht2, Hfalse1, Hyes.
      destruct (decide (false = true)); [done|lia].
    + rewrite timesFired_app, Ht2, Htrue1, Hyes.
      destruct (decide (true = true)); [lia|done].
Qed.

End LevelCut.

Section ShortCircuit.

Context {W : Type}.
Variable rangeOrder : gmap string (Pred W) -> list (string * Pred W).
Hypothesis rangeOrder_perm : forall ps, rangeOrder ps ≡ₚ map_to_list ps.

(** C7: a level of maximum 10, started at counter 0 by an idle stepper over
    bounded inner levels, whose termination function says no after the first
    and the second iteration and yes after the third, is left by [runLevel]
    after three iterations: [runLevel] returns true, the counter of the level
    is 0, each of its start, main and end hooks was called 3 times, and the
    termination function was evaluated 3 times (twice no, once yes). *)
Theorem predicate_cuts_level_short (d : nat) (t : Times) (name : string)
    (p : Pred W) (rest : list (Times * LoopStructure W)) (ts : list Times)
    (lp : LoopStructure W) (m : Machine W) (fuel : nat) :
  NoDup ts -> ts !! d = Some t -> drop (S d) ts = rest.*1 ->
  Forall bounded rest ->
  IsDone lp = {[name := p]} ->
  Max (Counter lp) = 10 ->
  ready t rest ts lp m 0 ->
  (passAt rangeOrder d t name p rest m).1 = false ->
  (passAt rangeOrder d t name p rest
     (iterAt rangeOrder d t name p rest 1 m)).1 = false ->
  (passAt rangeOrder d t name p rest
     (iterAt rangeOrder d t name p rest 2 m)).1 = true ->
  (fuelFor rest + 4 <= fuel)%nat ->
  exists m' ev,
    runLevel rangeOrder fuel d m = Done (true, m')
    /\ getLoop t m' = Some (setCurLoop 0 lp)
    /\ fired m' = fired m ++ ev
    /\ (forall l i, plain l = true -> (i < length (hooksOf lp l))%nat ->
          timesFired (Called t l i) ev = 3%nat)
    /\ timesFired (Tested t name false) ev = 2%nat
    /\ timesFired (Tested t name true) ev = 1%nat.
Proof.
  intros Hnd Hd Hdrop Hb Hdone Hmax Hready H0 H1 H2 Hfuel.
  destruct (level_cut rangeOrder rangeOrder_perm d t name p rest ts lp
              Hnd Hd Hdrop Hb Hdone 2 fuel m 0)
    as (m' & ev & Hrun & Hget & _ & Hf & Hc & Hno & Hyes);
    try done; try lia.
  - intros [|[|k]] Hk; [exact H0|exact H1|lia].
  - exists m', ev. repeat split; try done.
    intros l i Hl Hi. rewrite (Hc l i Hl). by destruct (decide _).
Qed.

(** C8: a level without maximum (-1), started at counter 0 by an idle
    stepper over bounded inner levels, whose termination function says no
    after each of the first six iterations and yes after the seventh, is left
    by [runLevel] after seven iterations: with enough fuel [runLevel] returns
    true, the counter of the level is 0 and each of its hooks was called 7
    times. *)
Theorem unbounded_level_terminates (d : nat) (t : Times) (name : string)
    (p : Pred W) (rest : list (Times * LoopStructure W)) (ts : list Times)
    (lp : LoopStructure W) (m : Machine W) :
  NoDup ts -> ts !! d = Some t -> drop (S d) ts = rest.*1 ->
  Forall bounded rest ->
  IsDone lp = {[name := p]} ->
  Max (Counter lp) = -1 ->
  ready t rest ts lp m 0 ->
  (forall k, (k < 6)%nat ->
     (passAt rangeOrder d t name p rest
        (iterAt rangeOrder d t name p rest k m)).1 = false) ->
  (passAt rangeOrder d t name p rest
     (iterAt rangeOrder d t name p rest 6 m)).1 = true ->
  exists m' ev,
    (forall fuel : nat, (fuelFor rest + 8 <= fuel)%nat ->
       runLevel rangeOrder fuel d m = Done (true, m'))
    /\ getLoop t m' = Some (setCurLoop 0 lp)
    /\ fired m' = fired m ++ ev
    /\ (forall l i, plain l = true -> (i < length (hooksOf lp l))%nat ->
          timesFired (Called t l i) ev = 7%nat)
    /\ timesFired (Tested t name true) ev = 1%nat.
Proof.
  intros Hnd Hd Hdrop Hb Hdone Hmax Hready Hno Hyes.
  destruct (level_cut rangeOrder rangeOrder_perm d t name p rest ts lp
              Hnd Hd Hdrop Hb Hdone 6 (fuelFor rest + 8) m 0)
    as (m' & ev & Hrun & Hget & _ & Hf & Hc & _ & Ht);
    try done; try lia.
  exists m', ev. repeat split; try done.
  - intros fuel Hfuel.
    by apply (runLevel_fuel_mono rangeOrder (fuelFor rest + 8)).
  - intros l i Hl Hi. rewrite (Hc l i Hl). by destruct (decide _).
Qed.

End ShortCircuit.


(** ** The range over the termination functions *)

Section TerminationFunctions.

Context {W : Type}.
Variable rangeOrder : gmap string (Pred W) -> list (string * Pred W).
Hypothesis rangeOrder_perm : forall ps, rangeOrder ps ≡ₚ map_to_list ps.
Implicit Types (m : Machine W) (ps : list (string * Pred W)).

(** The events of a row of termination functions that all said no. *)
Definition saidNo (t : Times) ps : list Event :=
  map (fun np => Tested t np.1 false) ps.

Lemma testDone_first_yes t ps : forall m,
  (testDone t ps m).1 = true ->
  exists before name p after,
    ps = before ++ (name, p) :: after
    /\ fired (testDone t ps m).2
       = fired m ++ saidNo t before ++ [Tested t name true].
Proof.
  induction ps as [|[name p] rest IH]; intros m; cbn [testDone]; [done|].
  destruct (p (world m)) as [r w'] eqn:Hp.
  destruct r; cbn [fst snd].
  - intros _. by exists [], name, p, rest.
  - intros Hyes. destruct (IH _ Hyes) as (before & n & q & after & -> & ->).
    exists ((name, p) :: before), n, q, after. split; [done|].
    cbn [fired saidNo map fst]. by rewrite <- app_assoc.
Qed.

Lemma testDone_all_no t ps : forall m,
  (testDone t ps m).1 = false ->
  fired (testDone t ps m).2 = fired m ++ saidNo t ps.
Proof.
  induction ps as [|[name p] rest IH]; intros m; cbn [testDone].
  - intros _. cbn. by rewrite app_nil_r.
  - destruct (p (world m)) as [r w'] eqn:Hp.
    destruct r; cbn [fst snd]; [done|].
    intros Hno. rewrite (IH _ Hno). cbn [fired saidNo map fst].
    by rewrite <- app_assoc.
Qed.

(** C5, amended: in an iteration of a level run by an idle stepper over
    bounded inner levels, once the inner levels are done and the main and end
    hooks have run, the termination functions of the level are evaluated in
    the order in which the range over the map yields them, up to and
    including the first that says yes; those after it are not evaluated.
    When one says yes the loop is left at once, whatever the counter: it
    returns true with the counter of the level at 0.  When all say no, the
    counter is increased by one and the loop goes on. *)
Theorem first_yes_ends_level (d : nat) (t : Times)
    (rest : list (Times * LoopStructure W)) (ts : list Times)
    (lp : LoopStructure W) (fuel : nat) m (c : Z) :
  NoDup ts -> drop (S d) ts = rest.*1 -> Forall bounded rest ->
  ready t rest ts lp m c ->
  loopCond (mkCtr c (Max (Counter lp))) = true ->
  (fuelFor rest <= fuel)%nat ->
  exists m3,
    runLevel rangeOrder fuel (S d)
      (phaseLogic t (setCurLoop c lp) (callAll t OnStartL (OnStart lp) m))
    = Done (true, m3)
    /\ let m4 := callAll t OnEndL (OnEnd lp) (callAll t MainL (Main lp) m3) in
       let res := testDone t (rangeOrder (IsDone lp)) m4 in
       (res.1 = true ->
          (exists before name p after,
             rangeOrder (IsDone lp) = before ++ (name, p) :: after
             /\ fired res.2
                = fired m4 ++ saidNo t before ++ [Tested t name true])
          /\ exists m',
               forLoop rangeOrder (S fuel) d t m = Done (true, m')
               /\ getLoop t m' = Some (setCurLoop 0 lp)
               /\ fired m' = fired res.2 /\ world m' = world res.2)
       /\ (res.1 = false ->
             fired res.2 = fired m4 ++ saidNo t (rangeOrder (IsDone lp))
             /\ forLoop rangeOrder (S fuel) d t m
                = forLoop rangeOrder fuel d t
                    (setCur t (wrap64 (c + 1)) res.2)).
Proof.
  intros Hnd Hdrop Hb Hready Hcond Hfuel.
  destruct (inner_run rangeOrder rangeOrder_perm d t rest ts lp Hnd Hdrop Hb
              m c Hready) as (m3 & evi & Hrun & Hs3 & _).
  destruct Hready as (Hst & Hget & Hrest & Hid).
  exists m3. split; [by apply Hrun|]. intros m4 res.
  assert (Hs5 : stp res.2 = stp m).
  { unfold res. rewrite stp_testDone. unfold m4. simpl. done. }
  assert (Hloop : forLoop rangeOrder (S fuel) d t m
                  = if res.1
                    then Done (true, setCur t 0 (setCur t 0 res.2))
                    else forLoop rangeOrder fuel d t
                           (setCur t (wrap64 (c + 1)) res.2)).
  { rewrite forLoop_unfold, Hget. cbn [Counter setCurLoop OnStart].
    cbn [Counter setCurLoop] in Hcond. rewrite Hcond.
    rewrite (loopHead_idle d t _ m Hid). cbn [OnStart setCurLoop].
    rewrite (Hrun fuel Hfuel).
    rewrite (getLoop_stp_eq t m m3 Hs3), Hget.
    unfold loopTail. cbn [IsDone Main OnEnd Counter Cur setCurLoop].
    fold m4. fold res. destruct res as [r m5]. cbn [fst snd] in *.
    destruct r; [|done].
    unfold exitLoop. simpl.
    destruct Hid as (_ & _ & Hi & _). rewrite Hs5, Hi. done. }
  split.
  - intros Hyes. split; [by apply testDone_first_yes|].
    rewrite Hloop, Hyes. eexists. split; [reflexivity|].
    split; [|done].
    rewrite !getLoop_setCur_eq, (getLoop_stp_eq t _ _ Hs5), Hget. done.
  - intros Hno. split; [by apply testDone_all_no|].
    by rewrite Hloop, Hno.
Qed.

End TerminationFunctions.


(** ** Requests from outside and the order of the range *)

(** A request made to the stepper between two calls of [Run]. *)
Inductive Request : Type :=
  | StopAt (t : Times)
  | StepAt (t : Times) (n : Z).

Section Requests.

Context {W : Type}.

(** Modelled from the spec: [requestStop(atTimescale)] arms an immediate
    stop at the level of that time scale; in the fields of [Stepper] of
    step.go, [StopFlag] and [StopLevel]. *)
Definition requestStop (t : Times) (s : Stepper W) : Stepper W :=
  set_StopLevel t (set_StopFlag true s).

(** Modelled from the spec: [requestStep(atTimescale, n)] arms a counted
    stop; in the fields of [Stepper] of step.go, [StopNext], [StopLevel] and
    [StepIterations]. *)
Definition requestStep (t : Times) (n : Z) (s : Stepper W) : Stepper W :=
  set_StepIterations n (set_StopLevel t (set_StopNext true s)).

Definition request (r : Request) (s : Stepper W) : Stepper W :=
  match r with
  | StopAt t => requestStop t s
  | StepAt t n => requestStep t n s
  end.

(** A timeline: the requests made before each call of [Run], call by call. *)
Fixpoint replay (rangeOrder : gmap string (Pred W) -> list (string * Pred W))
    (fuel : nat) (timeline : list (list Request)) (m : Machine W)
    : outcome (Machine W) :=
  match timeline with
  | [] => Done m
  | rs :: later =>
      match Run rangeOrder fuel
              (on_stp (fun s => fold_left (fun s r => request r s) rs s) m) with
      | Done m' => replay rangeOrder fuel later m'
      | Panic => Panic
      | OutOfFuel => OutOfFuel
      end
  end.

(** Every loop of the manager has at most one termination function. *)
Definition atMostOne (lm : LoopManager W) : Prop :=
  forall mode st t lp,
    Stacks lm !! mode = Some st -> Loops st !! t = Some lp ->
    (size (IsDone lp) <= 1)%nat.

Lemma atMostOne_setCur t v (s : Stepper W) :
  atMostOne (LoopsOf s) -> atMostOne (LoopsOf (setCurStepper t v s)).
Proof.
  intros Hinv mode st t' lp. cbn.
  destruct (decide (mode = Mode s)) as [->|Hne].
  - rewrite lookup_alter_eq.
    destruct (Stacks (LoopsOf s) !! Mode s) as [st0|] eqn:Hst0; [|done].
    cbn. intros [= <-]. cbn.
    destruct (decide (t' = t)) as [->|Hne].
    + rewrite lookup_alter_eq.
      destruct (Loops st0 !! t) as [lp0|] eqn:Hlp0; [|done].
      cbn. intros [= <-]. cbn. by apply (Hinv _ _ _ _ Hst0 Hlp0).
    + rewrite lookup_alter_ne by done.
      intros Hlp. by apply (Hinv _ _ _ _ Hst0 Hlp).
  - rewrite lookup_alter_ne by done.
    intros Hst Hlp. by apply (Hinv _ _ _ _ Hst Hlp).
Qed.

Lemma atMostOne_getLoop t (m : Machine W) lp :
  atMostOne (LoopsOf (stp m)) -> getLoop t m = Some lp ->
  (size (IsDone lp) <= 1)%nat.
Proof.
  unfold getLoop, curStack. intros Hinv Hget.
  destruct (Stacks (LoopsOf (stp m)) !! Mode (stp m)) as [st|] eqn:Hst;
    [|done].
  by apply (Hinv _ _ _ _ Hst Hget).
Qed.

Lemma LoopsOf_request r (s : Stepper W) : LoopsOf (request r s) = LoopsOf s.
Proof. by destruct r. Qed.

Lemma LoopsOf_requests rs : forall s : Stepper W,
  LoopsOf (fold_left (fun s r => request r s) rs s) = LoopsOf s.
Proof.
  induction rs as [|r rs IH]; intros s; cbn [fold_left]; [done|].
  by rewrite IH, LoopsOf_request.
Qed.

Lemma LoopsOf_loopHead d t lp (m : Machine W) :
  match loopHead d t lp m with
  | Halt m1 | Proceed m1 => LoopsOf (stp m1) = LoopsOf (stp m)
  end.
Proof.
  unfold loopHead.
  destruct (StopFlag (stp m) && bool_decide (t = StopLevel (stp m)));
    cbn [stp on_stp internalStop set_internalStop set_lastStoppedLevel].
  - done.
  - destruct (internalStop (stp m)); [done|].
    destruct (StopNext (stp m) && bool_decide (t = StopLevel (stp m)));
      cbn [stp on_stp StepIterations set_StepIterations].
    + destruct (wrap64 (StepIterations (stp m) - 1) <=? 0);
        cbn [stp on_stp lastStoppedLevel set_lastStoppedLevel
             set_StepIterations];
        destruct (_ <=? Z.of_nat d); done.
    + destruct (_ <=? Z.of_nat d); done.
Qed.

End Requests.


Section RangeOrder.

Context {W : Type}.
Variables o1 o2 : gmap string (Pred W) -> list (string * Pred W).
Hypothesis o1_perm : forall ps, o1 ps ≡ₚ map_to_list ps.
Hypothesis o2_perm : forall ps, o2 ps ≡ₚ map_to_list ps.

(** With at most one entry the range has only one possible order. *)
Lemma orders_agree (ps : gmap string (Pred W)) :
  (size ps <= 1)%nat -> o1 ps = o2 ps.
Proof.
  rewrite <- length_map_to_list. intros Hsize.
  pose proof (o1_perm ps) as H1. pose proof (o2_perm ps) as H2.
  destruct (map_to_list ps) as [|x [|y l]]; cbn [length] in Hsize.
  - apply Permutation_nil_r in H1, H2. congruence.
  - apply Permutation_singleton_r in H1, H2. congruence.
  - lia.
Qed.

Lemma loopTail_agree t (m : Machine W) lp :
  atMostOne (LoopsOf (stp m)) -> getLoop t m = Some lp ->
  loopTail o1 t lp m = loopTail o2 t lp m.
Proof.
  intros Hinv Hget. unfold loopTail.
  by rewrite (orders_agree (IsDone lp) (atMostOne_getLoop t m lp Hinv Hget)).
Qed.

Lemma atMostOne_loopTail o t (m : Machine W) lp :
  atMostOne (LoopsOf (stp m)) ->
  atMostOne (LoopsOf (stp (loopTail o t lp m).2)).
Proof.
  intros Hinv. unfold loopTail.
  destruct (testDone t (o (IsDone lp))
              (callAll t OnEndL (OnEnd lp) (callAll t MainL (Main lp) m)))
    as [r m5] eqn:Htd.
  assert (Hs5 : stp m5 = stp m).
  { change m5 with (r, m5).2. rewrite <- Htd, stp_testDone. done. }
  destruct r; cbn [snd setCur on_stp stp];
    apply atMostOne_setCur; by rewrite Hs5.
Qed.

Lemma atMostOne_exitLoop t (m : Machine W) :
  atMostOne (LoopsOf (stp m)) ->
  atMostOne (LoopsOf (stp (exitLoop t m).2)).
Proof.
  intros Hinv. unfold exitLoop. cbn [snd].
  destruct (internalStop (stp m)); [done|].
  by apply atMostOne_setCur.
Qed.

(** The two orders give the same run, and the run keeps the loops at one
    termination function at most. *)
Lemma orders_agree_both : forall fuel : nat,
  (forall d (m : Machine W), atMostOne (LoopsOf (stp m)) ->
     runLevel o1 fuel d m = runLevel o2 fuel d m
     /\ forall r m', runLevel o1 fuel d m = Done (r, m') ->
                     atMostOne (LoopsOf (stp m')))
  /\ (forall d t (m : Machine W), atMostOne (LoopsOf (stp m)) ->
        forLoop o1 fuel d t m = forLoop o2 fuel d t m
        /\ forall r m', forLoop o1 fuel d t m = Done (r, m') ->
                        atMostOne (LoopsOf (stp m'))).
Proof.
  induction fuel as [|fuel [IHrun IHloop]].
  { split; intros; (split; [done|]); intros r m'; simpl; discriminate. }
  split.
  - intros d m Hinv. rewrite !runLevel_unfold.
    destruct (curStack m) as [st|]; [|split; [done|discriminate]].
    destruct (length (Order st) <=? d)%nat.
    { split; [done|]. by intros r m' [= _ <-]. }
    destruct (Order st !! d) as [t|]; [|split; [done|discriminate]].
    by apply IHloop.
  - intros d t m Hinv. rewrite !forLoop_unfold.
    destruct (getLoop t m) as [loop|]; [|split; [done|discriminate]].
    destruct (loopCond (Counter loop)).
    2:{ split; [done|]. intros r m' [= _ <-].
        by apply (atMostOne_exitLoop t m). }
    pose proof (LoopsOf_loopHead d t loop m) as Hhead.
    destruct (loopHead d t loop m) as [m1|m1].
    { split; [done|]. intros r m' [= _ <-]. by rewrite Hhead. }
    assert (Hinv2 : atMostOne (LoopsOf (stp (phaseLogic t loop m1))))
      by (by rewrite stp_phaseLogic, Hhead).
    destruct (IHrun (S d) _ Hinv2) as [<- Hkeep].
    destruct (runLevel o1 fuel (S d) (phaseLogic t loop m1))
      as [[runComplete m3]| |]; [|split; [done|discriminate]..].
    pose proof (Hkeep _ _ eq_refl) as Hinv3.
    destruct runComplete; [|by apply IHloop].
    destruct (getLoop t m3) as [loop3|] eqn:Hget3;
      [|split; [done|discriminate]].
    rewrite <- (loopTail_agree t m3 loop3 Hinv3 Hget3).
    pose proof (atMostOne_loopTail o1 t m3 loop3 Hinv3) as Hinv4.
    destruct (loopTail o1 t loop3 m3) as [out m4]. cbn [snd] in Hinv4.
    destruct out; [|by apply IHloop].
    split; [done|]. intros r m' [= _ <-].
    by apply (atMostOne_exitLoop t m4).
Qed.

Lemma Run_agree (fuel : nat) (m : Machine W) :
  atMostOne (LoopsOf (stp m)) ->
  Run o1 fuel m = Run o2 fuel m
  /\ forall m', Run o1 fuel m = Done m' -> atMostOne (LoopsOf (stp m')).
Proof.
  intros Hinv. unfold Run.
  destruct (proj1 (orders_agree_both fuel) 0%nat
              (on_stp (set_internalStop false) m) Hinv) as [<- Hkeep].
  destruct (runLevel o1 fuel 0 (on_stp (set_internalStop false) m))
    as [[r m1]| |]; [|split; [done|discriminate]..].
  split; [done|]. intros m' [= <-]. by apply (Hkeep r).
Qed.

(** C4, amended: when every loop of the manager has at most one termination
    function, the run of a timeline of requests does not depend on the order
    in which the runtime ranges over the termination functions: any two
    orders give the same outcome, that is the same sequence of calls and
    evaluations, the same host state and the same counters. *)
Theorem replay_deterministic (fuel : nat) (timeline : list (list Request))
    (m : Machine W) :
  atMostOne (LoopsOf (stp m)) ->
  replay o1 fuel timeline m = replay o2 fuel timeline m.
Proof.
  revert m. induction timeline as [|rs later IH]; intros m Hinv;
    cbn [replay]; [done|].
  set (m0 := on_stp (fun s => fold_left (fun s r => request r s) rs s) m).
  assert (Hinv0 : atMostOne (LoopsOf (stp m0)))
    by (unfold m0; cbn [stp on_stp]; by rewrite LoopsOf_requests).
  destruct (Run_agree fuel m0 Hinv0) as [<- Hkeep].
  destruct (Run o1 fuel m0) as [m'| |]; [|done..].
  apply IH. by apply Hkeep.
Qed.

End RangeOrder.


(** ** Resumption after an interruption *)

(** The events of [phaseLogic] for the loop [lp] of time scale [t]: they
    depend on the counter and the phases of [lp] alone. *)
Fixpoint phaseLoopTrace {W} (t : Times) (cur : Z) (p : nat) (amount : Z)
    (phases : list (Phase W)) : list Event :=
  match phases with
  | [] => []
  | ph :: rest =>
      let a := wrap64 (amount + Duration ph) in
      (if cur =? wrap64 (a - Duration ph)
       then calls t (PhaseStartL p) (PhaseStart ph) else [])
      ++ (if cur <? a
          then calls t (OnMillisecondEndL p) (OnMillisecondEnd ph) else [])
      ++ (if cur =? wrap64 (a - 1)
          then calls t (PhaseEndL p) (PhaseEnd ph) else [])
      ++ phaseLoopTrace t cur (S p) a rest
  end.

Definition phaseTrace {W} (t : Times) (lp : LoopStructure W) : list Event :=
  phaseLoopTrace t (Cur (Counter lp)) 0 0 (Phases lp).

(** The machine that the interruption check of a level of depth [d] and time
    scale [t] returns. *)
Definition haltAt {W} (d : nat) (t : Times) (m : Machine W) : Machine W :=
  on_stp (set_StopFlag false)
    (if StopFlag (stp m) && bool_decide (t = StopLevel (stp m))
     then on_stp (fun s => set_lastStoppedLevel (Z.of_nat d)
                             (set_internalStop true s)) m
     else m).

Section Traces.

Context {W : Type}.
Variable rangeOrder : gmap string (Pred W) -> list (string * Pred W).
Implicit Types (m : Machine W) (lp : LoopStructure W) (t : Times).

Lemma fired_phaseLoop_trace t cur phases : forall p amount m,
  fired (phaseLoop t cur p amount phases m)
  = fired m ++ phaseLoopTrace t cur p amount phases.
Proof.
  induction phases as [|ph rest IH]; intros p amount m;
    cbn [phaseLoop phaseLoopTrace].
  - by rewrite app_nil_r.
  - unfold phaseStep. rewrite IH.
    destruct (cur =? _), (cur <? _), (cur =? _);
      rewrite ?fired_callAll, <- ?app_assoc; reflexivity.
Qed.

Lemma fired_phaseLogic_trace t lp m :
  fired (phaseLogic t lp m) = fired m ++ phaseTrace t lp.
Proof. apply fired_phaseLoop_trace. Qed.

Lemma forLoop_halts fuel d t m lp :
  getLoop t m = Some lp ->
  loopCond (Counter lp) = true ->
  interruptionMarked m t = true ->
  forLoop rangeOrder (S fuel) d t m = Done (false, haltAt d t m).
Proof.
  intros Hget Hcond Hmark.
  rewrite forLoop_unfold, Hget, Hcond.
  unfold loopHead, haltAt, interruptionMarked in *.
  destruct (StopFlag (stp m) && bool_decide (t = StopLevel (stp m))); simpl.
  - done.
  - rewrite orb_false_r in Hmark. by rewrite Hmark.
Qed.

Lemma fired_haltAt d t m : fired (haltAt d t m) = fired m.
Proof. unfold haltAt. by destruct (_ && _). Qed.

Lemma fired_loopHead d t lp m :
  match loopHead d t lp m with
  | Halt m1 | Proceed m1 => fired m `prefix_of` fired m1
  end.
Proof.
  unfold loopHead.
  destruct (StopFlag (stp m) && bool_decide (t = StopLevel (stp m)));
    cbn [stp on_stp internalStop set_internalStop set_lastStoppedLevel];
    [done|].
  destruct (internalStop (stp m)); [done|].
  destruct (StopNext (stp m) && bool_decide (t = StopLevel (stp m)));
    cbn [stp on_stp StepIterations set_StepIterations].
  - destruct (wrap64 (StepIterations (stp m) - 1) <=? 0);
      cbn [stp on_stp lastStoppedLevel set_lastStoppedLevel
           set_StepIterations];
      destruct (_ <=? Z.of_nat d); rewrite ?fired_callAll;
      cbn [fired on_stp]; try done; by apply prefix_app_r.
  - destruct (_ <=? Z.of_nat d); rewrite ?fired_callAll;
      cbn [fired on_stp]; try done; by apply prefix_app_r.
Qed.

Lemma fired_testDone_grows t ps : forall m,
  fired m `prefix_of` fired (testDone t ps m).2.
Proof.
  intros m. destruct (fired_testDone t ps m) as (ev & -> & _).
  by apply prefix_app_r.
Qed.

Lemma fired_loopTail t lp m :
  fired m `prefix_of` fired (loopTail rangeOrder t lp m).2.
Proof.
  unfold loopTail.
  pose proof (fired_testDone_grows t (rangeOrder (IsDone lp))
                (callAll t OnEndL (OnEnd lp) (callAll t MainL (Main lp) m)))
    as Hg.
  rewrite !fired_callAll, <- app_assoc in Hg.
  destruct (testDone t (rangeOrder (IsDone lp)) _) as [r m5].
  cbn [snd] in Hg.
  destruct r; cbn [snd setCur on_stp fired];
    (etrans; [|exact Hg]); by apply prefix_app_r.
Qed.

Lemma fired_exitLoop t m r m' :
  Done (exitLoop t m) = Done (r, m') -> fired m' = fired m.
Proof. unfold exitLoop. intros [= _ <-]. by destruct (internalStop (stp m)). Qed.

(** A run only ever adds to the trace. *)
Lemma fired_grows_both : forall fuel : nat,
  (forall d m r m', runLevel rangeOrder fuel d m = Done (r, m') ->
                    fired m `prefix_of` fired m')
  /\ (forall d t m r m', forLoop rangeOrder fuel d t m = Done (r, m') ->
                         fired m `prefix_of` fired m').
Proof.
  induction fuel as [|fuel [IHrun IHloop]]; [split; intros; discriminate|].
  split.
  - intros d m r m'. rewrite runLevel_unfold.
    destruct (curStack m) as [st|]; [|discriminate].
    destruct (length (Order st) <=? d)%nat; [by intros [= _ <-]|].
    destruct (Order st !! d) as [t|]; [|discriminate].
    apply IHloop.
  - intros d t m r m'. rewrite forLoop_unfold.
    destruct (getLoop t m) as [loop|]; [|discriminate].
    destruct (loopCond (Counter loop)).
    2:{ intros Hex. by rewrite (fired_exitLoop _ _ _ _ Hex). }
    pose proof (fired_loopHead d t loop m) as Hhead.
    destruct (loopHead d t loop m) as [m1|m1]; [by intros [= _ <-]|].
    assert (H2 : fired m `prefix_of` fired (phaseLogic t loop m1)).
    { etrans; [exact Hhead|]. rewrite fired_phaseLogic_trace.
      by apply prefix_app_r. }
    destruct (runLevel rangeOrder fuel (S d) (phaseLogic t loop m1))
      as [[runComplete m3]| |] eqn:Hin; [|discriminate..].
    pose proof (IHrun _ _ _ _ Hin) as H3.
    destruct runComplete.
    2:{ intros Hrest. etrans; [exact H2|]. etrans; [exact H3|].
        by apply (IHloop _ _ _ _ _ Hrest). }
    destruct (getLoop t m3) as [loop3|]; [|discriminate].
    pose proof (fired_loopTail t loop3 m3) as H4.
    destruct (loopTail rangeOrder t loop3 m3) as [out m4]. cbn [snd] in H4.
    destruct out.
    + intros Hex. rewrite (fired_exitLoop _ _ _ _ Hex).
      etrans; [exact H2|]. by etrans.
    + intros Hrest. etrans; [exact H2|]. etrans; [exact H3|].
      etrans; [exact H4|]. by apply (IHloop _ _ _ _ _ Hrest).
Qed.

Lemma runLevel_fired_grows fuel d m r m' :
  runLevel rangeOrder fuel d m = Done (r, m') -> fired m `prefix_of` fired m'.
Proof. apply (proj1 (fired_grows_both fuel)). Qed.

Lemma forLoop_fired_grows fuel d t m r m' :
  forLoop rangeOrder fuel d t m = Done (r, m') -> fired m `prefix_of` fired m'.
Proof. apply (proj2 (fired_grows_both fuel)). Qed.

End Traces.


Section Resumption.

Context {W : Type}.
Variable rangeOrder : gmap string (Pred W) -> list (string * Pred W).
Implicit Types (m : Machine W) (lp : LoopStructure W) (t : Times).

Lemma levelIs_stp_eq m m' d t lp :
  stp m' = stp m -> levelIs m d t lp -> levelIs m' d t lp.
Proof.
  intros H (st & ? & ? & ?). exists st.
  rewrite (curStack_stp_eq _ _ H). auto.
Qed.

(** After the start hooks and the phases of an iteration, whatever else the
    loop does only adds to the trace. *)
Lemma forLoop_proceed_grows fuel d t m lp m1 r m' :
  getLoop t m = Some lp ->
  loopCond (Counter lp) = true ->
  loopHead d t lp m = Proceed m1 ->
  forLoop rangeOrder (S fuel) d t m = Done (r, m') ->
  fired (phaseLogic t lp m1) `prefix_of` fired m'.
Proof.
  intros Hget Hcond Hhead. rewrite forLoop_unfold, Hget, Hcond, Hhead.
  destruct (runLevel rangeOrder fuel (S d) (phaseLogic t lp m1))
    as [[runComplete m3]| |] eqn:Hin; [|discriminate..].
  pose proof (runLevel_fired_grows _ _ _ _ _ _ Hin) as H3.
  destruct runComplete.
  2:{ intros Hrest. etrans; [exact H3|].
      by apply (forLoop_fired_grows _ _ _ _ _ _ _ Hrest). }
  destruct (getLoop t m3) as [loop3|]; [|discriminate].
  pose proof (fired_loopTail rangeOrder t loop3 m3) as H4.
  destruct (loopTail rangeOrder t loop3 m3) as [out m4]. cbn [snd] in H4.
  destruct out.
  - intros Hex. rewrite (fired_exitLoop _ _ _ _ Hex). by etrans.
  - intros Hrest. etrans; [exact H3|]. etrans; [exact H4|].
    by apply (forLoop_fired_grows _ _ _ _ _ _ _ Hrest).
Qed.

(** C1 fails in the code: a stop armed for the level below the level of time
    scale [t] interrupts the run after the start hooks and the phase hooks of
    [t]; the run that resumes does not call the start hooks of [t] again,
    but it does call the phase hooks of [t] again, for the same value of the
    counter, before anything else. *)
Theorem resumption_repeats_phase_hooks (fuel : nat) m (d : nat) t t' lp lp' :
  levelIs m d t lp -> levelIs m (S d) t' lp' -> t <> t' ->
  loopCond (Counter lp) = true -> loopCond (Counter lp') = true ->
  StopFlag (stp m) = true -> StopLevel (stp m) = t' ->
  StopNext (stp m) = false -> internalStop (stp m) = false ->
  lastStoppedLevel (stp m) = -1 ->
  exists m1,
    runLevel rangeOrder (S (S (S (S fuel)))) d m = Done (false, m1)
    /\ fired m1 = fired m ++ calls t OnStartL (OnStart lp) ++ phaseTrace t lp
    /\ getLoop t m1 = Some lp
    /\ forall (fuel' : nat) r m2,
         runLevel rangeOrder fuel' d (on_stp (set_internalStop false) m1)
         = Done (r, m2) ->
         (fired m ++ calls t OnStartL (OnStart lp)
            ++ phaseTrace t lp ++ phaseTrace t lp) `prefix_of` fired m2.
Proof.
  intros Hlev Hlev' Hne Hcond Hcond' Hflag Hlevel Hnext Hint Hlast.
  pose proof (levelIs_getLoop _ _ _ _ Hlev) as Hget.
  set (m2 := phaseLogic t lp (callAll t OnStartL (OnStart lp) m)).
  assert (Hs2 : stp m2 = stp m) by (unfold m2; by rewrite stp_phaseLogic).
  assert (Hf2 : fired m2
                = fired m ++ calls t OnStartL (OnStart lp) ++ phaseTrace t lp).
  { unfold m2. by rewrite fired_phaseLogic_trace, fired_callAll, <- app_assoc. }
  set (m3 := haltAt (S d) t' m2).
  assert (Hs3 : stp m3
                = set_StopFlag false
                    (set_lastStoppedLevel (Z.of_nat (S d))
                       (set_internalStop true (stp m)))).
  { unfold m3, haltAt. rewrite Hs2, Hflag, Hlevel, bool_decide_eq_true_2 by done.
    cbn [andb stp on_stp]. by rewrite Hs2. }
  assert (Hget3 : getLoop t m3 = Some lp).
  { rewrite <- Hget. unfold getLoop, curStack. by rewrite Hs3. }
  set (m4 := haltAt d t m3).
  assert (Hs4 : stp m4 = stp m3).
  { unfold m4, haltAt. rewrite Hs3. cbn [StopFlag set_StopFlag andb stp on_stp].
    by rewrite Hs3. }
  assert (Hf4 : fired m4 = fired m2).
  { unfold m4, haltAt. rewrite Hs3. cbn [StopFlag set_StopFlag andb].
    unfold m3, haltAt. rewrite Hs2, Hflag. by destruct (bool_decide _). }
  exists m4. split; [|split; [by rewrite Hf4|split]].
  - rewrite (runLevel_enter rangeOrder _ m d t lp Hlev).
    rewrite forLoop_unfold, Hget, Hcond.
    assert (Hhead : loopHead d t lp m
                    = Proceed (callAll t OnStartL (OnStart lp) m)).
    { unfold loopHead. rewrite Hflag, Hlevel, bool_decide_eq_false_2 by done.
      cbn [andb]. rewrite Hint, Hnext. cbn [andb]. rewrite Hlast.
      destruct (Z.leb_spec (-1) (Z.of_nat d)) as [_|?]; [|lia].
      by rewrite mark_idle. }
    rewrite Hhead. fold m2.
    rewrite (runLevel_enter rangeOrder _ m2 (S d) t' lp'
               (levelIs_stp_eq _ _ _ _ _ Hs2 Hlev')).
    rewrite (forLoop_halts rangeOrder _ (S d) t' m2 lp').
    + fold m3. apply (forLoop_halts rangeOrder _ d t m3 lp Hget3 Hcond).
      unfold interruptionMarked. by rewrite Hs3.
    + apply levelIs_getLoop with (d := S d).
      by apply (levelIs_stp_eq m).
    + exact Hcond'.
    + unfold interruptionMarked.
      rewrite Hs2, Hflag, Hlevel, bool_decide_eq_true_2 by done.
      apply orb_true_r.
  - rewrite <- Hget. unfold getLoop, curStack. by rewrite Hs4, Hs3.
  - intros fuel' r m6 Hrun.
    set (m5 := on_stp (set_internalStop false) m4) in *.
    assert (Hs5 : stp m5 = set_internalStop false (stp m3))
      by (unfold m5; cbn [stp on_stp]; by rewrite Hs4).
    assert (Hlev5 : levelIs m5 d t lp).
    { destruct Hlev as (st & Hst & Hord & Hlp). exists st.
      split; [|done]. rewrite <- Hst. unfold curStack.
      by rewrite Hs5, Hs3. }
    destruct fuel' as [|[|fuel']]; [discriminate| |].
    { rewrite (runLevel_enter rangeOrder _ m5 d t lp Hlev5) in Hrun.
      discriminate. }
    rewrite (runLevel_enter rangeOrder _ m5 d t lp Hlev5) in Hrun.
    assert (Hhead : loopHead d t lp m5 = Proceed m5).
    { assert (HF5 : StopFlag (stp m5) = false) by (by rewrite Hs5, Hs3).
      assert (HI5 : internalStop (stp m5) = false) by (by rewrite Hs5).
      assert (HN5 : StopNext (stp m5) = false) by (by rewrite Hs5, Hs3).
      assert (HL5 : lastStoppedLevel (stp m5) = Z.of_nat (S d))
        by (by rewrite Hs5, Hs3).
      unfold loopHead. rewrite HF5. cbn [andb]. rewrite HI5, HN5.
      cbn [andb]. rewrite HL5.
      destruct (Z.leb_spec (Z.of_nat (S d)) (Z.of_nat d)) as [?|_]; [lia|].
      done. }
    pose proof (forLoop_proceed_grows _ _ _ _ _ _ _ _
                  (levelIs_getLoop _ _ _ _ Hlev5) Hcond Hhead Hrun) as Hg.
    rewrite fired_phaseLogic_trace in Hg.
    replace (fired m5) with (fired m4) in Hg by done.
    rewrite Hf4, Hf2, <- !app_assoc in Hg. exact Hg.
Qed.

End Resumption.


(** ** A counted stop *)

(** The stepper after the count of lines 65 to 72 at the head of an
    iteration of the level the step is armed for. *)
Definition counted {W} (s : Stepper W) : Stepper W :=
  let s := set_StepIterations (wrap64 (StepIterations s - 1)) s in
  if StepIterations s <=? 0
  then set_lastStoppedLevel (-1) (set_StopFlag true (set_StopNext false s))
  else s.

Section Stepping.

Context {W : Type}.
Variable rangeOrder : gmap string (Pred W) -> list (string * Pred W).
Hypothesis rangeOrder_perm : forall ps, rangeOrder ps ≡ₚ map_to_list ps.

(** The level of time scale [t], at depth [d] of the order [ts], over the
    bounded inner levels [rest]; none of its termination functions fires. *)
Variables (d : nat) (t : Times).
Variables (rest : list (Times * LoopStructure W)) (ts : list Times).
Variable lp : LoopStructure W.
Hypothesis ts_distinct : NoDup ts.
Hypothesis ts_level : ts !! d = Some t.
Hypothesis ts_inner : drop (S d) ts = rest.*1.
Hypothesis rest_bounded : Forall bounded rest.
Hypothesis lp_quiet : quiet (t, lp).
Implicit Types (m : Machine W) (s : Stepper W).

(** A step of [n] iterations is armed for the level, and nothing else is
    armed or pending. *)
Definition stepArmed m (n : Z) : Prop :=
  StopFlag (stp m) = false /\ StopNext (stp m) = true
  /\ StopLevel (stp m) = t /\ StepIterations (stp m) = n
  /\ internalStop (stp m) = false /\ lastStoppedLevel (stp m) = -1.

(** The level is about to start the iteration of counter value [c], with
    the inner levels at rest. *)
Definition poised m (c : Z) : Prop :=
  stackIs m ts /\ getLoop t m = Some (setCurLoop c lp) /\ atRest m rest.

Lemma LoopsOf_counted s : LoopsOf (counted s) = LoopsOf s.
Proof. unfold counted. cbn. by destruct (_ <=? 0). Qed.

Lemma Mode_counted s : Mode (counted s) = Mode s.
Proof. unfold counted. cbn. by destruct (_ <=? 0). Qed.

Lemma curStack_same_loops m m' :
  LoopsOf (stp m') = LoopsOf (stp m) -> Mode (stp m') = Mode (stp m) ->
  curStack m' = curStack m.
Proof. intros HL HM. unfold curStack. by rewrite HL, HM. Qed.

Lemma poised_same_loops m m' c :
  LoopsOf (stp m') = LoopsOf (stp m) -> Mode (stp m') = Mode (stp m) ->
  poised m c -> poised m' c.
Proof.
  intros HL HM (Hst & Hget & Hrest).
  pose proof (curStack_same_loops m m' HL HM) as Hcur.
  assert (Hg : forall t', getLoop t' m' = getLoop t' m)
    by (intros t'; unfold getLoop; by rewrite Hcur).
  split; [|split].
  - destruct Hst as (st & Hst & Ho). exists st. by rewrite Hcur.
  - by rewrite Hg.
  - unfold atRest in *. eapply Forall_impl; [exact Hrest|].
    intros [t' lp'] [? ?]. by rewrite Hg.
Qed.

Lemma loopHead_counted lp' m n :
  stepArmed m n ->
  loopHead d t lp' m
  = Proceed (callAll t OnStartL (OnStart lp') (on_stp counted m)).
Proof.
  intros (Hf & Hn & Hl & Hs & Hi & Hlast).
  destruct m as [[sf sn sl si lm mode lsl ist] w tr]. cbn in *. subst.
  unfold loopHead, counted, on_stp. cbn.
  rewrite bool_decide_eq_true_2 by done. cbn.
  destruct (wrap64 (n - 1) <=? 0); cbn;
    destruct (Z.leb_spec (-1) (Z.of_nat d)) as [_|?]; try lia; reflexivity.
Qed.

Lemma unarmed_counted m n :
  stepArmed m n -> unarmed (on_stp counted m) rest.*1.
Proof.
  intros (Hf & Hn & Hl & Hs & Hi & Hlast).
  destruct m as [[sf sn sl si lm mode lsl ist] w tr]. cbn in *. subst.
  unfold unarmed, counted, on_stp. cbn.
  destruct (wrap64 (n - 1) <=? 0); cbn; (split; [done|split; [done|]]);
    right; eapply level_not_inner; eauto.
Qed.

(** One iteration of the level under the armed step. *)
Lemma step_turn (fuel : nat) m c n :
  poised m c -> stepArmed m n ->
  loopCond (mkCtr c (Max (Counter lp))) = true ->
  - 2 ^ 63 <= c -> c + 1 < 2 ^ 63 ->
  (fuelFor rest <= fuel)%nat ->
  exists m' ev,
    forLoop rangeOrder (S fuel) d t m = forLoop rangeOrder fuel d t m'
    /\ stp m' = setCurStepper t (c + 1) (counted (stp m))
    /\ fired m' = fired m ++ ev
    /\ (forall l i, plain l = true ->
          timesFired (Called t l i) ev
          = if decide (i < length (hooksOf lp l))%nat then 1%nat else 0%nat).
Proof.
  intros Hpoised Harmed Hcond Hlo Hhi Hfuel.
  pose proof Hpoised as (Hst & Hget & Hrest).
  rewrite forLoop_unfold, Hget. cbn [Counter setCurLoop] in *. rewrite Hcond.
  rewrite (loopHead_counted _ m n Harmed). cbn [OnStart setCurLoop].
  set (m0 := on_stp counted m).
  assert (Hp0 : poised m0 c).
  { apply (poised_same_loops m); [apply LoopsOf_counted|apply Mode_counted|done]. }
  set (m1 := callAll t OnStartL (OnStart lp) m0).
  destruct (fired_phaseLogic t (setCurLoop c lp) m1) as (pe & Hpe & Hphase).
  set (m2 := phaseLogic t (setCurLoop c lp) m1) in *.
  assert (Hs2 : stp m2 = stp m0) by (unfold m2; by rewrite stp_phaseLogic).
  destruct Hp0 as (Hst0 & Hget0 & Hrest0).
  destruct (run_bounded rangeOrder rangeOrder_perm rest (S d) m2 ts
              (stackIs_stp_eq _ _ _ Hs2 Hst0) ts_distinct ts_inner
              (atRest_stp_eq _ _ _ Hs2 Hrest0) rest_bounded
              (unarmed_stp_eq _ _ _ Hs2 (unarmed_counted m n Harmed))
              fuel Hfuel)
    as (m3 & evi & Hrun & Hs3 & Hf3 & Ht3 & _).
  rewrite Hrun.
  assert (Hs3' : stp m3 = stp m0) by (by rewrite Hs3).
  rewrite (getLoop_stp_eq t m0 m3 Hs3'), Hget0.
  unfold loopTail. cbn [Main OnEnd IsDone Counter Cur setCurLoop].
  set (m4 := callAll t OnEndL (OnEnd lp) (callAll t MainL (Main lp) m3)).
  pose proof (loopTail_quiet rangeOrder rangeOrder_perm t lp m4 lp_quiet)
    as Hno.
  destruct (fired_testDone t (rangeOrder (IsDone lp)) m4) as (te & Hte & Htt).
  destruct (testDone t (rangeOrder (IsDone lp)) m4) as [r m5] eqn:Htd.
  cbn [fst snd] in *. subst r.
  assert (Hs5 : stp m5 = stp m0).
  { change m5 with (false, m5).2. rewrite <- Htd, stp_testDone. done. }
  rewrite wrap64_id by (unfold int_ok; lia).
  exists (setCur t (c + 1) m5).
  exists (calls t OnStartL (OnStart lp) ++ pe ++ evi
          ++ calls t MainL (Main lp) ++ calls t OnEndL (OnEnd lp) ++ te).
  split; [reflexivity|]. split; [|split].
  - cbn [stp setCur on_stp]. by rewrite Hs5.
  - cbn [fired setCur on_stp]. rewrite Hte. unfold m4.
    rewrite !fired_callAll, Hf3, Hpe. unfold m1.
    rewrite fired_callAll, <- !app_assoc. reflexivity.
  - intros l i Hl. rewrite !timesFired_app.
    rewrite (timesFired_phase _ pe Hphase) by (simpl; congruence).
    rewrite (timesFired_called_tested t l i t te Htt).
    rewrite (timesFired_other_time _ evi _ Ht3)
      by (cbn; eapply level_not_inner; eauto).
    pose proof (timesFired_own t lp t l i Hl) as Hown.
    destruct (decide (i < length (hooksOf lp l))%nat),
      (decide (t = t /\ (i < length (hooksOf lp l))%nat)); lia || tauto.
Qed.






Lemma poised_turn m m' c :
  poised m c -> stp m' = setCurStepper t (c + 1) (counted (stp m)) ->
  poised m' (c + 1).
Proof.
  intros Hp Hs.
  assert (Hp0 : poised (on_stp counted m) c).
  { apply (poised_same_loops m); [apply LoopsOf_counted|apply Mode_counted|done]. }
  destruct Hp0 as (Hst & Hget & Hrest).
  assert (Hs' : stp m' = stp (setCur t (c + 1) (on_stp counted m))) by done.
  split; [|split].
  - apply (stackIs_stp_eq _ _ _ Hs'). by apply stackIs_setCur.
  - rewrite (getLoop_stp_eq _ _ _ Hs'), getLoop_setCur_eq, Hget. done.
  - apply (atRest_stp_eq _ _ _ Hs').
    apply atRest_setCur; [eapply level_not_inner; eauto|done].
Qed.




Lemma counted_out s n :
  StepIterations s = n -> - 2 ^ 63 < n <= 1 ->
  counted s
  = set_lastStoppedLevel (-1)
      (set_StopFlag true (set_StopNext false (set_StepIterations (n - 1) s))).
Proof.
  intros Hs Hn. unfold counted. rewrite Hs.
  cbn [StepIterations set_StepIterations].
  rewrite wrap64_id by (unfold int_ok; lia).
  destruct (Z.leb_spec (n - 1) 0); [done|lia].
Qed.

(** X10: a step armed with a count of one, of zero or below still runs one
    iteration of its level before the stop: the count is tested only after
    it has been decreased, at the head of an iteration that then runs. *)
Theorem step_of_none_runs_one (fuel : nat) m c n :
  poised m c -> stepArmed m n -> - 2 ^ 63 < n <= 1 ->
  Max (Counter lp) < 0 \/ c + 1 < Max (Counter lp) ->
  0 <= c -> c + 1 < 2 ^ 63 ->
  (fuelFor rest + 3 <= fuel)%nat ->
  exists m' ev,
    runLevel rangeOrder fuel d m = Done (false, m')
    /\ getLoop t m' = Some (setCurLoop (c + 1) lp)
    /\ StepIterations (stp m') = n - 1
    /\ StopNext (stp m') = false
    /\ lastStoppedLevel (stp m') = Z.of_nat d
    /\ fired m' = fired m ++ ev
    /\ (forall l i, plain l = true ->
          timesFired (Called t l i) ev
          = if decide (i < length (hooksOf lp l))%nat then 1%nat else 0%nat).
Proof.
  intros Hp Harmed Hn Hmax Hlo Hhi Hfuel.
  destruct fuel as [|[|[|fuel]]]; try lia.
  pose proof Hp as (Hst & Hget & _).
  rewrite (runLevel_enter rangeOrder _ m d t _
             (stackIs_levelIs _ _ _ _ _ Hst ts_level Hget)).
  destruct (step_turn (S fuel) m c n Hp Harmed)
    as (m1 & ev & Hfor & Hs1 & Hf1 & Hc1);
    [by apply (loopCond_open c _ 1)|lia..|].
  pose proof (poised_turn m m1 c Hp Hs1) as (_ & Hget1 & _).
  destruct Harmed as (Hf & Hnx & Hl & Hs & Hi & Hlast).
  rewrite (counted_out _ _ Hs Hn) in Hs1.
  rewrite Hfor.
  rewrite (forLoop_halts rangeOrder fuel d t m1 _ Hget1).
  - assert (Hs' : stp (haltAt d t m1)
                  = set_StopFlag false
                      (set_lastStoppedLevel (Z.of_nat d)
                         (set_internalStop true (stp m1)))).
    { unfold haltAt. rewrite Hs1.
      cbn [StopFlag StopLevel set_StopFlag set_lastStoppedLevel setCurStepper
           set_LoopsOf set_StopNext set_StepIterations andb].
      rewrite bool_decide_eq_true_2 by done. cbn [stp on_stp].
      by rewrite Hs1. }
    exists (haltAt d t m1), ev. split; [done|].
    split; [|split; [|split; [|split; [|split]]]].
    + rewrite <- Hget1. unfold getLoop, curStack. by rewrite Hs'.
    + by rewrite Hs', Hs1.
    + by rewrite Hs', Hs1.
    + by rewrite Hs'.
    + by rewrite fired_haltAt.
    + exact Hc1.
  - cbn [Counter setCurLoop]. apply (loopCond_open _ _ 0). lia.
  - unfold interruptionMarked. rewrite Hs1. cbn. rewrite Hl.
    rewrite bool_decide_eq_true_2 by done. apply orb_true_r.
Qed.

End Stepping.

Section StepRequest.

Context {W : Type}.

Lemma requestStep_stepArmed t (n : Z) (m : Machine W) :
  idle m -> stepArmed t (on_stp (requestStep t n) m) n.
Proof. intros (? & ? & ? & ?). unfold stepArmed. cbn. repeat split; done. Qed.

End StepRequest.


(** ** The counter *)

(** X1: the loop condition of [runLevel] and [IsOverMax] are each other's
    negation, except for a counter of maximum 0 that is not negative: there
    the loop does not run although the counter is not over its maximum. *)
Theorem loopCond_IsOverMax (ct : Ctr) :
  loopCond ct
  = negb (IsOverMax ct) && negb ((Max ct =? 0) && (0 <=? Cur ct)).
Proof.
  unfold loopCond, IsOverMax.
  destruct (Z.ltb_spec (Cur ct) (Max ct)), (Z.ltb_spec (Max ct) 0),
    (Z.ltb_spec 0 (Max ct)), (Z.leb_spec (Max ct) (Cur ct)),
    (Z.eqb_spec (Max ct) 0), (Z.leb_spec 0 (Cur ct)); cbn; lia || reflexivity.
Qed.

(** X2: [Set] reports a change exactly when the value differs, always leaves
    the counter at the value, never touches the maximum, and a second [Set]
    to the same value reports no change and changes nothing. *)
Theorem Set_twice (ct : Ctr) (cur : Z) :
  (Set_ ct cur).2 = negb (Cur ct =? cur)
  /\ Cur (Set_ ct cur).1 = cur
  /\ Max (Set_ ct cur).1 = Max ct
  /\ Set_ (Set_ ct cur).1 cur = ((Set_ ct cur).1, false).
Proof.
  unfold Set_. destruct (Z.eqb_spec (Cur ct) cur) as [Heq|Hne]; cbn.
  - rewrite <- Heq, Z.eqb_refl. auto.
  - rewrite Z.eqb_refl. auto.
Qed.

(** X3: counting up from 0 with [Incr], a counter of positive maximum is over
    its maximum for the first time after exactly that many increments. *)
Theorem Incr_reaches_max (mx : Z) (n : nat) :
  0 < mx < 2 ^ 63 -> Z.of_nat n <= mx ->
  Nat.iter n Incr (mkCtr 0 mx) = mkCtr (Z.of_nat n) mx
  /\ IsOverMax (Nat.iter n Incr (mkCtr 0 mx)) = (Z.of_nat n =? mx).
Proof.
  intros Hmx Hn.
  assert (Hiter : Nat.iter n Incr (mkCtr 0 mx) = mkCtr (Z.of_nat n) mx).
  { induction n as [|n IH]; [done|].
    change (Nat.iter (S n) Incr (mkCtr 0 mx))
      with (Incr (Nat.iter n Incr (mkCtr 0 mx))).
    rewrite IH by lia. unfold Incr. cbn [Cur Max].
    rewrite wrap64_id by (unfold int_ok; lia). f_equal. lia. }
  split; [exact Hiter|]. rewrite Hiter. unfold IsOverMax. cbn [Cur Max].
  destruct (Z.ltb_spec 0 mx), (Z.leb_spec mx (Z.of_nat n)),
    (Z.eqb_spec (Z.of_nat n) mx); cbn; lia || reflexivity.
Qed.


(** ** The phase schedule in general *)

(** The sum of the durations of the phases. *)
Definition scheduleLength {W} (phases : list (Phase W)) : Z :=
  foldr (fun ph acc => Duration ph + acc) 0 phases.

Section Schedule.

Context {W : Type}.
Implicit Types (m : Machine W) (lp : LoopStructure W) (t : Times).

Lemma phaseLoop_past t cur phases : forall p amount m,
  0 <= amount -> cur < 2 ^ 63 ->
  Forall (fun ph => 0 < Duration ph) phases ->
  amount + scheduleLength phases <= cur ->
  phaseLoop t cur p amount phases m = m.
Proof.
  induction phases as [|ph rest IH]; intros p amount m Ham Hcur Hpos Hlen;
    cbn [phaseLoop]; [done|].
  apply Forall_cons in Hpos as [Hd Hpos]. cbn [scheduleLength foldr] in Hlen.
  fold (scheduleLength rest) in Hlen.
  assert (Hrest : 0 <= scheduleLength rest).
  { clear -Hpos. induction Hpos as [|x l Hx _ IHl]; cbn; [done|].
    fold (scheduleLength l). lia. }
  unfold phaseStep.
  rewrite (wrap64_id (amount + Duration ph)) by (unfold int_ok; lia).
  rewrite !wrap64_id by (unfold int_ok; lia).
  destruct (Z.eqb_spec cur (amount + Duration ph - Duration ph)); [lia|].
  destruct (Z.ltb_spec cur (amount + Duration ph)); [lia|].
  destruct (Z.eqb_spec cur (amount + Duration ph - 1)); [lia|].
  apply IH; [lia|done|done|lia].
Qed.

(** X5: past the end of the schedule nothing happens: with phases of positive
    durations and a counter at or beyond their sum, [phaseLogic] leaves the
    machine as it is. *)
Theorem phaseLogic_past_schedule t lp m :
  Forall (fun ph => 0 < Duration ph) (Phases lp) ->
  scheduleLength (Phases lp) <= Cur (Counter lp) < 2 ^ 63 ->
  phaseLogic t lp m = m.
Proof.
  intros Hpos [Hlen Hcur]. apply phaseLoop_past; [lia|done|done|lia].
Qed.

End Schedule.


(** The phase a phase hook list belongs to, its functions, and when the
    code calls them: [off] is the sum of the durations of the phases before,
    [dur] the duration of the phase. *)
Definition phaseIndex (l : HookList) : nat :=
  match l with
  | PhaseStartL p | OnMillisecondEndL p | PhaseEndL p => p
  | _ => 0%nat
  end.

Definition phaseHooks {W} (l : HookList) (ph : Phase W) : list (NamedFunc W) :=
  match l with
  | PhaseStartL _ => PhaseStart ph
  | OnMillisecondEndL _ => OnMillisecondEnd ph
  | PhaseEndL _ => PhaseEnd ph
  | _ => []
  end.

Definition due (l : HookList) (cur off dur : Z) : bool :=
  match l with
  | PhaseStartL _ => cur =? off
  | OnMillisecondEndL _ => cur <? off + dur
  | PhaseEndL _ => cur =? off + dur - 1
  | _ => false
  end.

Section Due.

Context {W : Type}.
Implicit Types (lp : LoopStructure W) (t : Times) (ph : Phase W).

Lemma scheduleLength_nonneg (phases : list (Phase W)) :
  Forall (fun ph => 0 < Duration ph) phases -> 0 <= scheduleLength phases.
Proof.
  induction 1 as [|x l Hx _ IHl]; cbn; [done|]. fold (scheduleLength l). lia.
Qed.

Lemma phaseLoopTrace_later t cur (phases : list (Phase W)) l i :
  forall p amount,
  plain l = false -> (phaseIndex l < p)%nat ->
  timesFired (Called t l i) (phaseLoopTrace t cur p amount phases) = 0%nat.
Proof.
  induction phases as [|ph rest IH]; intros p amount Hl Hlt;
    cbn [phaseLoopTrace]; [done|].
  rewrite !timesFired_app, (IH (S p)) by (done || lia).
  assert (Hother : forall l' (fs : list (NamedFunc W)),
            phaseIndex l' = p -> plain l' = false ->
            timesFired (Called t l i) (calls t l' fs) = 0%nat).
  { intros l' fs Hp Hl'. apply timesFired_calls_other.
    intros [= ->]. lia. }
  destruct (cur =? _), (cur <? _), (cur =? _);
    rewrite ?Hother, ?timesFired_nil by done; reflexivity.
Qed.

Lemma phaseLoopTrace_due t cur (phases : list (Phase W)) l i :
  forall (k p : nat) amount ph,
  plain l = false -> phaseIndex l = (p + k)%nat ->
  phases !! k = Some ph -> (i < length (phaseHooks l ph))%nat ->
  0 <= amount -> Forall (fun ph => 0 < Duration ph) phases ->
  amount + scheduleLength phases < 2 ^ 63 ->
  timesFired (Called t l i) (phaseLoopTrace t cur p amount phases)
  = if due l cur (amount + scheduleLength (take k phases)) (Duration ph)
    then 1%nat else 0%nat.
Proof.
  induction phases as [|ph0 rest IH]; intros k p amount ph Hl Hidx Hk Hi Ham
    Hpos Hlen; [done|].
  apply Forall_cons in Hpos as [Hd Hpos].
  pose proof (scheduleLength_nonneg rest Hpos) as Hrest.
  cbn [scheduleLength foldr] in Hlen. fold (scheduleLength rest) in Hlen.
  cbn [phaseLoopTrace]. rewrite !timesFired_app.
  rewrite (wrap64_id (amount + Duration ph0)) by (unfold int_ok; lia).
  rewrite !wrap64_id by (unfold int_ok; lia).
  replace (amount + Duration ph0 - Duration ph0) with amount by lia.
  destruct k as [|k].
  - injection Hk as ->. rewrite Nat.add_0_r in Hidx.
    rewrite (phaseLoopTrace_later t cur rest l i (S p)) by (done || lia).
    cbn [take scheduleLength foldr]. rewrite Z.add_0_r.
    destruct l as [| | |q|q|q]; try discriminate;
      cbn [phaseIndex phaseHooks due] in *; subst q;
      destruct (cur =? amount), (cur <? amount + Duration ph),
        (cur =? amount + Duration ph - 1);
      rewrite ?timesFired_calls, ?timesFired_nil;
      rewrite ?timesFired_calls_other by congruence;
      repeat case_decide; lia.
  - cbn [lookup list_lookup] in Hk.
    rewrite (IH k (S p) (amount + Duration ph0) ph)
      by (done || lia).
    cbn [take scheduleLength foldr]. fold (scheduleLength (take k rest)).
    replace (amount + Duration ph0 + scheduleLength (take k rest))
      with (amount + (Duration ph0 + scheduleLength (take k rest))) by lia.
    assert (Hother : forall l' (fs : list (NamedFunc W)),
            phaseIndex l' = p -> plain l' = false ->
              timesFired (Called t l i) (calls t l' fs) = 0%nat).
    { intros l' fs Hp Hl'. apply timesFired_calls_other.
      intros [= ->]. lia. }
    destruct (cur =? amount), (cur <? amount + Duration ph0),
      (cur =? amount + Duration ph0 - 1);
      rewrite ?Hother, ?timesFired_nil by done; reflexivity.
Qed.

(** X6: when the code calls the hooks of a phase, for any schedule of
    phases of positive durations: [phaseLogic] calls the start hooks of phase
    [p] at the first counter value of the phase, its end hooks at the last
    one, and its tick hooks at every counter value below the end of the
    phase, those before the start of the phase included. *)
Theorem phase_hooks_due t lp (m : Machine W) (l : HookList) (p i : nat) ph :
  plain l = false -> phaseIndex l = p ->
  Phases lp !! p = Some ph -> (i < length (phaseHooks l ph))%nat ->
  Forall (fun ph => 0 < Duration ph) (Phases lp) ->
  scheduleLength (Phases lp) < 2 ^ 63 ->
  timesFired (Called t l i) (fired (phaseLogic t lp m))
  = (timesFired (Called t l i) (fired m)
     + if due l (Cur (Counter lp)) (scheduleLength (take p (Phases lp)))
            (Duration ph)
       then 1 else 0)%nat.
Proof.
  intros Hl Hidx Hp Hi Hpos Hlen.
  rewrite fired_phaseLogic_trace, timesFired_app. unfold phaseTrace.
  rewrite (phaseLoopTrace_due t _ (Phases lp) l i p 0 0 ph)
    by (done || lia).
  by rewrite Z.add_0_l.
Qed.

End Due.


(** ** Requests that do not concern the stack, and runs in a row *)

Section Elsewhere.

Context {W : Type}.
Variable rangeOrder : gmap string (Pred W) -> list (string * Pred W).
Hypothesis rangeOrder_perm : forall ps, rangeOrder ps ≡ₚ map_to_list ps.
Implicit Types (m : Machine W) (lvls : list (Times * LoopStructure W)).

Lemma Run_bounded lvls m (fuel : nat) :
  stackIs m lvls.*1 -> NoDup lvls.*1 -> atRest m lvls ->
  Forall bounded lvls ->
  lastStoppedLevel (stp m) = -1 ->
  (StopFlag (stp m) = false /\ StopNext (stp m) = false)
  \/ StopLevel (stp m) ∉ lvls.*1 ->
  (fuelFor lvls <= fuel)%nat ->
  exists m' ev,
    Run rangeOrder fuel m = Done m'
    /\ stp m' = set_internalStop false (stp m)
    /\ fired m' = fired m ++ ev
    /\ (Forall quiet lvls -> forall t l i, plain l = true ->
          timesFired (Called t l i) ev = expected lvls t l i).
Proof.
  intros Hst Hnd Hrest Hb Hl Harm Hfuel.
  set (m0 := on_stp (set_internalStop false) m).
  assert (Hg : forall t, getLoop t m0 = getLoop t m) by reflexivity.
  assert (Hst0 : stackIs m0 lvls.*1).
  { destruct Hst as (st & ? & ?). by exists st. }
  assert (Hrest0 : atRest m0 lvls).
  { unfold atRest in *. eapply Forall_impl; [exact Hrest|].
    intros [t lp] [? ?]. by rewrite Hg. }
  assert (Hun : unarmed m0 lvls.*1) by (unfold unarmed, m0; cbn; auto).
  destruct (run_bounded rangeOrder rangeOrder_perm lvls 0%nat m0 lvls.*1
              Hst0 Hnd eq_refl Hrest0 Hb Hun fuel Hfuel)
    as (m' & ev & Hrun & Hs' & Hf' & _ & Hc & _).
  exists m', ev. unfold Run. fold m0. rewrite Hrun. done.
Qed.

(** X7: a stop or a step armed for a time scale that is not in the stack of the
    current mode is not taken and not used up: the run of bounded levels
    goes to its end as if nothing were armed, and the flags, the step count
    and the counters are afterwards as they were before. *)
Theorem armed_elsewhere_is_ignored lvls m (fuel : nat) :
  stackIs m lvls.*1 -> NoDup lvls.*1 -> atRest m lvls ->
  Forall bounded lvls ->
  lastStoppedLevel (stp m) = -1 ->
  StopLevel (stp m) ∉ lvls.*1 ->
  (fuelFor lvls <= fuel)%nat ->
  exists m' ev,
    Run rangeOrder fuel m = Done m'
    /\ stp m' = set_internalStop false (stp m)
    /\ fired m' = fired m ++ ev
    /\ (Forall quiet lvls -> forall t l i, plain l = true ->
          timesFired (Called t l i) ev = expected lvls t l i).
Proof.
  intros Hst Hnd Hrest Hb Hl Harm Hfuel.
  apply Run_bounded; auto.
Qed.

(** X8: a run that went to its end leaves the stepper ready for the next one:
    two runs in a row of bounded levels both end, the second from the
    stepper the first one started from, and with the termination functions
    quiet each hook is called in both together twice as often as in one. *)
Theorem bounded_run_twice lvls m (fuel : nat) :
  stackIs m lvls.*1 -> NoDup lvls.*1 -> atRest m lvls ->
  Forall bounded lvls ->
  StopFlag (stp m) = false -> StopNext (stp m) = false ->
  lastStoppedLevel (stp m) = -1 ->
  (fuelFor lvls <= fuel)%nat ->
  exists m1 m2 ev,
    Run rangeOrder fuel m = Done m1
    /\ Run rangeOrder fuel m1 = Done m2
    /\ stp m1 = set_internalStop false (stp m)
    /\ stp m2 = stp m1
    /\ fired m2 = fired m ++ ev
    /\ (Forall quiet lvls -> forall t l i, plain l = true ->
          timesFired (Called t l i) ev = (2 * expected lvls t l i)%nat).
Proof.
  intros Hst Hnd Hrest Hb Hf Hn Hl Hfuel.
  destruct (Run_bounded lvls m fuel) as (m1 & ev1 & Hrun1 & Hs1 & Hf1 & Hc1);
    auto.
  assert (Hs1' : stp m1 = stp (on_stp (set_internalStop false) m)) by done.
  destruct (Run_bounded lvls m1 fuel) as (m2 & ev2 & Hrun2 & Hs2 & Hf2 & Hc2);
    auto.
  - apply (stackIs_stp_eq _ _ _ Hs1'). destruct Hst as (st & ? & ?).
    by exists st.
  - apply (atRest_stp_eq _ _ _ Hs1'). unfold atRest in *.
    eapply Forall_impl; [exact Hrest|]. by intros [t lp] [? ?].
  - by rewrite Hs1.
  - left. by rewrite Hs1.
  - exists m1, m2, (ev1 ++ ev2). split; [done|]. split; [done|].
    split; [done|]. split; [by rewrite Hs2, Hs1|].
    split; [by rewrite Hf2, Hf1, <- app_assoc|].
    intros Hq t l i Hpl.
    rewrite timesFired_app, (Hc1 Hq t l i Hpl), (Hc2 Hq t l i Hpl). lia.
Qed.

End Elsewhere.


(** ** A stop at the outermost level *)

Section TopStop.

Context {W : Type}.
Variable rangeOrder : gmap string (Pred W) -> list (string * Pred W).
Implicit Types (m : Machine W) (lp : LoopStructure W) (t : Times).

(** The loop uses the machine it is entered with only to look up its loop
    and in the head of the first iteration. *)
Lemma forLoop_same_head (fuel : nat) d t m m' lp :
  getLoop t m = Some lp -> getLoop t m' = Some lp ->
  loopCond (Counter lp) = true ->
  loopHead d t lp m = loopHead d t lp m' ->
  forLoop rangeOrder fuel d t m = forLoop rangeOrder fuel d t m'.
Proof.
  intros Hget Hget' Hcond Hhead. destruct fuel as [|fuel]; [done|].
  by rewrite !forLoop_unfold, Hget, Hget', Hcond, Hhead.
Qed.

(** X9: a stop armed for the outermost level is taken before anything is
    called, and the run that resumes is the run that would have taken place
    without the stop: resumption at the outermost level is transparent. *)
Theorem stop_at_top_resumes_cleanly (fuel : nat) m t lp :
  levelIs m 0 t lp ->
  loopCond (Counter lp) = true ->
  StopFlag (stp m) = true -> StopLevel (stp m) = t ->
  lastStoppedLevel (stp m) = -1 ->
  exists m1,
    Run rangeOrder (S (S fuel)) m = Done m1
    /\ fired m1 = fired m /\ world m1 = world m
    /\ LoopsOf (stp m1) = LoopsOf (stp m)
    /\ forall fuel' : nat,
         Run rangeOrder fuel' m1
         = Run rangeOrder fuel' (on_stp (set_StopFlag false) m).
Proof.
  intros Hlev Hcond Hflag Hlevel Hlast.
  set (m0 := on_stp (set_internalStop false) m).
  assert (Hlev0 : levelIs m0 0 t lp).
  { destruct Hlev as (st & ? & ? & ?). by exists st. }
  exists (haltAt 0 t m0).
  assert (Hmark : StopFlag (stp m0) && bool_decide (t = StopLevel (stp m0))
                  = true).
  { unfold m0. cbn. by rewrite Hflag, Hlevel, bool_decide_eq_true_2. }
  split; [|split; [|split; [|split]]].
  - unfold Run. fold m0.
    rewrite (runLevel_enter rangeOrder _ m0 0 t lp Hlev0).
    rewrite (forLoop_halts rangeOrder fuel 0 t m0 lp
               (levelIs_getLoop _ _ _ _ Hlev0) Hcond); [done|].
    unfold interruptionMarked. rewrite Hmark. apply orb_true_r.
  - by rewrite fired_haltAt.
  - unfold haltAt. by rewrite Hmark.
  - unfold haltAt. by rewrite Hmark.
  - intros fuel'. unfold Run.
    set (m1 := on_stp (set_internalStop false) (haltAt 0 t m0)).
    set (m2 := on_stp (set_internalStop false) (on_stp (set_StopFlag false) m)).
    assert (Hm1 : m1 = on_stp (set_lastStoppedLevel 0) m2).
    { unfold m1, m2, haltAt. rewrite Hmark. reflexivity. }
    assert (Hlev2 : levelIs m2 0 t lp).
    { destruct Hlev as (st & ? & ? & ?). by exists st. }
    assert (Hlev1 : levelIs m1 0 t lp).
    { rewrite Hm1. destruct Hlev2 as (st & ? & ? & ?). by exists st. }
    assert (Hrun : runLevel rangeOrder fuel' 0 m1
                   = runLevel rangeOrder fuel' 0 m2).
    { destruct fuel' as [|fuel']; [done|].
      rewrite (runLevel_enter rangeOrder _ m1 0 t lp Hlev1).
      rewrite (runLevel_enter rangeOrder _ m2 0 t lp Hlev2).
      apply (forLoop_same_head _ _ _ _ _ lp);
        [by apply (levelIs_getLoop _ 0)|by apply (levelIs_getLoop _ 0)|done|].
      rewrite Hm1. unfold m2, loopHead.
      destruct m as [[sf sn sl si lm mode lsl ist] w tr]. cbn in Hlast.
      subst lsl. cbn.
      destruct (sn && bool_decide (t = sl)); cbn; [|reflexivity].
      destruct (wrap64 (si - 1) <=? 0); reflexivity. }
    by rewrite Hrun.
Qed.

End TopStop.


(** ** Init *)

Section Initialisation.

Context {W : Type}.

(** [etime.Run] and [etime.Train]. *)
Variable etimeRun : Times.
Variable etimeTrain : Modes.

Variable rangeOrder : gmap string (Pred W) -> list (string * Pred W).
Hypothesis rangeOrder_perm : forall ps, rangeOrder ps ≡ₚ map_to_list ps.

(** X11: [Init] makes a stepper on which nothing is armed ready to run, whatever
    an earlier interruption left in it: over a manager whose stack for the
    training mode has bounded levels with their counters at 0, [Init]
    followed by [Run] goes to the end and leaves manager and flags as [Init]
    set them. *)
Theorem Init_then_Run (loopman : LoopManager W) (s : Stepper W) (st : Stack W)
    (lvls : list (Times * LoopStructure W)) (w : W) (tr : list Event)
    (fuel : nat) :
  Stacks loopman !! etimeTrain = Some st -> Order st = lvls.*1 ->
  NoDup lvls.*1 ->
  Forall (fun tl => Loops st !! tl.1 = Some tl.2 /\ Cur (Counter tl.2) = 0)
    lvls ->
  Forall bounded lvls ->
  StopFlag s = false -> StopNext s = false ->
  (fuelFor lvls <= fuel)%nat ->
  exists m' ev,
    Run rangeOrder fuel
      (mkMachine (Init etimeRun etimeTrain loopman s) w tr) = Done m'
    /\ stp m' = set_internalStop false (Init etimeRun etimeTrain loopman s)
    /\ fired m' = tr ++ ev
    /\ (Forall quiet lvls -> forall t l i, plain l = true ->
          timesFired (Called t l i) ev = expected lvls t l i).
Proof.
  intros Hst Hord Hnd Hrest Hb Hf Hn Hfuel.
  apply (Run_bounded rangeOrder rangeOrder_perm lvls
           (mkMachine (Init etimeRun etimeTrain loopman s) w tr) fuel);
    try done.
  - exists st. split; [|done]. unfold curStack. cbn. exact Hst.
  - unfold atRest. eapply Forall_impl; [exact Hrest|].
    intros [t lp] [Hlp Hcur]. split; [|done].
    unfold getLoop, curStack. cbn. rewrite Hst. exact Hlp.
  - left. by cbn.
Qed.

End Initialisation.


(** ** The set-up of a stepper *)

(** The set-up of a stepper: its mode and its loop manager with every
    counter put to 0, that is the order of each stack and the hooks,
    termination functions, phases and maximum of each loop. *)
Definition setupOf {W} (s : Stepper W)
    : Modes * gmap Modes (list Times * gmap Times (LoopStructure W)) :=
  (Mode s,
   (fun st => (Order st, setCurLoop 0 <$> Loops st)) <$> Stacks (LoopsOf s)).

Section Setup.

Context {W : Type}.
Variable rangeOrder : gmap string (Pred W) -> list (string * Pred W).
Implicit Types (m : Machine W) (s : Stepper W) (lp : LoopStructure W).

Lemma setupOf_same_loops s s' :
  LoopsOf s' = LoopsOf s -> Mode s' = Mode s -> setupOf s' = setupOf s.
Proof. intros HL HM. unfold setupOf. by rewrite HL, HM. Qed.

Lemma setupOf_setCur t v s : setupOf (setCurStepper t v s) = setupOf s.
Proof.
  unfold setupOf. cbn. f_equal. apply map_eq. intros mode.
  rewrite !lookup_fmap.
  destruct (decide (mode = Mode s)) as [->|Hne];
    [|by rewrite lookup_alter_ne].
  rewrite lookup_alter_eq.
  destruct (Stacks (LoopsOf s) !! Mode s) as [st|]; [|done].
  cbn. f_equal. f_equal. apply map_eq. intros t'.
  rewrite !lookup_fmap.
  destruct (decide (t' = t)) as [->|Hne]; [|by rewrite lookup_alter_ne].
  rewrite lookup_alter_eq.
  destruct (Loops st !! t) as [lp|]; [|done].
  cbn. by rewrite setCurLoop_setCurLoop.
Qed.

Lemma Mode_loopHead d t lp m :
  match loopHead d t lp m with
  | Halt m1 | Proceed m1 => Mode (stp m1) = Mode (stp m)
  end.
Proof.
  unfold loopHead.
  destruct (StopFlag (stp m) && bool_decide (t = StopLevel (stp m)));
    cbn [stp on_stp internalStop set_internalStop set_lastStoppedLevel].
  - done.
  - destruct (internalStop (stp m)); [done|].
    destruct (StopNext (stp m) && bool_decide (t = StopLevel (stp m)));
      cbn [stp on_stp StepIterations set_StepIterations].
    + destruct (wrap64 (StepIterations (stp m) - 1) <=? 0);
        cbn [stp on_stp lastStoppedLevel set_lastStoppedLevel
             set_StepIterations];
        destruct (_ <=? Z.of_nat d); done.
    + destruct (_ <=? Z.of_nat d); done.
Qed.

Lemma setupOf_loopHead d t lp m :
  match loopHead d t lp m with
  | Halt m1 | Proceed m1 => setupOf (stp m1) = setupOf (stp m)
  end.
Proof.
  pose proof (LoopsOf_loopHead d t lp m) as HL.
  pose proof (Mode_loopHead d t lp m) as HM.
  destruct (loopHead d t lp m); by apply setupOf_same_loops.
Qed.

Lemma setupOf_loopTail t lp m :
  setupOf (stp (loopTail rangeOrder t lp m).2) = setupOf (stp m).
Proof.
  unfold loopTail.
  destruct (testDone t (rangeOrder (IsDone lp))
              (callAll t OnEndL (OnEnd lp) (callAll t MainL (Main lp) m)))
    as [r m5] eqn:Htd.
  assert (Hs5 : stp m5 = stp m).
  { change m5 with (r, m5).2. rewrite <- Htd, stp_testDone. done. }
  destruct r; cbn [snd setCur on_stp stp];
    by rewrite setupOf_setCur, Hs5.
Qed.

Lemma setupOf_exitLoop t m r m' :
  Done (exitLoop t m) = Done (r, m') -> setupOf (stp m') = setupOf (stp m).
Proof.
  unfold exitLoop. intros [= _ <-].
  destruct (internalStop (stp m)); [done|]. apply setupOf_setCur.
Qed.

Lemma setupOf_kept_both : forall fuel : nat,
  (forall d m r m', runLevel rangeOrder fuel d m = Done (r, m') ->
                    setupOf (stp m') = setupOf (stp m))
  /\ (forall d t m r m', forLoop rangeOrder fuel d t m = Done (r, m') ->
                         setupOf (stp m') = setupOf (stp m)).
Proof.
  induction fuel as [|fuel [IHrun IHloop]]; [split; intros; discriminate|].
  split.
  - intros d m r m'. rewrite runLevel_unfold.
    destruct (curStack m) as [st|]; [|discriminate].
    destruct (length (Order st) <=? d)%nat; [by intros [= _ <-]|].
    destruct (Order st !! d) as [t|]; [|discriminate].
    apply IHloop.
  - intros d t m r m'. rewrite forLoop_unfold.
    destruct (getLoop t m) as [loop|]; [|discriminate].
    destruct (loopCond (Counter loop)); [|apply setupOf_exitLoop].
    pose proof (setupOf_loopHead d t loop m) as Hhead.
    destruct (loopHead d t loop m) as [m1|m1]; [by intros [= _ <-]|].
    destruct (runLevel rangeOrder fuel (S d) (phaseLogic t loop m1))
      as [[runComplete m3]| |] eqn:Hin; [|discriminate..].
    pose proof (IHrun _ _ _ _ Hin) as H3.
    rewrite stp_phaseLogic, Hhead in H3.
    destruct runComplete.
    2:{ intros Hrest. by rewrite (IHloop _ _ _ _ _ Hrest). }
    destruct (getLoop t m3) as [loop3|]; [|discriminate].
    pose proof (setupOf_loopTail t loop3 m3) as H4.
    destruct (loopTail rangeOrder t loop3 m3) as [out m4]. cbn [snd] in H4.
    destruct out.
    + intros Hex. by rewrite (setupOf_exitLoop _ _ _ _ Hex), H4.
    + intros Hrest. by rewrite (IHloop _ _ _ _ _ Hrest), H4.
Qed.

End Setup.


Section CutInGeneral.

Context {W : Type}.
Variable rangeOrder : gmap string (Pred W) -> list (string * Pred W).
Hypothesis rangeOrder_perm : forall ps, rangeOrder ps ≡ₚ map_to_list ps.

(** X13: a level with one termination function, bounded or not, over bounded
    inner levels: when the function says no after each of the first [n]
    iterations and yes after the next one, and the counter leaves room for
    these iterations, the level is left after exactly [n + 1] iterations,
    with its counter and those of the inner levels at 0; the function has
    then been evaluated [n + 1] times. *)
Theorem termination_cuts_level (d : nat) (t : Times) (name : string)
    (p : Pred W) (rest : list (Times * LoopStructure W)) (ts : list Times)
    (lp : LoopStructure W) (n fuel : nat) (m : Machine W) (c : Z) :
  NoDup ts -> ts !! d = Some t -> drop (S d) ts = rest.*1 ->
  Forall bounded rest ->
  IsDone lp = {[name := p]} ->
  ready t rest ts lp m c ->
  Max (Counter lp) < 0 \/ c + Z.of_nat n < Max (Counter lp) ->
  - 2 ^ 63 <= c -> c + Z.of_nat n < 2 ^ 63 ->
  (forall k, (k < n)%nat ->
     (passAt rangeOrder d t name p rest
        (iterAt rangeOrder d t name p rest k m)).1 = false) ->
  (passAt rangeOrder d t name p rest
     (iterAt rangeOrder d t name p rest n m)).1 = true ->
  (fuelFor rest + n + 2 <= fuel)%nat ->
  exists m' ev,
    runLevel rangeOrder fuel d m = Done (true, m')
    /\ getLoop t m' = Some (setCurLoop 0 lp)
    /\ atRest m' rest
    /\ fired m' = fired m ++ ev
    /\ (forall l i, plain l = true -> (i < length (hooksOf lp l))%nat ->
          timesFired (Called t l i) ev = S n)
    /\ timesFired (Tested t name false) ev = n
    /\ timesFired (Tested t name true) ev = 1%nat.
Proof.
  intros Hnd Hd Hdrop Hb Hdone Hready Hmax Hlo Hhi Hno Hyes Hfuel.
  destruct (level_cut rangeOrder rangeOrder_perm d t name p rest ts lp
              Hnd Hd Hdrop Hb Hdone n fuel m c)
    as (m' & ev & Hrun & Hget & Hrest & Hf & Hc & Hfalse & Htrue); try done.
  exists m', ev. repeat split; try done.
  intros l i Hl Hi. rewrite (Hc l i Hl). by destruct (decide _).
Qed.

End CutInGeneral.


(** ** Without a request there is no interruption *)

(** No stop and no step is armed, and no interruption is marked. *)
Definition calm {W} (s : Stepper W) : Prop :=
  StopFlag s = false /\ StopNext s = false /\ internalStop s = false.

Section Calm.

Context {W : Type}.
Variable rangeOrder : gmap string (Pred W) -> list (string * Pred W).
Implicit Types (m : Machine W) (s : Stepper W) (lp : LoopStructure W).

Lemma calm_setCur t v s : calm s -> calm (setCurStepper t v s).
Proof. unfold calm. cbn. tauto. Qed.

Lemma loopHead_calm d t lp m :
  calm (stp m) ->
  exists m1, loopHead d t lp m = Proceed m1 /\ calm (stp m1).
Proof.
  intros (Hf & Hn & Hi). unfold loopHead. rewrite Hf. cbn [andb].
  rewrite Hi, Hn. cbn [andb].
  destruct (_ <=? Z.of_nat d); eexists; (split; [reflexivity|]);
    unfold calm; cbn; auto.
Qed.

Lemma calm_loopTail t lp m :
  calm (stp m) -> calm (stp (loopTail rangeOrder t lp m).2).
Proof.
  intros Hc. unfold loopTail.
  destruct (testDone t (rangeOrder (IsDone lp))
              (callAll t OnEndL (OnEnd lp) (callAll t MainL (Main lp) m)))
    as [r m5] eqn:Htd.
  assert (Hs5 : stp m5 = stp m).
  { change m5 with (r, m5).2. rewrite <- Htd, stp_testDone. done. }
  destruct r; cbn [snd setCur on_stp stp];
    apply calm_setCur; by rewrite Hs5.
Qed.

Lemma calm_exitLoop t m r m' :
  calm (stp m) -> Done (exitLoop t m) = Done (r, m') ->
  r = true /\ calm (stp m').
Proof.
  intros Hc. unfold exitLoop. intros [= <- <-]. split; [done|].
  destruct (internalStop (stp m)); [done|]. by apply calm_setCur.
Qed.

Lemma calm_kept_both : forall fuel : nat,
  (forall d m r m', calm (stp m) ->
     runLevel rangeOrder fuel d m = Done (r, m') ->
     r = true /\ calm (stp m'))
  /\ (forall d t m r m', calm (stp m) ->
        forLoop rangeOrder fuel d t m = Done (r, m') ->
        r = true /\ calm (stp m')).
Proof.
  induction fuel as [|fuel [IHrun IHloop]]; [split; intros; discriminate|].
  split.
  - intros d m r m' Hc. rewrite runLevel_unfold.
    destruct (curStack m) as [st|]; [|discriminate].
    destruct (length (Order st) <=? d)%nat; [by intros [= <- <-]|].
    destruct (Order st !! d) as [t|]; [|discriminate].
    by apply IHloop.
  - intros d t m r m' Hc. rewrite forLoop_unfold.
    destruct (getLoop t m) as [loop|]; [|discriminate].
    destruct (loopCond (Counter loop)); [|by apply calm_exitLoop].
    destruct (loopHead_calm d t loop m Hc) as (m1 & -> & Hc1).
    destruct (runLevel rangeOrder fuel (S d) (phaseLogic t loop m1))
      as [[runComplete m3]| |] eqn:Hin; [|discriminate..].
    destruct (IHrun _ _ _ _ ltac:(by rewrite stp_phaseLogic) Hin)
      as [-> Hc3].
    destruct (getLoop t m3) as [loop3|]; [|discriminate].
    pose proof (calm_loopTail t loop3 m3 Hc3) as Hc4.
    destruct (loopTail rangeOrder t loop3 m3) as [out m4]. cbn [snd] in Hc4.
    destruct out; [by apply calm_exitLoop|by apply IHloop].
Qed.

(** X14: without a request a run is never interrupted: when no stop and no step
    is armed, whatever the stack, the termination functions and the mark of
    an earlier interruption, a call of [runLevel] that returns returns true,
    and still nothing is armed or marked. *)
Theorem no_request_no_interruption (fuel d : nat) m r m' :
  StopFlag (stp m) = false -> StopNext (stp m) = false ->
  internalStop (stp m) = false ->
  runLevel rangeOrder fuel d m = Done (r, m') ->
  r = true /\ calm (stp m').
Proof.
  intros Hf Hn Hi. apply (proj1 (calm_kept_both fuel)). by repeat split.
Qed.

End Calm.


(** ** A step, seen from the run without it *)

(** The stepper with a stop armed for [T] by the count of a step that
    reached 0 (lines 67 to 71). *)
Definition stopping {W} (T : Times) (s : Stepper W) : Stepper W :=
  set_lastStoppedLevel (-1)
    (set_StopFlag true
       (set_StopNext false (set_StepIterations 0 (set_StopLevel T s)))).

(** The stepper with [k] iterations of [T] still to run before the stop:
    the step armed by [requestStep] while [k] is positive, the stop it turns
    into at 0. *)
Definition arm {W} (T : Times) (k : nat) (s : Stepper W) : Stepper W :=
  match k with
  | O => stopping T s
  | S _ => requestStep T (Z.of_nat k) s
  end.

Section OnStepper.

Context {W : Type}.
Variable rangeOrder : gmap string (Pred W) -> list (string * Pred W).
Implicit Types (m : Machine W) (s : Stepper W) (lp : LoopStructure W)
  (f : Stepper W -> Stepper W).

(** The callbacks do not look at the stepper. *)
Lemma phaseLoop_on_stp f t cur phases : forall p amount m,
  phaseLoop t cur p amount phases (on_stp f m)
  = on_stp f (phaseLoop t cur p amount phases m).
Proof.
  induction phases as [|ph rest IH]; intros p amount m; cbn [phaseLoop];
    [done|].
  unfold phaseStep.
  destruct (cur =? _), (cur <? _), (cur =? _); rewrite <- IH; reflexivity.
Qed.

Lemma phaseLogic_on_stp f t lp m :
  phaseLogic t lp (on_stp f m) = on_stp f (phaseLogic t lp m).
Proof. apply phaseLoop_on_stp. Qed.

Lemma testDone_on_stp f t ps : forall m,
  testDone t ps (on_stp f m)
  = ((testDone t ps m).1, on_stp f (testDone t ps m).2).
Proof.
  induction ps as [|[name p] rest IH]; intros m; cbn [testDone]; [done|].
  cbn [world on_stp]. destruct (p (world m)) as [r w'].
  destruct r; [done|]. apply (IH (mkMachine (stp m) w' _)).
Qed.

Lemma arm_loops T k s : LoopsOf (arm T k s) = LoopsOf s.
Proof. by destruct k. Qed.

Lemma arm_mode T k s : Mode (arm T k s) = Mode s.
Proof. by destruct k. Qed.

Lemma arm_setCur T k t v s :
  setCurStepper t v (arm T k s) = arm T k (setCurStepper t v s).
Proof. by destruct k. Qed.

Lemma getLoop_arm T k t m : getLoop t (on_stp (arm T k) m) = getLoop t m.
Proof. apply getLoop_on_stp_flags; [apply arm_loops|apply arm_mode]. Qed.

Lemma curStack_arm T k m : curStack (on_stp (arm T k) m) = curStack m.
Proof. unfold curStack. cbn. by rewrite arm_loops, arm_mode. Qed.

Lemma setCur_arm T k t v m :
  setCur t v (on_stp (arm T k) m) = on_stp (arm T k) (setCur t v m).
Proof. unfold setCur, on_stp. cbn. by rewrite arm_setCur. Qed.

Lemma loopTail_arm T k t lp m :
  loopTail rangeOrder t lp (on_stp (arm T k) m)
  = ((loopTail rangeOrder t lp m).1,
     on_stp (arm T k) (loopTail rangeOrder t lp m).2).
Proof.
  unfold loopTail.
  change (callAll t OnEndL (OnEnd lp)
            (callAll t MainL (Main lp) (on_stp (arm T k) m)))
    with (on_stp (arm T k)
            (callAll t OnEndL (OnEnd lp) (callAll t MainL (Main lp) m))).
  rewrite testDone_on_stp.
  destruct (testDone t (rangeOrder (IsDone lp))
              (callAll t OnEndL (OnEnd lp) (callAll t MainL (Main lp) m)))
    as [r m5].
  cbn [fst snd]. destruct r; cbn [fst snd]; by rewrite setCur_arm.
Qed.

Lemma exitLoop_arm T k t m :
  idle m ->
  exitLoop t (on_stp (arm T k) m) = (true, on_stp (arm T k) (setCur t 0 m))
  /\ exitLoop t m = (true, setCur t 0 m).
Proof.
  intros (_ & _ & Hi & _). unfold exitLoop. rewrite Hi.
  assert (Hi' : internalStop (stp (on_stp (arm T k) m)) = false)
    by (destruct k; cbn; done).
  by rewrite Hi', setCur_arm.
Qed.

(** The head of an iteration of a level other than the one the step is
    for. *)
Lemma loopHead_arm_other T k d t lp m :
  idle m -> t <> T ->
  loopHead d t lp (on_stp (arm T k) m)
  = Proceed (callAll t OnStartL (OnStart lp) (on_stp (arm T k) m)).
Proof.
  intros (Hf & Hn & Hi & Hl) Hne.
  destruct m as [[sf sn sl si lm mode lsl ist] w tr]. cbn in *. subst.
  unfold loopHead.
  destruct k; cbn; rewrite bool_decide_eq_false_2 by done; cbn;
    destruct (Z.leb_spec (-1) (Z.of_nat d)); try lia; rewrite ?andb_false_r;
    reflexivity.
Qed.

(** The head of an iteration of the level the step is for: one iteration
    less is left. *)
Lemma loopHead_arm_T T k d lp m :
  idle m -> Z.of_nat (S k) < 2 ^ 63 ->
  loopHead d T lp (on_stp (arm T (S k)) m)
  = Proceed (callAll T OnStartL (OnStart lp) (on_stp (arm T k) m)).
Proof.
  intros (Hf & Hn & Hi & Hl) Hk.
  destruct m as [[sf sn sl si lm mode lsl ist] w tr]. cbn in *. subst.
  unfold loopHead, arm, requestStep, stopping, on_stp.
  cbn [stp StopFlag StopNext StopLevel StepIterations internalStop
       lastStoppedLevel set_StopFlag set_StopNext set_StopLevel
       set_StepIterations set_lastStoppedLevel set_internalStop andb
       world fired].
  rewrite bool_decide_eq_true_2 by done. cbn [andb].
  rewrite wrap64_id by (unfold int_ok; lia).
  destruct k as [|k].
  - replace (Z.of_nat 1 - 1) with 0 by lia. cbn.
    destruct (Z.leb_spec (-1) (Z.of_nat d)); [reflexivity|lia].
  - replace (Z.of_nat (S (S k)) - 1) with (Z.of_nat (S k)) by lia.
    destruct (Z.leb_spec (Z.of_nat (S k)) 0); [lia|].
    cbn -[Z.of_nat].
    destruct (Z.leb_spec (-1) (Z.of_nat d)); [reflexivity|lia].
Qed.

End OnStepper.


Section Plain.

Context {W : Type}.
Variable rangeOrder : gmap string (Pred W) -> list (string * Pred W).
Implicit Types (m : Machine W) (s : Stepper W) (lp : LoopStructure W).

Lemma idle_loopTail t lp m :
  idle m -> idle (loopTail rangeOrder t lp m).2.
Proof.
  intros Hid. unfold loopTail.
  destruct (testDone t (rangeOrder (IsDone lp))
              (callAll t OnEndL (OnEnd lp) (callAll t MainL (Main lp) m)))
    as [r m5] eqn:Htd.
  assert (Hs5 : stp m5 = stp m).
  { change m5 with (r, m5).2. rewrite <- Htd, stp_testDone. done. }
  destruct r; cbn [snd]; apply idle_setCur; by apply (idle_stp_eq m).
Qed.

(** With nothing armed and nothing pending a run that returns returns true
    and leaves the stepper idle. *)
Lemma idle_kept_both : forall fuel : nat,
  (forall d m r m', idle m ->
     runLevel rangeOrder fuel d m = Done (r, m') -> r = true /\ idle m')
  /\ (forall d t m r m', idle m ->
        forLoop rangeOrder fuel d t m = Done (r, m') -> r = true /\ idle m').
Proof.
  induction fuel as [|fuel [IHrun IHloop]]; [split; intros; discriminate|].
  split.
  - intros d m r m' Hid. rewrite runLevel_unfold.
    destruct (curStack m) as [st|]; [|discriminate].
    destruct (length (Order st) <=? d)%nat; [by intros [= <- <-]|].
    destruct (Order st !! d) as [t|]; [|discriminate].
    by apply IHloop.
  - intros d t m r m' Hid. rewrite forLoop_unfold.
    destruct (getLoop t m) as [loop|]; [|discriminate].
    destruct (loopCond (Counter loop)).
    2:{ unfold exitLoop. destruct Hid as (Hf & Hn & Hi & Hl).
        rewrite Hi. intros [= <- <-]. split; [done|].
        by apply idle_setCur. }
    rewrite (loopHead_idle d t loop m Hid).
    destruct (runLevel rangeOrder fuel (S d)
                (phaseLogic t loop (callAll t OnStartL (OnStart loop) m)))
      as [[runComplete m3]| |] eqn:Hin; [|discriminate..].
    assert (Hid2 : idle (phaseLogic t loop
                           (callAll t OnStartL (OnStart loop) m)))
      by (apply (idle_stp_eq m); [by rewrite stp_phaseLogic|done]).
    destruct (IHrun _ _ _ _ Hid2 Hin) as [-> Hid3].
    destruct (getLoop t m3) as [loop3|]; [|discriminate].
    pose proof (idle_loopTail t loop3 m3 Hid3) as Hid4.
    destruct (loopTail rangeOrder t loop3 m3) as [out m4]. cbn [snd] in Hid4.
    destruct out; [|by apply IHloop].
    unfold exitLoop. destruct Hid4 as (Hf & Hn & Hi & Hl).
    rewrite Hi. intros [= <- <-]. split; [done|].
    by apply idle_setCur.
Qed.

Lemma setup_mode m m' :
  setupOf (stp m') = setupOf (stp m) -> Mode (stp m') = Mode (stp m).
Proof. unfold setupOf. by intros [= -> _]. Qed.

Lemma setup_stack m m' st :
  setupOf (stp m') = setupOf (stp m) -> curStack m = Some st ->
  exists st', curStack m' = Some st' /\ Order st' = Order st
              /\ setCurLoop 0 <$> Loops st' = setCurLoop 0 <$> Loops st.
Proof.
  unfold setupOf, curStack. intros [= HM HS] Hst.
  apply (f_equal (fun x => x !! Mode (stp m))) in HS.
  rewrite !lookup_fmap, Hst, <- HM in HS. rewrite HM.
  rewrite <- HM.
  destruct (Stacks (LoopsOf (stp m')) !! Mode (stp m')) as [st'|];
    [|discriminate].
  cbn in HS. injection HS as Ho Hl. by exists st'.
Qed.

Lemma setup_stackIs m m' ts :
  setupOf (stp m') = setupOf (stp m) -> stackIs m ts -> stackIs m' ts.
Proof.
  intros Hs (st & Hst & Ho).
  destruct (setup_stack m m' st Hs Hst) as (st' & Hst' & Ho' & _).
  exists st'. split; [done|congruence].
Qed.

Lemma setup_hooks t m m' lp lp' :
  setupOf (stp m') = setupOf (stp m) ->
  getLoop t m = Some lp -> getLoop t m' = Some lp' ->
  setCurLoop 0 lp' = setCurLoop 0 lp.
Proof.
  unfold getLoop. intros Hs Hget Hget'.
  destruct (curStack m) as [st|] eqn:Hst; [|discriminate].
  destruct (setup_stack m m' st Hs Hst) as (st' & Hst' & _ & Hl).
  rewrite Hst' in Hget'. cbn in Hget, Hget'.
  apply (f_equal (fun x => x !! t)) in Hl.
  rewrite !lookup_fmap, Hget, Hget' in Hl. by apply (inj Some) in Hl.
Qed.

Lemma runLevel_keeps_setup (fuel d : nat) m r m' :
  runLevel rangeOrder fuel d m = Done (r, m') ->
  setupOf (stp m') = setupOf (stp m).
Proof. apply (proj1 (setupOf_kept_both rangeOrder fuel)). Qed.

Lemma hooksOf_same lp lp' l :
  setCurLoop 0 lp' = setCurLoop 0 lp -> hooksOf lp' l = hooksOf lp l.
Proof.
  intros H.
  change (hooksOf (setCurLoop 0 lp') l = hooksOf (setCurLoop 0 lp) l).
  by rewrite H.
Qed.

End Plain.


Section StepTracks.

Context {W : Type}.
Variable rangeOrder : gmap string (Pred W) -> list (string * Pred W).

(** The stack of the current mode has the order [ts]; the step is for the
    time scale [T], at depth [dT], whose loop has the hooks of [lpT]; [m0]
    is the machine the run starts from. *)
Variables (ts : list Times) (dT : nat) (T : Times).
Variables (lpT : LoopStructure W) (m0 : Machine W).
Hypothesis ts_distinct : NoDup ts.
Hypothesis ts_T : ts !! dT = Some T.
Hypothesis m0_stack : stackIs m0 ts.
Hypothesis m0_T : getLoop T m0 = Some lpT.
Implicit Types (m mp mh : Machine W) (lp : LoopStructure W) (t : Times).

(** Nothing is armed or pending, and the set-up is that of [m0]. *)
Definition inv m : Prop := idle m /\ setupOf (stp m) = setupOf (stp m0).

(** From [m] to [m'] each start, main and end hook of [T] is called [j]
    times. *)
Definition countT m m' (j : nat) : Prop :=
  forall l i, plain l = true -> (i < length (hooksOf lpT l))%nat ->
    timesFired (Called T l i) (fired m')
    = (timesFired (Called T l i) (fired m) + j)%nat.

(** The stepper after the stop that a step for [T] turned into was taken:
    the state in which a stop armed for [T] and taken leaves it. *)
Definition halted mh : Prop :=
  StopFlag (stp mh) = false /\ StopNext (stp mh) = false
  /\ StepIterations (stp mh) = 0 /\ StopLevel (stp mh) = T
  /\ internalStop (stp mh) = true
  /\ lastStoppedLevel (stp mh) = Z.of_nat dT.

(** [mh] is where the run from [mp], entered at depth [d], was stopped
    after [c] iterations of [T]; the run without the step went on to [mp']. *)
Definition haltedFrom (d : nat) mp mp' (c : nat) mh : Prop :=
  halted mh
  /\ fired mp `prefix_of` fired mh /\ fired mh `prefix_of` fired mp'
  /\ countT mp mh c
  /\ forall t', t' ∈ take d ts -> getLoop t' mh = getLoop t' mp.

(** How the call [run], which without a step takes [mp] to [mp'] through
    [j] iterations of [T], goes with [k] iterations left before the stop. *)
Definition tracks (run : Machine W -> outcome (bool * Machine W)) (d : nat)
    mp mp' : Prop :=
  idle mp'
  /\ fired mp `prefix_of` fired mp'
  /\ (forall t', t' ∈ take d ts -> getLoop t' mp' = getLoop t' mp)
  /\ exists j : nat,
       ((dT < d)%nat -> j = 0%nat)
       /\ countT mp mp' j
       /\ forall k : nat, Z.of_nat k < 2 ^ 63 ->
            ((j <= k)%nat ->
               run (on_stp (arm T k) mp)
               = Done (true, on_stp (arm T (k - j)) mp'))
            /\ ((k < j)%nat ->
                  exists mh, run (on_stp (arm T k) mp) = Done (false, mh)
                             /\ haltedFrom d mp mp' k mh).

Lemma inv_stackIs m : inv m -> stackIs m ts.
Proof. intros [_ Hs]. by apply (setup_stackIs m0). Qed.

Lemma inv_hooks m lp l :
  inv m -> getLoop T m = Some lp -> hooksOf lp l = hooksOf lpT l.
Proof.
  intros [_ Hs] Hget. apply hooksOf_same.
  by apply (setup_hooks T m0 m lpT lp).
Qed.

Lemma inv_stp_eq m m' : stp m' = stp m -> inv m -> inv m'.
Proof.
  intros H [Hid Hs]. split; [by apply (idle_stp_eq m)|by rewrite H].
Qed.

Lemma level_unique (d : nat) : ts !! d = Some T -> d = dT.
Proof. intros Hd. by apply (NoDup_lookup ts d dT T). Qed.

Lemma above_other (d : nat) t t' :
  ts !! d = Some t -> t' ∈ take d ts -> t' <> t.
Proof.
  intros Hd Hin ->. apply list_elem_of_lookup in Hin as (i & Hi).
  apply lookup_take_Some in Hi as [Hi Hlt].
  pose proof (NoDup_lookup ts i d t ts_distinct Hi Hd). lia.
Qed.

Lemma take_mono_elem (d : nat) t' : t' ∈ take d ts -> t' ∈ take (S d) ts.
Proof.
  intros Hin. apply list_elem_of_lookup in Hin as (i & Hi).
  apply lookup_take_Some in Hi as [Hi Hlt].
  apply list_elem_of_lookup. exists i. apply lookup_take_Some. split; [done|lia].
Qed.

Lemma level_in_take (d : nat) t : ts !! d = Some t -> t ∈ take (S d) ts.
Proof.
  intros Hd. apply list_elem_of_lookup. exists d.
  apply lookup_take_Some. split; [done|lia].
Qed.

Lemma count_head t loop mp l i :
  plain l = true ->
  timesFired (Called T l i)
    (fired (phaseLogic t loop (callAll t OnStartL (OnStart loop) mp)))
  = (timesFired (Called T l i) (fired mp)
     + timesFired (Called T l i) (calls t OnStartL (OnStart loop)))%nat.
Proof.
  intros Hl.
  destruct (fired_phaseLogic t loop (callAll t OnStartL (OnStart loop) mp))
    as (pe & -> & Hphase).
  rewrite fired_callAll, !timesFired_app.
  rewrite (timesFired_phase _ pe Hphase) by (simpl; congruence). lia.
Qed.

Lemma count_tail t loop3 m3 l i :
  timesFired (Called T l i) (fired (loopTail rangeOrder t loop3 m3).2)
  = (timesFired (Called T l i) (fired m3)
     + timesFired (Called T l i) (calls t MainL (Main loop3))
     + timesFired (Called T l i) (calls t OnEndL (OnEnd loop3)))%nat.
Proof.
  unfold loopTail.
  destruct (fired_testDone t (rangeOrder (IsDone loop3))
              (callAll t OnEndL (OnEnd loop3)
                 (callAll t MainL (Main loop3) m3))) as (te & Hte & Htt).
  destruct (testDone t (rangeOrder (IsDone loop3)) _) as [r m5].
  cbn [snd] in Hte.
  assert (Hf : forall v, fired (setCur t v m5) = fired m5) by done.
  destruct r; cbn [snd]; rewrite Hf, Hte, !fired_callAll, !timesFired_app,
    (timesFired_called_tested T l i t te Htt); lia.
Qed.

Lemma own_count t loop loop3 l i :
  plain l = true -> (i < length (hooksOf lpT l))%nat ->
  (t = T -> forall l', hooksOf loop l' = hooksOf lpT l') ->
  (t = T -> forall l', hooksOf loop3 l' = hooksOf lpT l') ->
  (timesFired (Called T l i) (calls t OnStartL (OnStart loop))
   + timesFired (Called T l i) (calls t MainL (Main loop3))
   + timesFired (Called T l i) (calls t OnEndL (OnEnd loop3)))%nat
  = if decide (t = T) then 1%nat else 0%nat.
Proof.
  intros Hl Hi H1 H3. destruct (decide (t = T)) as [->|Hne].
  - pose proof (H1 eq_refl OnStartL) as Hs. cbn [hooksOf] in Hs.
    pose proof (H3 eq_refl MainL) as Hm. cbn [hooksOf] in Hm.
    pose proof (H3 eq_refl OnEndL) as He. cbn [hooksOf] in He.
    rewrite Hs, Hm, He, (timesFired_own T lpT T l i Hl).
    destruct (decide _) as [_|Hn]; [done|]. exfalso. by apply Hn.
  - rewrite !timesFired_calls_other by congruence. done.
Qed.

(** One iteration of the run without the step. *)
Lemma plain_turn (d : nat) t mp loop m3 loop3 (j1 : nat) :
  inv mp -> ts !! d = Some t -> getLoop t mp = Some loop ->
  inv m3 ->
  fired (phaseLogic t loop (callAll t OnStartL (OnStart loop) mp))
    `prefix_of` fired m3 ->
  (forall t', t' ∈ take (S d) ts ->
     getLoop t' m3
     = getLoop t' (phaseLogic t loop (callAll t OnStartL (OnStart loop) mp))) ->
  countT (phaseLogic t loop (callAll t OnStartL (OnStart loop) mp)) m3 j1 ->
  getLoop t m3 = Some loop3 ->
  inv (loopTail rangeOrder t loop3 m3).2
  /\ fired mp `prefix_of` fired (loopTail rangeOrder t loop3 m3).2
  /\ (forall t', t' ∈ take d ts ->
        getLoop t' (loopTail rangeOrder t loop3 m3).2 = getLoop t' mp)
  /\ countT mp (loopTail rangeOrder t loop3 m3).2
       ((if decide (t = T) then 1 else 0) + j1).
Proof.
  intros Hinv Hd Hget Hinv3 Hpre Hframe Hcount Hget3.
  set (m2 := phaseLogic t loop (callAll t OnStartL (OnStart loop) mp)) in *.
  assert (Hs2 : stp m2 = stp mp) by (unfold m2; by rewrite stp_phaseLogic).
  split; [|split; [|split]].
  - split; [apply idle_loopTail, Hinv3|].
    rewrite setupOf_loopTail. apply Hinv3.
  - etrans; [|apply fired_loopTail]. etrans; [|exact Hpre].
    unfold m2. rewrite fired_phaseLogic_trace, fired_callAll, <- app_assoc.
    by apply prefix_app_r.
  - intros t' Hin.
    assert (Hne : t' <> t) by (by apply (above_other d)).
    assert (Ht : getLoop t' (loopTail rangeOrder t loop3 m3).2
                 = getLoop t' m3).
    { unfold loopTail.
      destruct (testDone t (rangeOrder (IsDone loop3)) _) as [r m5] eqn:Htd.
      assert (Hs5 : stp m5 = stp m3).
      { change m5 with (r, m5).2. rewrite <- Htd, stp_testDone. done. }
      destruct r; cbn [snd]; rewrite getLoop_setCur_ne by done;
        by apply getLoop_stp_eq. }
    rewrite Ht, (Hframe t' (take_mono_elem d t' Hin)).
    by apply getLoop_stp_eq.
  - intros l i Hl Hi.
    rewrite count_tail, (Hcount l i Hl Hi). unfold m2.
    rewrite (count_head t loop mp l i Hl).
    pose proof (own_count t loop loop3 l i Hl Hi) as Hown.
    rewrite <- Hown; [lia| |].
    + intros -> l'. by apply (inv_hooks mp).
    + intros -> l'. by apply (inv_hooks m3).
Qed.

(** Leaving the loop of the level. *)
Lemma plain_exit (d : nat) t m :
  inv m -> ts !! d = Some t ->
  inv (setCur t 0 m)
  /\ (forall t', t' ∈ take d ts -> getLoop t' (setCur t 0 m) = getLoop t' m).
Proof.
  intros [Hid Hs] Hd. split.
  - split; [by apply idle_setCur|].
    cbn [stp setCur on_stp]. by rewrite setupOf_setCur.
  - intros t' Hin. apply getLoop_setCur_ne.
    intros Heq. by apply (above_other d t t' Hd Hin).
Qed.

Lemma countT_trans m m' m'' (a b : nat) :
  countT m m' a -> countT m' m'' b -> countT m m'' (a + b).
Proof.
  intros Ha Hb l i Hl Hi. rewrite (Hb l i Hl Hi), (Ha l i Hl Hi). lia.
Qed.

Lemma countT_same m m' : fired m' = fired m -> countT m m' 0.
Proof. intros H l i _ _. rewrite H. lia. Qed.

(** One iteration with the step armed, when the inner levels run to their
    end. *)
Lemma step_turn_on (fuel d : nat) t mp loop m3 loop3 (k k1 k2 : nat) :
  idle mp -> getLoop t mp = Some loop -> loopCond (Counter loop) = true ->
  loopHead d t loop (on_stp (arm T k) mp)
  = Proceed (callAll t OnStartL (OnStart loop) (on_stp (arm T k1) mp)) ->
  runLevel rangeOrder fuel (S d)
    (on_stp (arm T k1)
       (phaseLogic t loop (callAll t OnStartL (OnStart loop) mp)))
  = Done (true, on_stp (arm T k2) m3) ->
  idle m3 -> getLoop t m3 = Some loop3 ->
  forLoop rangeOrder (S fuel) d t (on_stp (arm T k) mp)
  = if (loopTail rangeOrder t loop3 m3).1
    then Done (true, on_stp (arm T k2)
                       (setCur t 0 (loopTail rangeOrder t loop3 m3).2))
    else forLoop rangeOrder fuel d t
           (on_stp (arm T k2) (loopTail rangeOrder t loop3 m3).2).
Proof.
  intros Hid Hget Hcond Hhead Hinner Hid3 Hget3.
  rewrite forLoop_unfold, getLoop_arm, Hget, Hcond, Hhead.
  change (phaseLogic t loop
            (callAll t OnStartL (OnStart loop) (on_stp (arm T k1) mp)))
    with (phaseLogic t loop
            (on_stp (arm T k1) (callAll t OnStartL (OnStart loop) mp))).
  rewrite phaseLogic_on_stp, Hinner, getLoop_arm, Hget3, loopTail_arm.
  pose proof (idle_loopTail rangeOrder t loop3 m3 Hid3) as Hid4.
  destruct (loopTail rangeOrder t loop3 m3) as [out m4]. cbn [fst snd] in *.
  destruct out; [|done].
  by rewrite (proj1 (exitLoop_arm T k2 t m4 Hid4)).
Qed.

(** The same iteration without the step. *)
Lemma plain_turn_eq (fuel d : nat) t mp loop m3 loop3 :
  idle mp -> getLoop t mp = Some loop -> loopCond (Counter loop) = true ->
  runLevel rangeOrder fuel (S d)
    (phaseLogic t loop (callAll t OnStartL (OnStart loop) mp))
  = Done (true, m3) ->
  idle m3 -> getLoop t m3 = Some loop3 ->
  forLoop rangeOrder (S fuel) d t mp
  = if (loopTail rangeOrder t loop3 m3).1
    then Done (true, setCur t 0 (loopTail rangeOrder t loop3 m3).2)
    else forLoop rangeOrder fuel d t (loopTail rangeOrder t loop3 m3).2.
Proof.
  intros Hid Hget Hcond Hinner Hid3 Hget3.
  rewrite forLoop_unfold, Hget, Hcond, (loopHead_idle d t loop mp Hid).
  rewrite Hinner, Hget3.
  pose proof (idle_loopTail rangeOrder t loop3 m3 Hid3) as Hid4.
  destruct (loopTail rangeOrder t loop3 m3) as [out m4]. cbn [fst snd] in *.
  destruct out; [|done].
  unfold exitLoop. destruct Hid4 as (_ & _ & Hi & _). by rewrite Hi.
Qed.

(** One iteration with the step armed, when the stop is taken inside. *)
Lemma step_turn_halt (fuel d : nat) t mp loop (k k1 : nat) mh1 :
  getLoop t mp = Some loop -> loopCond (Counter loop) = true ->
  loopHead d t loop (on_stp (arm T k) mp)
  = Proceed (callAll t OnStartL (OnStart loop) (on_stp (arm T k1) mp)) ->
  runLevel rangeOrder (S fuel) (S d)
    (on_stp (arm T k1)
       (phaseLogic t loop (callAll t OnStartL (OnStart loop) mp)))
  = Done (false, mh1) ->
  halted mh1 -> getLoop t mh1 = Some loop ->
  forLoop rangeOrder (S (S fuel)) d t (on_stp (arm T k) mp)
  = Done (false, on_stp (set_StopFlag false) mh1).
Proof.
  intros Hget Hcond Hhead Hinner (Hf & _ & _ & _ & Hi & _) Hget1.
  rewrite forLoop_unfold, getLoop_arm, Hget, Hcond, Hhead.
  change (phaseLogic t loop
            (callAll t OnStartL (OnStart loop) (on_stp (arm T k1) mp)))
    with (phaseLogic t loop
            (on_stp (arm T k1) (callAll t OnStartL (OnStart loop) mp))).
  rewrite phaseLogic_on_stp, Hinner.
  rewrite (forLoop_halts rangeOrder fuel d t mh1 loop Hget1 Hcond).
  - unfold haltAt. by rewrite Hf.
  - unfold interruptionMarked. by rewrite Hi.
Qed.

Lemma halted_clear mh : halted mh -> halted (on_stp (set_StopFlag false) mh).
Proof. unfold halted. cbn. tauto. Qed.

Lemma haltedFrom_inner (d : nat) t mp loop m3 mp' (c : nat) mh1 :
  ts !! d = Some t -> t <> T ->
  haltedFrom (S d)
    (phaseLogic t loop (callAll t OnStartL (OnStart loop) mp)) m3 c mh1 ->
  fired m3 `prefix_of` fired mp' ->
  haltedFrom d mp mp' c (on_stp (set_StopFlag false) mh1).
Proof.
  intros Hd Hne (Hh & Hpre & Hpost & Hcount & Hframe) Hlater.
  set (m2 := phaseLogic t loop (callAll t OnStartL (OnStart loop) mp)) in *.
  assert (Hp2 : fired mp `prefix_of` fired m2).
  { unfold m2. rewrite fired_phaseLogic_trace, fired_callAll, <- app_assoc.
    by apply prefix_app_r. }
  split; [by apply halted_clear|]. split; [by etrans|]. split; [by etrans|].
  split.
  - intros l i Hl Hi. cbn [fired on_stp]. rewrite (Hcount l i Hl Hi).
    unfold m2. rewrite (count_head t loop mp l i Hl).
    rewrite timesFired_calls_other by congruence. lia.
  - intros t' Hin. rewrite getLoop_on_stp_flags by done.
    rewrite (Hframe t' (take_mono_elem d t' Hin)).
    apply getLoop_stp_eq. unfold m2. by rewrite stp_phaseLogic.
Qed.

Lemma haltedFrom_later (d : nat) mp m4 mp' (a c : nat) mh :
  haltedFrom d m4 mp' c mh ->
  fired mp `prefix_of` fired m4 -> countT mp m4 a ->
  (forall t', t' ∈ take d ts -> getLoop t' m4 = getLoop t' mp) ->
  haltedFrom d mp mp' (a + c) mh.
Proof.
  intros (Hh & Hpre & Hpost & Hcount & Hframe) Hp Ha Hf.
  split; [done|]. split; [by etrans|]. split; [done|]. split.
  - by apply (countT_trans mp m4 mh).
  - intros t' Hin. by rewrite (Hframe t' Hin), (Hf t' Hin).
Qed.

(** The stop that the step turned into, taken at the head of an iteration
    of [T]. *)
Lemma head_halt (fuel : nat) mp loop mp' :
  idle mp -> getLoop T mp = Some loop -> loopCond (Counter loop) = true ->
  fired mp `prefix_of` fired mp' ->
  exists mh,
    forLoop rangeOrder (S fuel) dT T (on_stp (arm T 0) mp) = Done (false, mh)
    /\ haltedFrom dT mp mp' 0 mh.
Proof.
  intros Hid Hget Hcond Hpre.
  assert (Hmark : StopFlag (stp (on_stp (arm T 0) mp))
                  && bool_decide (T = StopLevel (stp (on_stp (arm T 0) mp)))
                  = true).
  { cbn. by rewrite bool_decide_eq_true_2. }
  exists (haltAt dT T (on_stp (arm T 0) mp)). split.
  - apply (forLoop_halts rangeOrder fuel dT T _ loop);
      [by rewrite getLoop_arm|done|].
    unfold interruptionMarked. rewrite Hmark. apply orb_true_r.
  - unfold haltAt. rewrite Hmark.
    split; [by repeat split|]. split; [done|]. split; [done|].
    split; [by apply countT_same|]. done.
Qed.

(** An iteration with [k1] iterations left after its head: it goes on like
    the run without the step, or the stop is taken in the inner levels. *)
Lemma step_turn_cases (fuel d : nat) t mp loop m3 loop3 (j1 k k1 : nat) :
  idle mp -> ts !! d = Some t ->
  getLoop t mp = Some loop -> loopCond (Counter loop) = true ->
  runLevel rangeOrder fuel (S d)
    (phaseLogic t loop (callAll t OnStartL (OnStart loop) mp))
  = Done (true, m3) ->
  idle m3 -> getLoop t m3 = Some loop3 ->
  loopHead d t loop (on_stp (arm T k) mp)
  = Proceed (callAll t OnStartL (OnStart loop) (on_stp (arm T k1) mp)) ->
  ((j1 <= k1)%nat ->
     runLevel rangeOrder fuel (S d)
       (on_stp (arm T k1)
          (phaseLogic t loop (callAll t OnStartL (OnStart loop) mp)))
     = Done (true, on_stp (arm T (k1 - j1)) m3))
  /\ ((k1 < j1)%nat ->
        exists mh,
          runLevel rangeOrder fuel (S d)
            (on_stp (arm T k1)
               (phaseLogic t loop (callAll t OnStartL (OnStart loop) mp)))
          = Done (false, mh)
          /\ haltedFrom (S d)
               (phaseLogic t loop (callAll t OnStartL (OnStart loop) mp))
               m3 k1 mh) ->
  ((j1 <= k1)%nat ->
     forLoop rangeOrder (S fuel) d t (on_stp (arm T k) mp)
     = if (loopTail rangeOrder t loop3 m3).1
       then Done (true, on_stp (arm T (k1 - j1))
                          (setCur t 0 (loopTail rangeOrder t loop3 m3).2))
       else forLoop rangeOrder fuel d t
              (on_stp (arm T (k1 - j1)) (loopTail rangeOrder t loop3 m3).2))
  /\ ((k1 < j1)%nat ->
        exists mh1,
          forLoop rangeOrder (S fuel) d t (on_stp (arm T k) mp)
          = Done (false, on_stp (set_StopFlag false) mh1)
          /\ haltedFrom (S d)
               (phaseLogic t loop (callAll t OnStartL (OnStart loop) mp))
               m3 k1 mh1).
Proof.
  intros Hid Hd Hget Hcond Hin Hid3 Hget3 Hhead [Hon Hoff]. split.
  - intros Hle.
    by apply (step_turn_on fuel d t mp loop m3 loop3 k k1 (k1 - j1)); auto.
  - intros Hlt. destruct (Hoff Hlt) as (mh1 & Hrun & Hh).
    exists mh1. split; [|done].
    destruct fuel as [|fuel]; [discriminate|].
    apply (step_turn_halt fuel d t mp loop k k1 mh1); auto.
    + apply Hh.
    + destruct Hh as (_ & _ & _ & _ & Hframe).
      rewrite (Hframe t (level_in_take d t Hd)), <- Hget.
      apply getLoop_stp_eq. by rewrite stp_phaseLogic.
Qed.

(** The run with a step armed follows the run without it, iteration of [T]
    by iteration of [T], until the count is used up. *)
Lemma step_tracks_both : forall fuel : nat,
  (forall d mp r mp', inv mp ->
     runLevel rangeOrder fuel d mp = Done (r, mp') ->
     tracks (runLevel rangeOrder fuel d) d mp mp')
  /\ (forall d t mp r mp', inv mp -> ts !! d = Some t ->
        forLoop rangeOrder fuel d t mp = Done (r, mp') ->
        tracks (forLoop rangeOrder fuel d t) d mp mp').
Proof.
  induction fuel as [|fuel [IHrun IHloop]]; [split; intros; discriminate|].
  split.
  - intros d mp r mp' Hinv Hplain.
    destruct (inv_stackIs mp Hinv) as (st & Hst & Ho).
    rewrite runLevel_unfold, Hst in Hplain.
    destruct (Nat.leb_spec (length (Order st)) d) as [Hlen|Hlen].
    + injection Hplain as <- <-.
      split; [apply Hinv|]. split; [done|]. split; [done|].
      exists 0%nat. split; [done|]. split; [by apply countT_same|].
      intros k Hk. split; [|lia]. intros _.
      rewrite runLevel_unfold, curStack_arm, Hst.
      destruct (Nat.leb_spec (length (Order st)) d); [|lia].
      by rewrite Nat.sub_0_r.
    + destruct (Order st !! d) as [t|] eqn:Hd; [|discriminate].
      assert (Hd' : ts !! d = Some t) by (by rewrite <- Ho).
      destruct (IHloop d t mp r mp' Hinv Hd' Hplain)
        as (Hid' & Hpre & Hframe & j & Hj & Hcount & Hstep).
      split; [done|]. split; [done|]. split; [done|].
      exists j. split; [done|]. split; [done|].
      intros k Hk.
      assert (Hrun : runLevel rangeOrder (S fuel) d (on_stp (arm T k) mp)
                     = forLoop rangeOrder fuel d t (on_stp (arm T k) mp)).
      { rewrite runLevel_unfold, curStack_arm, Hst.
        destruct (Nat.leb_spec (length (Order st)) d); [lia|].
        by rewrite Hd. }
      rewrite Hrun. apply (Hstep k Hk).
  - intros d t mp r mp' Hinv Hd Hplain.
    pose proof Hinv as (Hid & Hsetup).
    destruct (getLoop t mp) as [loop|] eqn:Hget;
      [|by rewrite forLoop_unfold, Hget in Hplain].
    destruct (loopCond (Counter loop)) eqn:Hcond.
    2:{ rewrite forLoop_unfold, Hget, Hcond in Hplain.
        rewrite (proj2 (exitLoop_arm T 0 t mp Hid)) in Hplain.
        injection Hplain as <- <-.
        destruct (plain_exit d t mp Hinv Hd) as [Hinv' Hframe'].
        split; [apply Hinv'|]. split; [done|]. split; [done|].
        exists 0%nat. split; [done|]. split; [by apply countT_same|].
        intros k Hk. split; [|lia]. intros _.
        rewrite forLoop_unfold, getLoop_arm, Hget, Hcond.
        rewrite (proj1 (exitLoop_arm T k t mp Hid)). by rewrite Nat.sub_0_r. }
    assert (Hinv2 : inv (phaseLogic t loop
                           (callAll t OnStartL (OnStart loop) mp)))
      by (apply (inv_stp_eq mp); [by rewrite stp_phaseLogic|done]).
    destruct (runLevel rangeOrder fuel (S d)
                (phaseLogic t loop (callAll t OnStartL (OnStart loop) mp)))
      as [[rc m3]| |] eqn:Hin;
      [|by rewrite forLoop_unfold, Hget, Hcond, (loopHead_idle d t loop mp Hid),
           Hin in Hplain..].
    destruct (proj1 (idle_kept_both rangeOrder fuel) _ _ _ _ (proj1 Hinv2) Hin)
      as [-> Hid3].
    assert (Hinv3 : inv m3).
    { split; [done|].
      rewrite (runLevel_keeps_setup rangeOrder _ _ _ _ _ Hin). apply Hinv2. }
    destruct (IHrun (S d) _ true m3 Hinv2 Hin)
      as (_ & Hpre3 & Hframe3 & j1 & Hj1 & Hcount3 & Hstep3).
    destruct (getLoop t m3) as [loop3|] eqn:Hget3;
      [|by rewrite forLoop_unfold, Hget, Hcond, (loopHead_idle d t loop mp Hid),
           Hin, Hget3 in Hplain].
    rewrite (plain_turn_eq fuel d t mp loop m3 loop3 Hid Hget Hcond Hin Hid3
               Hget3) in Hplain.
    destruct (plain_turn d t mp loop m3 loop3 j1 Hinv Hd Hget Hinv3 Hpre3
                Hframe3 Hcount3 Hget3) as (Hinv4 & Hpre4 & Hframe4 & Hcount4).
    pose proof (fired_loopTail rangeOrder t loop3 m3) as Hpre34.
    assert (Hturn : forall k k1 : nat, Z.of_nat k1 < 2 ^ 63 ->
              loopHead d t loop (on_stp (arm T k) mp)
              = Proceed (callAll t OnStartL (OnStart loop)
                           (on_stp (arm T k1) mp)) ->
              ((j1 <= k1)%nat ->
                 forLoop rangeOrder (S fuel) d t (on_stp (arm T k) mp)
                 = if (loopTail rangeOrder t loop3 m3).1
                   then Done (true, on_stp (arm T (k1 - j1))
                                      (setCur t 0
                                         (loopTail rangeOrder t loop3 m3).2))
                   else forLoop rangeOrder fuel d t
                          (on_stp (arm T (k1 - j1))
                             (loopTail rangeOrder t loop3 m3).2))
              /\ ((k1 < j1)%nat ->
                    exists mh1,
                      forLoop rangeOrder (S fuel) d t (on_stp (arm T k) mp)
                      = Done (false, on_stp (set_StopFlag false) mh1)
                      /\ haltedFrom (S d)
                           (phaseLogic t loop
                              (callAll t OnStartL (OnStart loop) mp))
                           m3 k1 mh1)).
    { intros k k1 Hk1 Hhead.
      apply (step_turn_cases fuel d t mp loop m3 loop3 j1 k k1); auto. }
    destruct (loopTail rangeOrder t loop3 m3) as [out m4] eqn:Htail.
    cbn [fst snd] in *.
    destruct (decide (t = T)) as [->|Hne].
    + (* the level of the step *)
      pose proof (level_unique d Hd) as ->.
      assert (Hj0 : j1 = 0%nat) by (apply Hj1; lia). subst j1.
      assert (Hhalt0 : forall mp'', fired mp `prefix_of` fired mp'' ->
                exists mh,
                  forLoop rangeOrder (S fuel) dT T (on_stp (arm T 0) mp)
                  = Done (false, mh)
                  /\ haltedFrom dT mp mp'' 0 mh)
        by (intros mp'' Hp; by apply (head_halt fuel mp loop mp'')).
      destruct out.
      * injection Hplain as <- <-.
        destruct (plain_exit dT T m4 Hinv4 Hd) as [Hinv' Hframe'].
        split; [apply Hinv'|]. split; [exact Hpre4|].
        split; [intros t' Ht'; by rewrite (Hframe' t' Ht'), (Hframe4 t' Ht')|].
        exists 1%nat. split; [lia|]. split; [exact Hcount4|].
        intros [|k] Hk; (split; [|]); try lia.
        -- intros _. by apply Hhalt0.
        -- intros _.
           destruct (Hturn (S k) k ltac:(lia)
                       (loopHead_arm_T T k dT loop mp Hid Hk)) as [Hon _].
           rewrite (Hon ltac:(lia)).
           by replace (S k - 1)%nat with (k - 0)%nat by lia.
      * destruct (IHloop dT T m4 r mp' Hinv4 Hd Hplain)
          as (Hid' & Hpre' & Hframe' & j2 & Hj2 & Hcount' & Hstep').
        split; [done|]. split; [by etrans|].
        split; [intros t' Ht'; by rewrite (Hframe' t' Ht'), (Hframe4 t' Ht')|].
        exists (1 + j2)%nat. split; [lia|].
        split; [by apply (countT_trans mp m4 mp')|].
        intros [|k] Hk; (split; [|]); try lia.
        -- intros _. apply Hhalt0. by etrans.
        -- intros Hle.
           destruct (Hturn (S k) k ltac:(lia)
                       (loopHead_arm_T T k dT loop mp Hid Hk)) as [Hon _].
           rewrite (Hon ltac:(lia)), Nat.sub_0_r.
           rewrite (proj1 (Hstep' k ltac:(lia)) ltac:(lia)).
           by replace (S k - (1 + j2))%nat with (k - j2)%nat by lia.
        -- intros Hlt.
           destruct (Hturn (S k) k ltac:(lia)
                       (loopHead_arm_T T k dT loop mp Hid Hk)) as [Hon _].
           rewrite (Hon ltac:(lia)), Nat.sub_0_r.
           destruct (proj2 (Hstep' k ltac:(lia)) ltac:(lia))
             as (mh & Hrun & Hh).
           exists mh. split; [done|].
           by apply (haltedFrom_later dT mp m4 mp' 1 k mh).
    + (* another level *)
      assert (Hc4 : countT mp m4 j1).
      { intros l i Hl Hi. rewrite (Hcount4 l i Hl Hi).
        destruct (decide (t = T)); [done|lia]. }
      assert (HdT : (dT < d)%nat -> j1 = 0%nat) by (intros; apply Hj1; lia).
      destruct out.
      * injection Hplain as <- <-.
        destruct (plain_exit d t m4 Hinv4 Hd) as [Hinv' Hframe'].
        split; [apply Hinv'|]. split; [exact Hpre4|].
        split; [intros t' Ht'; by rewrite (Hframe' t' Ht'), (Hframe4 t' Ht')|].
        exists j1. split; [done|]. split; [exact Hc4|].
        intros k Hk.
        destruct (Hturn k k Hk (loopHead_arm_other T k d t loop mp Hid Hne))
          as [Hon Hoff].
        split; [exact Hon|].
        intros Hlt. destruct (Hoff Hlt) as (mh1 & Hrun & Hh).
        exists (on_stp (set_StopFlag false) mh1). split; [done|].
        by apply (haltedFrom_inner d t mp loop m3 _ k mh1).
      * destruct (IHloop d t m4 r mp' Hinv4 Hd Hplain)
          as (Hid' & Hpre' & Hframe' & j2 & Hj2 & Hcount' & Hstep').
        split; [done|]. split; [by etrans|].
        split; [intros t' Ht'; by rewrite (Hframe' t' Ht'), (Hframe4 t' Ht')|].
        exists (j1 + j2)%nat. split; [intros; rewrite HdT, Hj2; lia|].
        split; [by apply (countT_trans mp m4 mp')|].
        intros k Hk.
        destruct (Hturn k k Hk (loopHead_arm_other T k d t loop mp Hid Hne))
          as [Hon Hoff].
        split.
        -- intros Hle. rewrite (Hon ltac:(lia)).
           rewrite (proj1 (Hstep' (k - j1)%nat ltac:(lia)) ltac:(lia)).
           by replace (k - j1 - j2)%nat with (k - (j1 + j2))%nat by lia.
        -- intros Hlt. destruct (Nat.le_gt_cases j1 k) as [Hle|Hgt].
           ++ rewrite (Hon Hle).
              destruct (proj2 (Hstep' (k - j1)%nat ltac:(lia)) ltac:(lia))
                as (mh & Hrun & Hh).
              exists mh. split; [done|].
              pose proof (haltedFrom_later d mp m4 mp' j1 (k - j1) mh Hh Hpre4
                            Hc4 Hframe4) as Hfin.
              by replace (j1 + (k - j1))%nat with k in Hfin by lia.
           ++ destruct (Hoff Hgt) as (mh1 & Hrun & Hh).
              exists (on_stp (set_StopFlag false) mh1). split; [done|].
              apply (haltedFrom_inner d t mp loop m3 _ k mh1); auto.
              by etrans.
Qed.

Lemma stopping_idle mp :
  idle mp ->
  on_stp (stopping T) mp
  = on_stp (fun s => set_StepIterations 0 (requestStop T s)) mp.
Proof.
  intros (Hf & Hn & Hi & Hl).
  destruct mp as [[sf sn sl si lm mode lsl ist] w tr]. cbn in *. by subst.
Qed.

(** C6: a step of [n] iterations (at least one) is requested for the time
    scale [T] of a stack with distinct time scales, on a stepper with nothing
    armed or pending, and [Run] is called.  Compared with the run without
    the request, which ends in [mp] after [N] iterations of [T]: the run
    with the step ends too; what it calls is the beginning of what the run
    without the step calls; and it goes through exactly [n] of the [N]
    iterations of [T], or through all [N] when there are no more than [n]
    (each start, main and end hook of [T] is called that many times).
    - With [n < N] the stop is taken at the head of the next iteration of
      [T]: the stepper is as a stop armed for [T] and taken there leaves
      it.
    - With [n = N] the run ends where the run without the step ends, with a
      stop armed for [T] as [requestStop] arms it.
    - With [N < n] the run ends where the run without the step ends, and
      the step stays armed for the [n - N] iterations that are left, for
      the next call of [Run]. *)
Theorem step_runs_then_stops (n fuel : nat) mp :
  StopFlag (stp m0) = false -> StopNext (stp m0) = false ->
  lastStoppedLevel (stp m0) = -1 ->
  (1 <= n)%nat -> Z.of_nat n < 2 ^ 63 ->
  Run rangeOrder fuel m0 = Done mp ->
  exists (N : nat) ms,
    Run rangeOrder fuel (on_stp (requestStep T (Z.of_nat n)) m0) = Done ms
    /\ fired m0 `prefix_of` fired ms /\ fired ms `prefix_of` fired mp
    /\ countT m0 mp N /\ countT m0 ms (Nat.min n N)
    /\ ((n < N)%nat -> halted ms)
    /\ (n = N ->
        ms = on_stp (fun s => set_StepIterations 0 (requestStop T s)) mp)
    /\ ((N < n)%nat ->
        ms = on_stp (requestStep T (Z.of_nat (n - N))) mp).
Proof.
  intros Hf Hn Hl Hn1 Hn63. unfold Run.
  set (m1 := on_stp (set_internalStop false) m0).
  destruct (runLevel rangeOrder fuel 0 m1) as [[r mp1]| |] eqn:Hplain;
    [|discriminate..].
  intros [= <-].
  assert (Hinv1 : inv m1) by (by repeat split).
  destruct (proj1 (step_tracks_both fuel) 0%nat m1 r mp1 Hinv1 Hplain)
    as (Hid' & Hpre & _ & N & _ & Hcount & Hstep).
  assert (Harm : on_stp (set_internalStop false)
                   (on_stp (requestStep T (Z.of_nat n)) m0)
                 = on_stp (arm T n) m1).
  { destruct n as [|n']; [lia|]. reflexivity. }
  rewrite Harm. exists N.
  destruct (Nat.le_gt_cases N n) as [Hle|Hgt].
  - rewrite (proj1 (Hstep n Hn63) Hle).
    exists (on_stp (arm T (n - N)) mp1).
    split; [done|]. split; [exact Hpre|]. split; [done|].
    split; [exact Hcount|].
    split; [by rewrite Nat.min_r|]. split; [lia|]. split.
    + intros ->. rewrite Nat.sub_diag. by apply stopping_idle.
    + intros Hlt. destruct (n - N)%nat as [|x] eqn:Hx; [lia|]. reflexivity.
  - destruct (proj2 (Hstep n Hn63) Hgt)
      as (mh & -> & Hh & Hp1 & Hp2 & Hc & _).
    exists mh. split; [done|]. split; [exact Hp1|]. split; [exact Hp2|].
    split; [exact Hcount|].
    split; [by rewrite Nat.min_l by lia|]. split; [done|]. split; lia.
Qed.

End StepTracks.


(** ** Concrete stacks *)

(** The order in which the model's map hands out its entries is one the
    runtime may pick. *)
Definition listOrder {W} (ps : gmap string (Pred W)) : list (string * Pred W) :=
  map_to_list ps.

Lemma listOrder_perm {W} (ps : gmap string (Pred W)) :
  listOrder ps ≡ₚ map_to_list ps.
Proof. reflexivity. Defined.

(** A hook that counts its calls in a host state made of one number. *)
Definition tick : NamedFunc nat := mkNamedFunc "tick" S.

(** A stepper as [Init] leaves it, for mode 0, over the stack [st]. *)
Definition freshMachine {W} (st : Stack W) (w : W) : Machine W :=
  mkMachine
    (mkStepper false false 0%nat 0 (mkLoopManager {[ 0%nat := st ]}) 0%nat
       (-1) false)
    w [].

(** Two nested levels, 2 iterations around 3, each with one hook per list. *)
Definition outerLoop : LoopStructure nat :=
  mkLoop [tick] [tick] [tick] ∅ [] (mkCtr 0 2).
Definition innerLoop : LoopStructure nat :=
  mkLoop [tick] [tick] [tick] ∅ [] (mkCtr 0 3).
Definition twoLevels : Stack nat :=
  mkStack [0%nat; 1%nat] {[ 0%nat := outerLoop; 1%nat := innerLoop ]}.

(** One level of maximum 10 whose termination function always says yes. *)
Definition eagerLoop : LoopStructure nat :=
  mkLoop [tick] [tick] [tick] {[ "done" := fun w : nat => (true, w) ]} []
    (mkCtr 0 10).
Definition eagerStack : Stack nat := mkStack [0%nat] {[ 0%nat := eagerLoop ]}.

Definition twoLevelsList : list (Times * LoopStructure nat) :=
  [(0%nat, outerLoop); (1%nat, innerLoop)].

Definition eagerList : list (Times * LoopStructure nat) :=
  [(0%nat, eagerLoop)].

Ltac distinct_times :=
  repeat (apply NoDup_cons_2 || apply NoDup_nil_2);
  rewrite ?list_elem_of_In; cbn; intuition discriminate.

Ltac no_predicate :=
  repeat constructor; intros name p w H; cbn in H;
  rewrite lookup_empty in H; discriminate.

(** The run of the two nested levels (2 around 3) of [twoLevels]. *)
Lemma bounded_run_completes_witness :
  exists m' ev,
    Run listOrder 20 (freshMachine twoLevels 0%nat) = Done m'
    /\ runLevel listOrder 20 0
         (on_stp (set_internalStop false) (freshMachine twoLevels 0%nat))
       = Done (true, m')
    /\ atRest m' twoLevelsList
    /\ fired m' = fired (freshMachine twoLevels 0%nat) ++ ev
    /\ (Forall quiet twoLevelsList ->
        forall (j : nat) t lp l,
          twoLevelsList !! j = Some (t, lp) -> plain l = true ->
          subTrace t l ev
          = concat (replicate (iterations (take (S j) twoLevelsList))
                      (calls t l (hooksOf lp l)))
          /\ forall i, (i < length (hooksOf lp l))%nat ->
               timesFired (Called t l i) ev
               = iterations (take (S j) twoLevelsList)).
Proof.
  apply (bounded_run_completes listOrder listOrder_perm twoLevelsList);
    try reflexivity.
  - eexists. split; reflexivity.
  - distinct_times.
  - repeat constructor.
  - repeat constructor.
  - vm_compute. lia.
Defined.

(** C2 as stated fails: [eagerStack] has one bounded level (maximum 10), its
    counter at 0 and no stop or step armed, yet its OnEnd hook is called once
    in the whole run, not 10 times, because its termination function fires
    after the first iteration. *)
Lemma eager_level_runs_once :
  stackIs (freshMachine eagerStack 0%nat) eagerList.*1
  /\ atRest (freshMachine eagerStack 0%nat) eagerList
  /\ Forall bounded eagerList
  /\ idle (freshMachine eagerStack 0%nat)
  /\ iterations (take 1 eagerList) = 10%nat
  /\ exists m',
       Run listOrder 20 (freshMachine eagerStack 0%nat) = Done m'
       /\ timesFired (Called 0%nat OnEndL 0) (fired m') = 1%nat.
Proof.
  split; [eexists; split; reflexivity|].
  split; [repeat constructor|].
  split; [repeat constructor|].
  split; [repeat split|].
  split; [reflexivity|].
  eexists. split; [vm_compute; reflexivity|]. vm_compute. reflexivity.
Qed.

(** A level whose maximum is 0. *)
Definition emptyLoop : LoopStructure nat :=
  mkLoop [tick] [tick] [tick] ∅ [] (mkCtr 0 0).
Definition emptyStack : Stack nat :=
  mkStack [0%nat; 1%nat] {[ 0%nat := emptyLoop; 1%nat := innerLoop ]}.

(** The stepper of [twoLevels] with a stop armed for the outer level. *)
Definition stopArmed : Machine nat :=
  on_stp (set_StopFlag true) (freshMachine twoLevels 0%nat).

Lemma runLevel_suspends_witness :
  exists m',
    runLevel listOrder 2 0 stopArmed = Done (false, m')
    /\ fired m' = fired stopArmed
    /\ world m' = world stopArmed
    /\ LoopsOf (stp m') = LoopsOf (stp stopArmed)
    /\ internalStop (stp m') = true
    /\ lastStoppedLevel (stp m')
       = (if StopFlag (stp stopArmed)
             && bool_decide (0%nat = StopLevel (stp stopArmed))
          then Z.of_nat 0 else lastStoppedLevel (stp stopArmed)).
Proof.
  apply (runLevel_suspends listOrder 0 stopArmed 0 0%nat outerLoop).
  - eexists. repeat split; reflexivity.
  - reflexivity.
  - reflexivity.
Defined.

Lemma runLevel_max_zero_witness :
  exists m',
    runLevel listOrder 2 0 (freshMachine emptyStack 0%nat) = Done (true, m')
    /\ fired m' = fired (freshMachine emptyStack 0%nat)
    /\ world m' = world (freshMachine emptyStack 0%nat)
    /\ (forall t', getLoop t' m' = getLoop t' (freshMachine emptyStack 0%nat))
    /\ getLoop 0%nat m' = Some emptyLoop.
Proof.
  apply (runLevel_max_zero listOrder 0 (freshMachine emptyStack 0%nat) 0
           0%nat emptyLoop).
  - eexists. repeat split; reflexivity.
  - reflexivity.
  - reflexivity.
Defined.

(** Two nested levels, at most 10 iterations around 3; the outer level has
    a termination function that says yes once the host state has counted
    [k] calls.  One iteration of the outer level makes 12 calls. *)
Definition enough (k : nat) : Pred nat := fun w => ((k <=? w)%nat, w).
Definition cutLoop (mx : Z) (k : nat) : LoopStructure nat :=
  mkLoop [tick] [tick] [tick] {[ "enough" := enough k ]} [] (mkCtr 0 mx).
Definition cutStack (mx : Z) (k : nat) : Stack nat :=
  mkStack [0%nat; 1%nat] {[ 0%nat := cutLoop mx k; 1%nat := innerLoop ]}.

Lemma predicate_cuts_level_short_witness :
  exists m' ev,
    runLevel listOrder 10 0 (freshMachine (cutStack 10 36) 0%nat)
    = Done (true, m')
    /\ getLoop 0%nat m' = Some (setCurLoop 0 (cutLoop 10 36))
    /\ fired m' = fired (freshMachine (cutStack 10 36) 0%nat) ++ ev
    /\ (forall l i, plain l = true ->
          (i < length (hooksOf (cutLoop 10 36) l))%nat ->
          timesFired (Called 0%nat l i) ev = 3%nat)
    /\ timesFired (Tested 0%nat "enough" false) ev = 2%nat
    /\ timesFired (Tested 0%nat "enough" true) ev = 1%nat.
Proof.
  apply (predicate_cuts_level_short listOrder listOrder_perm 0 0%nat "enough"
           (enough 36) [(1%nat, innerLoop)] [0%nat; 1%nat] (cutLoop 10 36)).
  - distinct_times.
  - reflexivity.
  - reflexivity.
  - repeat constructor.
  - reflexivity.
  - reflexivity.
  - split; [eexists; split; reflexivity|].
    split; [reflexivity|]. split; [repeat constructor|repeat split].
  - vm_compute. reflexivity.
  - vm_compute. reflexivity.
  - vm_compute. reflexivity.
  - vm_compute. lia.
Defined.

Lemma unbounded_level_terminates_witness :
  exists m' ev,
    (forall fuel : nat, (fuelFor [(1%nat, innerLoop)] + 8 <= fuel)%nat ->
       runLevel listOrder fuel 0 (freshMachine (cutStack (-1) 84) 0%nat)
       = Done (true, m'))
    /\ getLoop 0%nat m' = Some (setCurLoop 0 (cutLoop (-1) 84))
    /\ fired m' = fired (freshMachine (cutStack (-1) 84) 0%nat) ++ ev
    /\ (forall l i, plain l = true ->
          (i < length (hooksOf (cutLoop (-1) 84) l))%nat ->
          timesFired (Called 0%nat l i) ev = 7%nat)
    /\ timesFired (Tested 0%nat "enough" true) ev = 1%nat.
Proof.
  apply (unbounded_level_terminates listOrder listOrder_perm 0 0%nat "enough"
           (enough 84) [(1%nat, innerLoop)] [0%nat; 1%nat] (cutLoop (-1) 84)).
  - distinct_times.
  - reflexivity.
  - reflexivity.
  - repeat constructor.
  - reflexivity.
  - reflexivity.
  - split; [eexists; split; reflexivity|].
    split; [reflexivity|]. split; [repeat constructor|repeat split].
  - intros k Hk.
    do 6 (destruct k as [|k]; [vm_compute; reflexivity|]). lia.
  - vm_compute. reflexivity.
Defined.

Lemma first_yes_ends_level_witness :
  exists m3,
    runLevel listOrder 6 1
      (phaseLogic 0%nat (setCurLoop 0 (cutLoop 10 36))
         (callAll 0%nat OnStartL (OnStart (cutLoop 10 36))
            (freshMachine (cutStack 10 36) 0%nat)))
    = Done (true, m3)
    /\ let m4 := callAll 0%nat OnEndL (OnEnd (cutLoop 10 36))
                   (callAll 0%nat MainL (Main (cutLoop 10 36)) m3) in
       let res := testDone 0%nat (listOrder (IsDone (cutLoop 10 36))) m4 in
       (res.1 = true ->
          (exists before name p after,
             listOrder (IsDone (cutLoop 10 36)) = before ++ (name, p) :: after
             /\ fired res.2
                = fired m4 ++ saidNo 0%nat before ++ [Tested 0%nat name true])
          /\ exists m',
               forLoop listOrder 7 0 0%nat (freshMachine (cutStack 10 36) 0%nat)
               = Done (true, m')
               /\ getLoop 0%nat m' = Some (setCurLoop 0 (cutLoop 10 36))
               /\ fired m' = fired res.2 /\ world m' = world res.2)
       /\ (res.1 = false ->
             fired res.2
             = fired m4 ++ saidNo 0%nat (listOrder (IsDone (cutLoop 10 36)))
             /\ forLoop listOrder 7 0 0%nat (freshMachine (cutStack 10 36) 0%nat)
                = forLoop listOrder 6 0 0%nat
                    (setCur 0%nat (wrap64 (0 + 1)) res.2)).
Proof.
  apply (first_yes_ends_level listOrder listOrder_perm 0 0%nat
           [(1%nat, innerLoop)] [0%nat; 1%nat] (cutLoop 10 36) 6
           (freshMachine (cutStack 10 36) 0%nat) 0).
  - distinct_times.
  - reflexivity.
  - repeat constructor.
  - split; [eexists; split; reflexivity|].
    split; [reflexivity|]. split; [repeat constructor|repeat split].
  - reflexivity.
  - vm_compute. lia.
Defined.

(** One level of maximum 10 with two termination functions that both always
    say yes. *)
Definition yes : Pred nat := fun w => (true, w).
Definition yesLoop : LoopStructure nat :=
  mkLoop [tick] [tick] [tick] {[ "a" := yes; "b" := yes ]} [] (mkCtr 0 10).
Definition yesStack : Stack nat := mkStack [0%nat] {[ 0%nat := yesLoop ]}.

(** C5 as stated fails: after the first iteration of [yesLoop] only the
    termination function [a] is evaluated; [b], which is registered as well,
    is not, because the range is left at the first function that says yes. *)
Lemma later_function_not_evaluated :
  IsDone yesLoop !! "b" = Some yes
  /\ exists m',
       Run listOrder 20 (freshMachine yesStack 0%nat) = Done m'
       /\ fired m' = [Called 0%nat OnStartL 0; Called 0%nat MainL 0;
                      Called 0%nat OnEndL 0; Tested 0%nat "a" true]
       /\ forall r, timesFired (Tested 0%nat "b" r) (fired m') = 0%nat.
Proof.
  split; [reflexivity|].
  eexists. split; [vm_compute; reflexivity|].
  split; [reflexivity|]. intros []; reflexivity.
Qed.

(** Another order the runtime may pick: the entries the other way round. *)
Definition revOrder {W} (ps : gmap string (Pred W)) : list (string * Pred W) :=
  reverse (map_to_list ps).

Lemma revOrder_perm {W} (ps : gmap string (Pred W)) :
  revOrder ps ≡ₚ map_to_list ps.
Proof. apply reverse_Permutation. Defined.

Lemma cutStack_atMostOne mx k :
  atMostOne (LoopsOf (stp (freshMachine (cutStack mx k) 0%nat))).
Proof.
  intros mode st t lp Hst Hlp. cbn in Hst.
  apply lookup_singleton_Some in Hst as [_ <-]. cbn in Hlp.
  apply lookup_insert_Some in Hlp as [[_ <-]|[_ Hlp]].
  - cbn. by rewrite map_size_singleton.
  - apply lookup_singleton_Some in Hlp as [_ <-]. cbn.
    by rewrite map_size_empty; lia.
Defined.

(** A stop at the inner level, a resumption, two steps of the inner level
    and a last resumption, under the two orders. *)
Lemma replay_deterministic_witness :
  replay listOrder 20 [[StopAt 1%nat]; []; [StepAt 1%nat 2]; []]
    (freshMachine (cutStack 10 36) 0%nat)
  = replay revOrder 20 [[StopAt 1%nat]; []; [StepAt 1%nat 2]; []]
      (freshMachine (cutStack 10 36) 0%nat).
Proof.
  apply (replay_deterministic listOrder revOrder listOrder_perm revOrder_perm
           20 [[StopAt 1%nat]; []; [StepAt 1%nat 2]; []]
           (freshMachine (cutStack 10 36) 0%nat)).
  apply cutStack_atMostOne.
Defined.

(** One level with two termination functions, of which only [a] says yes. *)
Definition no : Pred nat := fun w => (false, w).
Definition mixedLoop : LoopStructure nat :=
  mkLoop [tick] [tick] [tick] {[ "a" := yes; "b" := no ]} [] (mkCtr 0 10).
Definition mixedStack : Stack nat := mkStack [0%nat] {[ 0%nat := mixedLoop ]}.

(** C4 as stated fails: the same stepper over the same manager, with no
    request at all, evaluates [a] alone under one order of the range over
    the termination functions and [b], then [a], under another. *)
Lemma range_order_changes_trace :
  (forall ps : gmap string (Pred nat), listOrder ps ≡ₚ map_to_list ps)
  /\ (forall ps : gmap string (Pred nat), revOrder ps ≡ₚ map_to_list ps)
  /\ exists m1 m2,
       Run listOrder 20 (freshMachine mixedStack 0%nat) = Done m1
       /\ Run revOrder 20 (freshMachine mixedStack 0%nat) = Done m2
       /\ fired m1 = [Called 0%nat OnStartL 0; Called 0%nat MainL 0;
                      Called 0%nat OnEndL 0; Tested 0%nat "a" true]
       /\ fired m2 = [Called 0%nat OnStartL 0; Called 0%nat MainL 0;
                      Called 0%nat OnEndL 0; Tested 0%nat "b" false;
                      Tested 0%nat "a" true]
       /\ fired m1 <> fired m2.
Proof.
  split; [apply listOrder_perm|]. split; [apply revOrder_perm|].
  eexists. eexists.
  split; [vm_compute; reflexivity|]. split; [vm_compute; reflexivity|].
  split; [reflexivity|]. split; [reflexivity|]. cbn. discriminate.
Qed.

(** Two nested levels, 2 iterations around 3; the outer level has one phase
    of duration 2 with one hook in each of its lists. *)
Definition phasedLoop : LoopStructure nat :=
  mkLoop [tick] [tick] [tick] ∅ [mkPhase 2 [tick] [tick] [tick]] (mkCtr 0 2).
Definition phasedStack : Stack nat :=
  mkStack [0%nat; 1%nat] {[ 0%nat := phasedLoop; 1%nat := innerLoop ]}.

(** The stepper of [phasedStack] with a stop armed for the inner level. *)
Definition stopInner : Machine nat :=
  on_stp (requestStop 1%nat) (freshMachine phasedStack 0%nat).

Lemma resumption_repeats_phase_hooks_witness :
  exists m1,
    runLevel listOrder 4 0 stopInner = Done (false, m1)
    /\ fired m1
       = fired stopInner ++ calls 0%nat OnStartL (OnStart phasedLoop)
           ++ phaseTrace 0%nat phasedLoop
    /\ getLoop 0%nat m1 = Some phasedLoop
    /\ forall (fuel' : nat) r m2,
         runLevel listOrder fuel' 0 (on_stp (set_internalStop false) m1)
         = Done (r, m2) ->
         (fired stopInner ++ calls 0%nat OnStartL (OnStart phasedLoop)
            ++ phaseTrace 0%nat phasedLoop ++ phaseTrace 0%nat phasedLoop)
           `prefix_of` fired m2.
Proof.
  apply (resumption_repeats_phase_hooks listOrder 0 stopInner 0 0%nat 1%nat
           phasedLoop innerLoop).
  - eexists. repeat split; reflexivity.
  - eexists. repeat split; reflexivity.
  - discriminate.
  - reflexivity.
  - reflexivity.
  - reflexivity.
  - reflexivity.
  - reflexivity.
  - reflexivity.
  - reflexivity.
Defined.

(** C1 fails in the code: the run of [phasedStack] in one go calls the start
    hook of the phase of the outer level once, at the value 0 of the counter
    of that level; the same run stopped at the inner level and resumed calls
    it twice, and so leaves another host state, while the start, main and end
    hooks of the level are called equally often and the counters end alike. *)
Lemma interrupted_run_differs :
  exists mA mB,
    Run listOrder 30 (freshMachine phasedStack 0%nat) = Done mA
    /\ replay listOrder 30 [[StopAt 1%nat]; []] (freshMachine phasedStack 0%nat)
       = Done mB
    /\ LoopsOf (stp mA) = LoopsOf (stp mB)
    /\ (timesFired (Called 0%nat (PhaseStartL 0) 0) (fired mA),
        timesFired (Called 0%nat (PhaseStartL 0) 0) (fired mB))
       = (1%nat, 2%nat)
    /\ (forall l i, plain l = true ->
          timesFired (Called 0%nat l i) (fired mA)
          = timesFired (Called 0%nat l i) (fired mB))
    /\ world mA <> world mB.
Proof.
  eexists. eexists.
  split; [vm_compute; reflexivity|]. split; [vm_compute; reflexivity|].
  split; [reflexivity|]. split; [vm_compute; reflexivity|].
  split.
  - intros [] [|[|i]] Hl; try discriminate; vm_compute; reflexivity.
  - vm_compute. discriminate.
Qed.

(** Two nested levels, at most 5 iterations around 3. *)
Definition wideLoop : LoopStructure nat :=
  mkLoop [tick] [tick] [tick] ∅ [] (mkCtr 0 5).
Definition wideStack : Stack nat :=
  mkStack [0%nat; 1%nat] {[ 0%nat := wideLoop; 1%nat := innerLoop ]}.




(** ** Instances of the further properties *)

Lemma Incr_reaches_max_witness :
  Nat.iter 3 Incr (mkCtr 0 3) = mkCtr (Z.of_nat 3) 3
  /\ IsOverMax (Nat.iter 3 Incr (mkCtr 0 3)) = (Z.of_nat 3 =? 3).
Proof. apply (Incr_reaches_max 3 3); lia. Defined.

Lemma phaseLogic_past_schedule_witness :
  phaseLogic 0%nat (setCurLoop 2 phasedLoop) (freshMachine phasedStack 0%nat)
  = freshMachine phasedStack 0%nat.
Proof.
  apply (phaseLogic_past_schedule 0%nat (setCurLoop 2 phasedLoop)
           (freshMachine phasedStack 0%nat)).
  - repeat constructor.
  - cbn. lia.
Defined.

Lemma phase_hooks_due_witness :
  timesFired (Called 0%nat (OnMillisecondEndL 0) 0)
    (fired (phaseLogic 0%nat phasedLoop (freshMachine phasedStack 0%nat)))
  = (timesFired (Called 0%nat (OnMillisecondEndL 0) 0)
       (fired (freshMachine phasedStack 0%nat))
     + if due (OnMillisecondEndL 0) (Cur (Counter phasedLoop))
            (scheduleLength (take 0 (Phases phasedLoop)))
            (Duration (mkPhase 2 [tick] [tick] [tick]))
       then 1 else 0)%nat.
Proof.
  apply (phase_hooks_due 0%nat phasedLoop (freshMachine phasedStack 0%nat)
           (OnMillisecondEndL 0) 0 0 (mkPhase 2 [tick] [tick] [tick])).
  - reflexivity.
  - reflexivity.
  - reflexivity.
  - cbn. lia.
  - repeat constructor.
  - cbn. lia.
Defined.

(** The stepper of [twoLevels] with a stop armed for a time scale that the
    stack does not have. *)
Definition stopElsewhere : Machine nat :=
  on_stp (requestStop 7%nat) (freshMachine twoLevels 0%nat).

Lemma armed_elsewhere_is_ignored_witness :
  exists m' ev,
    Run listOrder 20 stopElsewhere = Done m'
    /\ stp m' = set_internalStop false (stp stopElsewhere)
    /\ fired m' = fired stopElsewhere ++ ev
    /\ (Forall quiet twoLevelsList -> forall t l i, plain l = true ->
          timesFired (Called t l i) ev = expected twoLevelsList t l i).
Proof.
  apply (armed_elsewhere_is_ignored listOrder listOrder_perm twoLevelsList
           stopElsewhere 20).
  - eexists. split; reflexivity.
  - distinct_times.
  - repeat constructor.
  - repeat constructor.
  - reflexivity.
  - cbn. rewrite !list_elem_of_In. cbn. intuition discriminate.
  - vm_compute. lia.
Defined.

Lemma bounded_run_twice_witness :
  exists m1 m2 ev,
    Run listOrder 20 (freshMachine twoLevels 0%nat) = Done m1
    /\ Run listOrder 20 m1 = Done m2
    /\ stp m1 = set_internalStop false (stp (freshMachine twoLevels 0%nat))
    /\ stp m2 = stp m1
    /\ fired m2 = fired (freshMachine twoLevels 0%nat) ++ ev
    /\ (Forall quiet twoLevelsList -> forall t l i, plain l = true ->
          timesFired (Called t l i) ev
          = (2 * expected twoLevelsList t l i)%nat).
Proof.
  apply (bounded_run_twice listOrder listOrder_perm twoLevelsList
           (freshMachine twoLevels 0%nat) 20).
  - eexists. split; reflexivity.
  - distinct_times.
  - repeat constructor.
  - repeat constructor.
  - reflexivity.
  - reflexivity.
  - reflexivity.
  - vm_compute. lia.
Defined.

Lemma stop_at_top_resumes_cleanly_witness :
  exists m1,
    Run listOrder 2 stopArmed = Done m1
    /\ fired m1 = fired stopArmed /\ world m1 = world stopArmed
    /\ LoopsOf (stp m1) = LoopsOf (stp stopArmed)
    /\ forall fuel' : nat,
         Run listOrder fuel' m1
         = Run listOrder fuel' (on_stp (set_StopFlag false) stopArmed).
Proof.
  apply (stop_at_top_resumes_cleanly listOrder 0 stopArmed 0%nat outerLoop).
  - eexists. repeat split; reflexivity.
  - reflexivity.
  - reflexivity.
  - reflexivity.
  - reflexivity.
Defined.

(** The stepper of [wideStack] with a step of no iteration of the outer
    level. *)
Definition stepNone : Machine nat :=
  on_stp (requestStep 0%nat 0) (freshMachine wideStack 0%nat).

Lemma step_of_none_runs_one_witness :
  exists m' ev,
    runLevel listOrder 9 0 stepNone = Done (false, m')
    /\ getLoop 0%nat m' = Some (setCurLoop (0 + 1) wideLoop)
    /\ StepIterations (stp m') = 0 - 1
    /\ StopNext (stp m') = false
    /\ lastStoppedLevel (stp m') = Z.of_nat 0
    /\ fired m' = fired stepNone ++ ev
    /\ (forall l i, plain l = true ->
          timesFired (Called 0%nat l i) ev
          = if decide (i < length (hooksOf wideLoop l))%nat then 1%nat
            else 0%nat).
Proof.
  apply (step_of_none_runs_one listOrder listOrder_perm 0 0%nat
           [(1%nat, innerLoop)] [0%nat; 1%nat] wideLoop).
  - distinct_times.
  - reflexivity.
  - reflexivity.
  - repeat constructor.
  - intros name p w H. cbn in H. rewrite lookup_empty in H. discriminate.
  - split; [eexists; split; reflexivity|].
    split; [reflexivity|repeat constructor].
  - apply requestStep_stepArmed. repeat split.
  - lia.
  - right. cbn. lia.
  - lia.
  - lia.
  - vm_compute. lia.
Defined.

(** The value of a [Stepper] that was only declared. *)
Definition zeroStepper : Stepper nat :=
  mkStepper false false 0%nat 0 (mkLoopManager ∅) 0%nat 0 false.

Lemma Init_then_Run_witness :
  exists m' ev,
    Run listOrder 20
      (mkMachine
         (Init 0%nat 0%nat (mkLoopManager {[ 0%nat := twoLevels ]}) zeroStepper)
         0%nat [])
    = Done m'
    /\ stp m'
       = set_internalStop false
           (Init 0%nat 0%nat (mkLoopManager {[ 0%nat := twoLevels ]})
              zeroStepper)
    /\ fired m' = [] ++ ev
    /\ (Forall quiet twoLevelsList -> forall t l i, plain l = true ->
          timesFired (Called t l i) ev = expected twoLevelsList t l i).
Proof.
  apply (Init_then_Run 0%nat 0%nat listOrder listOrder_perm
           (mkLoopManager {[ 0%nat := twoLevels ]}) zeroStepper twoLevels
           twoLevelsList 0%nat [] 20).
  - reflexivity.
  - reflexivity.
  - distinct_times.
  - repeat constructor.
  - repeat constructor.
  - reflexivity.
  - reflexivity.
  - vm_compute. lia.
Defined.

Lemma termination_cuts_level_witness :
  exists m' ev,
    runLevel listOrder 9 0 (freshMachine (cutStack 5 24) 0%nat)
    = Done (true, m')
    /\ getLoop 0%nat m' = Some (setCurLoop 0 (cutLoop 5 24))
    /\ atRest m' [(1%nat, innerLoop)]
    /\ fired m' = fired (freshMachine (cutStack 5 24) 0%nat) ++ ev
    /\ (forall l i, plain l = true ->
          (i < length (hooksOf (cutLoop 5 24) l))%nat ->
          timesFired (Called 0%nat l i) ev = 2%nat)
    /\ timesFired (Tested 0%nat "enough" false) ev = 1%nat
    /\ timesFired (Tested 0%nat "enough" true) ev = 1%nat.
Proof.
  apply (termination_cuts_level listOrder listOrder_perm 0 0%nat "enough"
           (enough 24) [(1%nat, innerLoop)] [0%nat; 1%nat] (cutLoop 5 24)
           1 9 (freshMachine (cutStack 5 24) 0%nat) 0).
  - distinct_times.
  - reflexivity.
  - reflexivity.
  - repeat constructor.
  - reflexivity.
  - split; [eexists; split; reflexivity|].
    split; [reflexivity|]. split; [repeat constructor|repeat split].
  - right. cbn. lia.
  - lia.
  - lia.
  - intros [|k] Hk; [vm_compute; reflexivity|lia].
  - vm_compute. reflexivity.
  - vm_compute. lia.
Defined.

Lemma no_request_no_interruption_witness :
  exists m',
    runLevel listOrder 10 0 (freshMachine (cutStack 10 36) 0%nat)
    = Done (true, m')
    /\ true = true /\ calm (stp m').
Proof.
  eexists. split; [vm_compute; reflexivity|].
  apply (no_request_no_interruption listOrder 10 0
           (freshMachine (cutStack 10 36) 0%nat)).
  - reflexivity.
  - reflexivity.
  - reflexivity.
  - vm_compute. reflexivity.
Defined.
